(** * Integration-test harness of the driver service: a shallow embedding

    The Python harness under [python-integration-tests/] is embedded module
    by module: [utils/helpers.py] (readiness probing, fixture factories,
    database cleanup, the assertions on responses), [conftest.py] (the
    pytest fixtures that create and track drivers and wait for the
    services), [tests/test_nats_events.py] (the bus event handler and the
    event-correlation tests) and [tests/test_websocket.py] (the socket
    sessions, one after the other and at once).

    Python exceptions are values of [Py.exn] carried by [Py.result]; every
    external collaborator (database, HTTP service, message bus, socket
    server, clock, random source) is an explicit environment argument, so
    each theorem quantifies over everything the outside world may do. *)

From Stdlib Require Import ZArith List String Ascii Bool Lia QArith Qround Lqa.
Import ListNotations.

Open Scope string_scope.
Open Scope list_scope.
Open Scope Z_scope.

(* ================================================================== *)
(** * Python values shared by all modules *)
(* ================================================================== *)

Module Py.

(** The exception classes the harness raises or catches.  All of them are
    subclasses of [Exception]. *)
Inductive exn : Type :=
| RequestException (msg : string)      (* requests *)
| OperationalError (msg : string)      (* psycopg2: cannot connect *)
| DatabaseError (msg : string)         (* psycopg2: a statement or commit failed *)
| UnicodeDecodeError                   (* bytes.decode *)
| JSONDecodeError                      (* json.loads *)
| AttributeError                       (* e.get on a value that is not a dict *)
| KeyError (key : string)
| AssertionError (msg : string)
| ConnectionRefusedError
| InvalidURI
| ConnectionClosedError
| OtherException (msg : string).

Inductive result (A : Type) : Type :=
| Returned (a : A)
| Raised (e : exn).
Arguments Returned {A} a.
Arguments Raised {A} e.

(** [str(e)] as used inside f-strings. *)
Definition str_exn (e : exn) : string :=
  match e with
  | RequestException m | OperationalError m | DatabaseError m
  | AssertionError m | OtherException m => m
  | KeyError k => k
  | UnicodeDecodeError => "invalid start byte"
  | JSONDecodeError => "Expecting value"
  | AttributeError => "object has no attribute"
  | ConnectionRefusedError => "Connection refused"
  | InvalidURI => "invalid URI"
  | ConnectionClosedError => "connection closed"
  end.

Inductive level := DEBUG | INFO | ERROR.

Record log_entry := { lvl : level; text : string }.

Definition debug (m : string) := {| lvl := DEBUG; text := m |}.
Definition info (m : string) := {| lvl := INFO; text := m |}.
Definition error (m : string) := {| lvl := ERROR; text := m |}.

Definition is_error (e : log_entry) : bool :=
  match lvl e with ERROR => true | _ => false end.

(** Truthiness of an optional list: [None] and [[]] are both falsy. *)
Definition truthy {A : Type} (x : option (list A)) : bool :=
  match x with
  | Some (_ :: _) => true
  | _ => false
  end.

End Py.


(* ================================================================== *)
(** * utils/helpers.py: cleanup_test_data, and conftest.py: test_drivers *)
(* ================================================================== *)

Module Cleanup.
Import Py.

(** The five tables the cleanup touches. *)
Inductive table := driver_ratings | driver_locations | driver_shifts
                 | driver_documents | drivers.

Definition table_eqb (a b : table) : bool :=
  match a, b with
  | driver_ratings, driver_ratings | driver_locations, driver_locations
  | driver_shifts, driver_shifts | driver_documents, driver_documents
  | drivers, drivers => true
  | _, _ => false
  end.

(** A row maps column names to text values; an absent column value is SQL
    NULL.  A relation is a bag of rows under a list of declared columns. *)
Definition row := list (string * string).

Record relation := { columns : list string; rows : list row }.

Definition database := table -> relation.

Definition field (c : string) (r : row) : option string :=
  match find (fun kv => String.eqb (fst kv) c) r with
  | Some kv => Some (snd kv)
  | None => None
  end.

(** [contains needle hay]: [hay LIKE '%needle%']. *)
Fixpoint contains (needle hay : string) : bool :=
  match hay with
  | EmptyString => String.prefix needle EmptyString
  | String _ rest => String.prefix needle hay || contains needle rest
  end.

(** [email LIKE '%test%' OR email LIKE '%example%'] (NULL is not matched). *)
Definition like_test (r : row) : bool :=
  match field "email" r with
  | Some e => contains "test" e || contains "example" e
  | None => false
  end.

(** [SELECT id FROM drivers WHERE email LIKE '%test%' OR email LIKE '%example%'] *)
Definition test_driver_ids (db : database) : list string :=
  flat_map (fun r => if like_test r
                     then match field "id" r with Some i => [i] | None => [] end
                     else [])
           (rows (db drivers)).

(** The three WHERE clauses that occur in [cleanup_test_data]. *)
Inductive condition :=
| driver_id_in (params : list string)
    (* WHERE driver_id IN (%s,...,%s), bound to the parameters *)
| driver_id_in_test_drivers
    (* WHERE driver_id IN (SELECT id FROM drivers WHERE email LIKE ...) *)
| email_like_test.
    (* WHERE email LIKE '%test%' OR email LIKE '%example%' *)

Record statement := DELETE_FROM { from : table; where_ : condition }.

Definition has_column (db : database) (t : table) (c : string) : bool :=
  existsb (String.eqb c) (columns (db t)).

(** A statement that names a column its table does not have is rejected. *)
Definition columns_exist (db : database) (s : statement) : bool :=
  match where_ s with
  | driver_id_in _ => has_column db (from s) "driver_id"
  | driver_id_in_test_drivers =>
      has_column db (from s) "driver_id"
      && has_column db drivers "id" && has_column db drivers "email"
  | email_like_test => has_column db (from s) "email"
  end.

Definition member (v : string) (l : list string) : bool :=
  existsb (String.eqb v) l.

Definition matches (db : database) (c : condition) (r : row) : bool :=
  match c with
  | driver_id_in ps =>
      match field "driver_id" r with Some v => member v ps | None => false end
  | driver_id_in_test_drivers =>
      match field "driver_id" r with
      | Some v => member v (test_driver_ids db)
      | None => false
      end
  | email_like_test => like_test r
  end.

Definition delete_rows (db : database) (s : statement) : database :=
  fun t =>
    if table_eqb t (from s)
    then {| columns := columns (db t);
            rows := filter (fun r => negb (matches db (where_ s) r)) (rows (db t)) |}
    else db t.

(** What the database server decides: whether the connection is accepted,
    whether a statement fails for a reason of its own (lock timeout, lost
    connection, constraint, ...), and whether the commit goes through. *)
Record server := {
  connect_error : option string;
  statement_error : statement -> option string;
  commit_error : option string
}.

(** [cur.execute(...)] inside the open transaction [txn]. *)
Definition execute (srv : server) (s : statement) (txn : database) : result database :=
  match statement_error srv s with
  | Some m => Raised (DatabaseError m)
  | None =>
      if columns_exist txn s then Returned (delete_rows txn s)
      else Raised (DatabaseError "column does not exist")
  end.

(** "Clean in order of foreign key dependencies" *)
Definition tables : list table :=
  [driver_ratings; driver_locations; driver_shifts; driver_documents; drivers].

(** The statements [cleanup_test_data] runs, in program order.  The branch is
    taken on the truthiness of [driver_ids]. *)
Definition statements (driver_ids : option (list string)) : list statement :=
  if truthy driver_ids then
    match driver_ids with
    | Some ids => map (fun t => DELETE_FROM t (driver_id_in ids)) tables
    | None => []
    end
  else
    [ DELETE_FROM driver_ratings driver_id_in_test_drivers;
      DELETE_FROM driver_locations driver_id_in_test_drivers;
      DELETE_FROM driver_shifts driver_id_in_test_drivers;
      DELETE_FROM driver_documents driver_id_in_test_drivers;
      DELETE_FROM drivers email_like_test ].

(** The observable world: the committed database, the log, and the
    statements sent to the server so far (the failing one included). *)
Record world := {
  committed : database;
  log : list log_entry;
  issued : list statement
}.

(** The [for]/sequence of [cur.execute] calls: the first exception leaves
    the loop. *)
Fixpoint execute_each (srv : server) (ss : list statement) (txn : database)
         (sent : list statement) : result database * list statement :=
  match ss with
  | [] => (Returned txn, sent)
  | s :: rest =>
      match execute srv s txn with
      | Returned txn' => execute_each srv rest txn' (sent ++ [s])
      | Raised e => (Raised e, sent ++ [s])
      end
  end.

(** The body of the [try] block: connect, run the statements, commit,
    close, log success. *)
Definition cleanup_body (srv : server) (driver_ids : option (list string))
           (w : world) : result unit * world :=
  match connect_error srv with
  | Some m => (Raised (OperationalError m), w)
  | None =>
      match execute_each srv (statements driver_ids) (committed w) (issued w) with
      | (Raised e, sent) =>
          (Raised e, {| committed := committed w; log := log w; issued := sent |})
      | (Returned txn, sent) =>
          match commit_error srv with
          | Some m =>
              (Raised (DatabaseError m),
               {| committed := committed w; log := log w; issued := sent |})
          | None =>
              (Returned tt,
               {| committed := txn;
                  log := log w ++ [info "Test data cleaned up successfully"];
                  issued := sent |})
          end
      end
  end.

(** [try: ... except Exception as e: logger.error(...)] *)
Definition cleanup_test_data (srv : server) (driver_ids : option (list string))
           (w : world) : result unit * world :=
  match cleanup_body srv driver_ids w with
  | (Returned tt, w') => (Returned tt, w')
  | (Raised e, w') =>
      (Returned tt,
       {| committed := committed w';
          log := log w' ++ [error ("Failed to cleanup test data: " ++ str_exn e)%string];
          issued := issued w' |})
  end.

(** conftest.py, fixture [test_drivers]: the list handed to the test, and
    the teardown that runs after the [yield]. *)
Record config := { cleanup_after_test : bool }.


Definition test_drivers (cfg : config) (srv : server) (driver_ids : list string)
           (w : world) : result unit * world :=
  if cleanup_after_test cfg && truthy (Some driver_ids)
  then cleanup_test_data srv (Some driver_ids) w
  else (Returned tt, w).


(** ** Reading a run of the cleanup *)

(** Some row of some table still refers to driver [d]. *)
Definition refers_to (d : string) (r : row) : bool :=
  match field "driver_id" r with Some v => String.eqb v d | None => false end.

Definition present (db : database) (d : string) : bool :=
  existsb (fun t => existsb (refers_to d) (rows (db t))) tables.




(** Every table has the [driver_id] column, and [drivers] also has [id]
    and [email]: both branches of the cleanup are well-formed SQL. *)
Definition schema_ok (db : database) : bool :=
  forallb (fun t => has_column db t "driver_id") tables
  && has_column db drivers "id" && has_column db drivers "email".

(** ** A concrete database used by the examples

    Its [drivers] table carries a [driver_id] column next to [id], as the
    parameterised deletes require of every table they filter. *)

Definition child (d : string) : row := [("id", "r-" ++ d)%string; ("driver_id", d)].

Definition driver (d e : string) : row := [("id", d); ("driver_id", d); ("email", e)].

Definition db0 : database := fun t =>
  match t with
  | drivers =>
      {| columns := ["id"; "driver_id"; "email"];
         rows := [driver "d1" "ivan@example.org"; driver "d2" "petr@mail.ru";
                  driver "d3" "contest@mail.ru"] |}
  | driver_locations =>
      {| columns := ["id"; "driver_id"];
         rows := [child "d1"; child "d2"; child "d2"; child "d3"] |}
  | _ => {| columns := ["id"; "driver_id"]; rows := [child "d1"; child "d2"] |}
  end.

Definition w0 : world := {| committed := db0; log := []; issued := [] |}.


Definition healthy : server :=
  {| connect_error := None; statement_error := fun _ => None; commit_error := None |}.

(** A server on which every statement against [driver_locations] fails. *)
Definition locations_locked : server :=
  {| connect_error := None;
     statement_error := fun s =>
       if table_eqb (from s) driver_locations then Some "lock timeout" else None;
     commit_error := None |}.

(** The same child rows under a [drivers] table keyed by [id] alone, with
    no [driver_id] column. *)
Definition db_by_id : database := fun t =>
  match t with
  | drivers =>
      {| columns := ["id"; "email"];
         rows := [[("id", "d1"); ("email", "ivan@example.org")];
                  [("id", "d2"); ("email", "petr@mail.ru")]] |}
  | _ => db0 t
  end.

End Cleanup.

(* ================================================================== *)
(** * utils/helpers.py: wait_for_service, wait_for_postgres;
      conftest.py: wait_for_services *)
(* ================================================================== *)

Module Prober.
Import Py.

(** Clock readings ([time.time()]), timeouts and intervals are exact
    numbers of milliseconds. *)
Definition seconds (n : Z) : Z := n * 1000.

Record response := { status_code : Z }.

(** The outside world of the prober: what the n-th [requests.get] of a URL
    does and how long it takes, and the same for the n-th
    [psycopg2.connect]. *)
Record environment := {
  requests_get : string -> nat -> result response * Z;
  pg_connect : nat -> result unit * Z
}.

Record world := {
  now : Z;                 (* the clock *)
  requests : nat;          (* GETs sent so far *)
  connects : nat;          (* database connections tried so far *)
  log : list log_entry
}.

Definition tick (d : Z) (w : world) : world :=
  {| now := now w + d; requests := requests w; connects := connects w; log := log w |}.

Definition emit (e : log_entry) (w : world) : world :=
  {| now := now w; requests := requests w; connects := connects w; log := log w ++ [e] |}.

Definition sent (w : world) : world :=
  {| now := now w; requests := S (requests w); connects := connects w; log := log w |}.

Definition connected (w : world) : world :=
  {| now := now w; requests := requests w; connects := S (connects w); log := log w |}.

(** [time.sleep(interval)]: a negative length raises [ValueError]. *)
Definition sleep (interval : Z) (w : world) : result unit * world :=
  if interval <? 0
  then (Raised (OtherException "sleep length must be non-negative"), w)
  else (Returned tt, tick interval w).

(** The [while] loop of [wait_for_service]; [start] is [start_time].  The
    loop has no bound of its own, so the embedding takes [fuel]: [None]
    means the fuel ran out before the loop was left. *)
Fixpoint poll (fuel : nat) (env : environment) (url : string)
         (timeout interval start : Z) (w : world) : option (result bool * world) :=
  match fuel with
  | O => None
  | S fuel' =>
      if now w - start <? timeout then
        let '(r, d) := requests_get env (url ++ "/health")%string (requests w) in
        let w1 := tick d (sent w) in
        match r with
        | Returned resp =>
            if status_code resp =? 200
            then Some (Returned true, emit (info "Service is available") w1)
            else match sleep interval w1 with
                 | (Returned tt, w2) => poll fuel' env url timeout interval start w2
                 | (Raised e, w2) => Some (Raised e, w2)
                 end
        | Raised (RequestException m) =>
            match sleep interval (emit (debug "Service not yet available") w1) with
            | (Returned tt, w2) => poll fuel' env url timeout interval start w2
            | (Raised e, w2) => Some (Raised e, w2)
            end
        | Raised e => Some (Raised e, w1)
        end
      else
        Some (Returned false,
              emit (error "Service did not become available within timeout") w)
  end.

Definition wait_for_service (fuel : nat) (env : environment) (url : string)
           (timeout interval : Z) (w : world) : option (result bool * world) :=
  poll fuel env url timeout interval (now w) w.

(** [wait_for_postgres]: the sleep of one second sits in the [except]
    branch; a successful connection is closed and ends the wait. *)
Fixpoint poll_postgres (fuel : nat) (env : environment) (timeout start : Z)
         (w : world) : option (result bool * world) :=
  match fuel with
  | O => None
  | S fuel' =>
      if now w - start <? timeout then
        let '(r, d) := pg_connect env (connects w) in
        let w1 := tick d (connected w) in
        match r with
        | Returned tt => Some (Returned true, emit (info "PostgreSQL is ready") w1)
        | Raised (OperationalError m) =>
            match sleep (seconds 1) (emit (debug "PostgreSQL not ready yet") w1) with
            | (Returned tt, w2) => poll_postgres fuel' env timeout start w2
            | (Raised e, w2) => Some (Raised e, w2)
            end
        | Raised e => Some (Raised e, w1)
        end
      else
        Some (Returned false,
              emit (error "PostgreSQL did not become ready within timeout") w)
  end.

Definition wait_for_postgres (fuel : nat) (env : environment) (timeout : Z)
           (w : world) : option (result bool * world) :=
  poll_postgres fuel env timeout (now w) w.


(** ** Reading a probe sequence *)

Definition outcome (env : environment) (url : string) (n : nat) : result response :=
  fst (requests_get env (url ++ "/health")%string n).

Definition latency (env : environment) (url : string) (n : nat) : Z :=
  snd (requests_get env (url ++ "/health")%string n).

(** The attempt answered with HTTP status 200. *)
Definition ready (r : result response) : bool :=
  match r with
  | Returned resp => status_code resp =? 200
  | Raised _ => false
  end.

(** The attempt counts as "not ready yet": any other status, or a
    [RequestException]. *)
Definition not_ready (r : result response) : bool :=
  match r with
  | Returned resp => negb (status_code resp =? 200)
  | Raised (RequestException _) => true
  | Raised _ => false
  end.

(** The clock when attempt [k] (counted from the call) is issued, all
    earlier attempts having been not ready: each of them took its latency
    and was followed by one sleep. *)
Fixpoint issue_time (env : environment) (url : string) (interval : Z)
         (w : world) (k : nat) : Z :=
  match k with
  | O => now w
  | S k' => issue_time env url interval w k'
            + latency env url (requests w + k') + interval
  end.

(** The world after one not-ready iteration: the request is counted, its
    latency passes, an exception is logged at debug level, and the loop
    sleeps for [interval]. *)
Definition step (env : environment) (url : string) (interval : Z) (w : world) : world :=
  let w1 := tick (latency env url (requests w)) (sent w) in
  tick interval
       match outcome env url (requests w) with
       | Raised _ => emit (debug "Service not yet available") w1
       | Returned _ => w1
       end.

Fixpoint advance (env : environment) (url : string) (interval : Z) (k : nat) (w : world)
  : world :=
  match k with
  | O => w
  | S k' => advance env url interval k' (step env url interval w)
  end.

(** ** Concrete services *)

(** Answers 200 to the first request, but only after five seconds. *)
Definition slow_start : environment :=
  {| requests_get := fun _ _ => (Returned {| status_code := 200 |}, 5000);
     pg_connect := fun _ => (Returned tt, 0) |}.


(** Refuses connections for the first three attempts, then answers 200;
    every request returns at once. *)
Definition up_after_three : environment :=
  {| requests_get := fun _ n =>
       if (n <? 3)%nat then (Raised (RequestException "Connection refused"), 0)
       else (Returned {| status_code := 200 |}, 0);
     pg_connect := fun _ => (Returned tt, 0) |}.

(** Never comes up: 503 on even attempts, a refused connection on odd ones;
    every request takes 100 ms. *)
Definition always_down : environment :=
  {| requests_get := fun _ n =>
       if Nat.even n then (Returned {| status_code := 503 |}, 100)
       else (Raised (RequestException "Connection refused"), 100);
     pg_connect := fun _ => (Returned tt, 0) |}.

Definition boot : world := {| now := 0; requests := 0; connects := 0; log := [] |}.

(** PostgreSQL refuses every connection at once; the HTTP service would
    answer 200. *)
Definition pg_down : environment :=
  {| requests_get := fun _ _ => (Returned {| status_code := 200 |}, 0);
     pg_connect := fun _ => (Raised (OperationalError "connection refused"), 0) |}.

(** The second probe fails inside the HTTP library with an exception that
    is not a [RequestException]. *)
Definition breaks_on_second : environment :=
  {| requests_get := fun _ n =>
       match n with
       | O => (Returned {| status_code := 503 |}, 20)
       | _ => (Raised (OtherException "UnicodeError"), 20)
       end;
     pg_connect := fun _ => (Returned tt, 0) |}.

End Prober.

(* ================================================================== *)
(** * utils/helpers.py: the fixture factories *)
(* ================================================================== *)

Module Fixtures.
Import Py.

(** ** Text of integers, and the phone pattern *)

Definition digit_char (d : Z) : ascii := ascii_of_nat (48 + Z.to_nat d).

(** Decimal digits of a non-negative integer, most significant first,
    pushed in front of [acc].  The number of binary digits bounds the
    number of decimal ones, so [digits_fuel n] steps are enough. *)
Fixpoint decimal (fuel : nat) (n : Z) (acc : string) : string :=
  match fuel with
  | O => acc
  | S fuel' =>
      let acc' := String (digit_char (n mod 10)) acc in
      if n <? 10 then acc' else decimal fuel' (n / 10) acc'
  end.

Definition digits_fuel (n : Z) : nat := S (Z.to_nat (Z.log2 n)).

(** [str(n)], as an f-string renders an [int]. *)
Definition str_int (n : Z) : string :=
  if n <? 0 then String "-" (decimal (digits_fuel (- n)) (- n) "")
  else decimal (digits_fuel n) n "".

Definition is_digit (c : ascii) : bool :=
  (48 <=? nat_of_ascii c)%nat && (nat_of_ascii c <=? 57)%nat.

(** [\d{n}$]: exactly [n] digits, then the end of the string; [$] also
    matches just before a final newline. *)
Fixpoint digits_then_end (n : nat) (s : string) : bool :=
  match n, s with
  | O, EmptyString => true
  | O, String c EmptyString => Ascii.eqb c "010"
  | S n', String c rest => is_digit c && digits_then_end n' rest
  | _, _ => false
  end.

(** [re.match(r'^\+7\d{10}$', phone)], the phone check of
    [assert_driver_data_valid]. *)
Definition phone_pattern (phone : string) : bool :=
  match phone with
  | String "+" (String "7" rest) => digits_then_end 10 rest
  | _ => false
  end.

(** ** The random source and the clock *)

Record date := { year : Z; month : Z; day : Z }.

(** The Faker instance and the clock: a stream of raw draws, the locale's
    text providers (each a function of one raw draw), and the successive
    readings of [int(time.time())]. *)
Record source := {
  raw : nat -> Z;
  clock : nat -> Z;
  email : Z -> string;
  first_name_male : Z -> string;
  last_name_male : Z -> string;
  middle_name_male : Z -> string;
  date_of_birth : Z -> date;       (* minimum_age=21, maximum_age=65 *)
  date_between : Z -> date         (* start_date='today', end_date='+10y' *)
}.

Record state := { drawn : nat; reads : nat }.

(** A computation that draws from the source and reads the clock. *)
Definition M (A : Type) : Type := state -> A * state.

Definition ret {A} (a : A) : M A := fun s => (a, s).

Definition bind {A B} (m : M A) (k : A -> M B) : M B :=
  fun s => let (a, s') := m s in k a s'.

Notation "x <- m ;; k" := (bind m (fun x => k))
  (at level 61, m at next level, right associativity).

Definition draw (src : source) : M Z :=
  fun s => (raw src (drawn s), {| drawn := S (drawn s); reads := reads s |}).

(** [int(time.time())] *)
Definition time_time (src : source) : M Z :=
  fun s => (clock src (reads s), {| drawn := drawn s; reads := S (reads s) |}).

(** [fake.random_int(min, max)]: uniform over [min..max], both included. *)
Definition random_int (src : source) (min max : Z) : M Z :=
  r <- draw src ;; ret (min + r mod (max - min + 1)).

(** [fake.random_element(xs)] *)
Definition random_element (src : source) (xs : list string) : M string :=
  r <- draw src ;;
  ret (nth (Z.to_nat (r mod Z.of_nat (List.length xs))) xs "").

(** [fake.boolean()]: true with a chance of 50 in 100. *)
Definition boolean (src : source) : M bool :=
  r <- random_int src 1 100 ;; ret (r <=? 50).

(** [fake.coordinate()]: a whole number of millionths of a degree in
    [-180, 180]; [fake.latitude()] is half a coordinate, [fake.longitude()]
    a whole one. *)
Definition coordinate (src : source) : M Q :=
  r <- random_int src (-180000000) 180000000 ;; ret (r # 1000000).

Definition fake_latitude (src : source) : M Q :=
  c <- coordinate src ;; ret (c / 2)%Q.

Definition fake_longitude (src : source) : M Q := coordinate src.

(** ** Numbers

    Python floats are embedded as exact rationals. *)

(** [x % 1.0]: the result has the sign of the divisor, so it is the
    fractional part counted from the floor. *)
Definition mod1 (x : Q) : Q := (x - inject_Z (Qfloor x))%Q.

(** Nearest integer, ties to the even one. *)
Definition round_half_even (x : Q) : Z :=
  let f := Qfloor x in
  match Qcompare (x - inject_Z f) (1 # 2) with
  | Lt => f
  | Gt => f + 1
  | Eq => if Z.even f then f else f + 1
  end.

(** [round(x, 6)] *)
Definition round6 (x : Q) : Q := (round_half_even (x * 1000000) # 1000000).

(** ** generate_test_driver_data *)

Record driver_data := {
  phone : string;
  driver_email : string;
  first_name : string;
  last_name : string;
  middle_name : option string;
  birth_date : string;
  passport_series : string;
  passport_number : string;
  license_number : string;
  license_expiry : string
}.

Definition pad (width : nat) (s : string) : string :=
  (String.concat "" (repeat "0" (width - String.length s)) ++ s)%string.

(** [d.strftime("%Y-%m-%dT%H:%M:%SZ")] on a date (midnight). *)
Definition strftime (d : date) : string :=
  (pad 4 (str_int (year d)) ++ "-" ++ pad 2 (str_int (month d)) ++ "-"
   ++ pad 2 (str_int (day d)) ++ "T00:00:00Z")%string.

Definition generate_test_driver_data (src : source) (phone_arg : option string)
  : M driver_data :=
  phone <- match phone_arg with
           | None => n <- random_int src 9000000000 9999999999 ;;
                     ret ("+7" ++ str_int n)%string
           | Some p => ret p
           end ;;
  series <- random_int src 1000 9999 ;;
  number <- random_int src 100000 999999 ;;
  region <- random_element src ["77"; "97"; "99"; "177"] ;;
  serial <- random_int src 100000 999999 ;;
  birth <- draw src ;;
  expiry <- draw src ;;
  mail <- draw src ;;
  first <- draw src ;;
  last <- draw src ;;
  with_middle <- boolean src ;;
  middle <- (if with_middle
             then m <- draw src ;; ret (Some (middle_name_male src m))
             else ret None) ;;
  ret {| phone := phone;
         driver_email := email src mail;
         first_name := first_name_male src first;
         last_name := last_name_male src last;
         middle_name := middle;
         birth_date := strftime (date_of_birth src birth);
         passport_series := str_int series;
         passport_number := str_int number;
         license_number := (region ++ str_int serial)%string;
         license_expiry := strftime (date_between src expiry) |}.

(** ** generate_test_location_data *)

Record location := {
  latitude : Q;
  longitude : Q;
  accuracy : Z;
  speed : Z;
  bearing : Z;
  timestamp : Z;
  altitude : option Q
}.

(** Keyword arguments: names bound to numbers. *)
Definition kwargs := list (string * Q).

Definition lookup (k : string) (kw : kwargs) : option Q :=
  match find (fun p => String.eqb (fst p) k) kw with
  | Some p => Some (snd p)
  | None => None
  end.

Definition generate_test_location_data (src : source)
           (latitude_arg longitude_arg : option Q) (kw : kwargs) : M location :=
  lat <- match latitude_arg with
         | None => l <- fake_latitude src ;;
                   ret ((557558 # 10000) + (mod1 l - (1 # 2)) * (1 # 2))%Q
         | Some l => ret l
         end ;;
  lon <- match longitude_arg with
         | None => l <- fake_longitude src ;;
                   ret ((376176 # 10000) + (mod1 l - (1 # 2)) * (1 # 2))%Q
         | Some l => ret l
         end ;;
  acc <- random_int src 1 10 ;;
  spd <- random_int src 0 80 ;;
  brg <- random_int src 0 359 ;;
  ts <- time_time src ;;
  ret {| latitude := round6 lat;
         longitude := round6 lon;
         accuracy := acc;
         speed := spd;
         bearing := brg;
         timestamp := ts;
         altitude := lookup "altitude" kw |}.

(** ** generate_batch_location_data *)

(** [location["timestamp"] = t] *)
Definition set_timestamp (t : Z) (l : location) : location :=
  {| latitude := latitude l; longitude := longitude l; accuracy := accuracy l;
     speed := speed l; bearing := bearing l; timestamp := t; altitude := altitude l |}.

(** The keyword arguments of the batch are passed on with [**kwargs]:
    [latitude] and [longitude] bind the parameters of that name, the others
    stay keyword arguments. *)
Definition call_with (src : source) (kw : kwargs) : M location :=
  generate_test_location_data src (lookup "latitude" kw) (lookup "longitude" kw) kw.

(** The [for i in range(count)] loop, from index [i] on, [n] rounds left. *)
Fixpoint batch_loop (src : source) (kw : kwargs) (base_time : Z) (i : Z) (n : nat)
  : M (list location) :=
  match n with
  | O => ret []
  | S n' =>
      loc <- call_with src kw ;;
      rest <- batch_loop src kw base_time (i + 1) n' ;;
      ret (set_timestamp (base_time + i * 10) loc :: rest)
  end.

Definition generate_batch_location_data (src : source) (count : Z) (kw : kwargs)
  : M (list location) :=
  now <- time_time src ;;
  batch_loop src kw (now - count * 10) 0 (Z.to_nat count).

(** ** A concrete source *)

Definition demo_source : source :=
  {| raw := fun n => Z.of_nat n * 7919 + 123456789;
     clock := fun n => 1700000000 + Z.of_nat n;
     email := fun _ => "ivan@example.org";
     first_name_male := fun _ => "Ivan";
     last_name_male := fun _ => "Petrov";
     middle_name_male := fun _ => "Sergeevich";
     date_of_birth := fun r => {| year := 1960 + r mod 40; month := 1 + r mod 12; day := 1 + r mod 28 |};
     date_between := fun r => {| year := 2027 + r mod 9; month := 1 + r mod 12; day := 1 + r mod 28 |} |}.

Definition fresh : state := {| drawn := 0; reads := 0 |}.

End Fixtures.

(* ================================================================== *)
(** * The library calls of the bus handler: bytes.decode and json.loads *)
(* ================================================================== *)

Module Json.
Import Py.

(** A [bytes] object and a [str] are both written as [string]: one
    character per octet; a [str] holds the UTF-8 form of its text. *)
Definition bytes := string.

(** ** bytes.decode(), strict UTF-8 *)

Definition octet (c : ascii) : Z := Z.of_nat (nat_of_ascii c).

Definition between (lo hi x : Z) : bool := (lo <=? x) && (x <=? hi).

Definition continuation (c : ascii) : bool := between 128 191 (octet c).

(** Well-formed UTF-8: shortest forms only, no surrogates, nothing above
    U+10FFFF. *)
Fixpoint utf8_valid (fuel : nat) (s : string) : bool :=
  match fuel with
  | O => false
  | S fuel' =>
      match s with
      | EmptyString => true
      | String a rest =>
          let x := octet a in
          if x <=? 127 then utf8_valid fuel' rest
          else if between 194 223 x then
            match rest with
            | String b rest' => continuation b && utf8_valid fuel' rest'
            | _ => false
            end
          else if between 224 239 x then
            match rest with
            | String b (String c rest') =>
                between (if x =? 224 then 160 else 128)
                        (if x =? 237 then 159 else 191) (octet b)
                && continuation c && utf8_valid fuel' rest'
            | _ => false
            end
          else if between 240 244 x then
            match rest with
            | String b (String c (String d rest')) =>
                between (if x =? 240 then 144 else 128)
                        (if x =? 244 then 143 else 191) (octet b)
                && continuation c && continuation d && utf8_valid fuel' rest'
            | _ => false
            end
          else false
      end
  end.

(** [data.decode()] *)
Definition decode (data : bytes) : result string :=
  if utf8_valid (S (String.length data)) data then Returned data
  else Raised UnicodeDecodeError.

(** ** JSON values *)

#[local] Unset Elimination Schemes.
Inductive json : Type :=
| JNull
| JBool (b : bool)
| JInt (n : Z)
| JFloat (literal : string)      (* a number with a fraction or an exponent, as written *)
| JStr (s : string)
| JList (items : list json)
| JDict (members : list (string * json)).
#[local] Set Elimination Schemes.

(** [d[k] = v]: a key already present keeps its place and takes the new
    value. *)
Fixpoint dict_set (k : string) (v : json) (members : list (string * json))
  : list (string * json) :=
  match members with
  | [] => [(k, v)]
  | (k', v') :: rest =>
      if String.eqb k k' then (k, v) :: rest else (k', v') :: dict_set k v rest
  end.

Fixpoint dict_get (k : string) (members : list (string * json)) : option json :=
  match members with
  | [] => None
  | (k', v) :: rest => if String.eqb k k' then Some v else dict_get k rest
  end.

(** ** json.loads *)

Definition is_ws (c : ascii) : bool :=
  match nat_of_ascii c with
  | 32%nat | 9%nat | 10%nat | 13%nat => true
  | _ => false
  end.

Fixpoint skip_ws (s : string) : string :=
  match s with
  | String c rest => if is_ws c then skip_ws rest else s
  | EmptyString => s
  end.

Fixpoint strip_prefix (p s : string) : option string :=
  match p, s with
  | EmptyString, _ => Some s
  | String a p', String b s' => if Ascii.eqb a b then strip_prefix p' s' else None
  | _, _ => None
  end.

Definition is_digit (c : ascii) : bool := between 48 57 (octet c).

(** The longest prefix of digits, and what follows it. *)
Fixpoint span_digits (s : string) : string * string :=
  match s with
  | String c rest =>
      if is_digit c then let (ds, r) := span_digits rest in (String c ds, r)
      else (EmptyString, s)
  | EmptyString => (EmptyString, EmptyString)
  end.

Fixpoint int_of_digits (acc : Z) (ds : string) : Z :=
  match ds with
  | String c rest => int_of_digits (acc * 10 + (octet c - 48)) rest
  | EmptyString => acc
  end.

(** A number at the start of [s]: an optional minus sign; a zero, or a
    non-zero digit followed by digits; then optionally a point with at
    least one digit, and optionally an exponent with at least one digit. *)
Definition scan_number (s : string) : option (json * string) :=
  let (sign, s1) := match s with
                    | String "-" r => ("-", r)
                    | _ => ("", s)
                    end in
  let (ds, s2) := span_digits s1 in
  let (int_part, s3) :=
    match ds with
    | String "0" more => ("0", (more ++ s2)%string)
    | _ => (ds, s2)
    end in
  match int_part with
  | EmptyString => None
  | _ =>
      let (frac, s4) :=
        match s3 with
        | String "." r =>
            let (fd, r') := span_digits r in
            match fd with
            | EmptyString => ("", s3)
            | _ => (String "." fd, r')
            end
        | _ => ("", s3)
        end in
      let (expo, s5) :=
        match s4 with
        | String e r =>
            if Ascii.eqb e "e" || Ascii.eqb e "E" then
              let (sg, r1) := match r with
                              | String "+" r1 => ("+", r1)
                              | String "-" r1 => ("-", r1)
                              | _ => ("", r)
                              end in
              let (ed, r2) := span_digits r1 in
              match ed with
              | EmptyString => ("", s4)
              | _ => ((String e sg ++ ed)%string, r2)
              end
            else ("", s4)
        | _ => ("", s4)
        end in
      match frac, expo with
      | EmptyString, EmptyString =>
          let n := int_of_digits 0 int_part in
          Some (JInt (match sign with EmptyString => n | _ => - n end), s5)
      | _, _ => Some (JFloat (sign ++ int_part ++ frac ++ expo)%string, s5)
      end
  end.

Definition hex_value (c : ascii) : option Z :=
  let x := octet c in
  if between 48 57 x then Some (x - 48)
  else if between 97 102 x then Some (x - 87)
  else if between 65 70 x then Some (x - 55)
  else None.

Definition chr (x : Z) : ascii := ascii_of_nat (Z.to_nat x).

(** The UTF-8 form of a code point below U+10000 (an escaped surrogate is
    kept as the three-octet form of its own code unit). *)
Definition encode_bmp (cp : Z) : string :=
  if cp <? 128 then String (chr cp) ""
  else if cp <? 2048 then
    String (chr (192 + cp / 64)) (String (chr (128 + cp mod 64)) "")
  else
    String (chr (224 + cp / 4096))
      (String (chr (128 + (cp / 64) mod 64)) (String (chr (128 + cp mod 64)) "")).

(** The body of a string, after its opening quote: the text, and what
    follows the closing quote. *)
Fixpoint scan_string (s : string) : option (string * string) :=
  match s with
  | EmptyString => None
  | String c rest =>
      if Ascii.eqb c "034" then Some (EmptyString, rest)
      else if Ascii.eqb c "\" then
        match rest with
        | String e rest' =>
            let plain (x : ascii) :=
              match scan_string rest' with
              | Some (t, r) => Some (String x t, r)
              | None => None
              end in
            if Ascii.eqb e "034" then plain "034"%char
            else if Ascii.eqb e "\" then plain "\"%char
            else if Ascii.eqb e "/" then plain "/"%char
            else if Ascii.eqb e "b" then plain "008"%char
            else if Ascii.eqb e "f" then plain "012"%char
            else if Ascii.eqb e "n" then plain "010"%char
            else if Ascii.eqb e "r" then plain "013"%char
            else if Ascii.eqb e "t" then plain "009"%char
            else if Ascii.eqb e "u" then
              match rest' with
              | String h1 (String h2 (String h3 (String h4 rest''))) =>
                  match hex_value h1, hex_value h2, hex_value h3, hex_value h4 with
                  | Some a, Some b, Some c', Some d =>
                      match scan_string rest'' with
                      | Some (t, r) =>
                          Some ((encode_bmp (((a * 16 + b) * 16 + c') * 16 + d) ++ t)%string, r)
                      | None => None
                      end
                  | _, _, _, _ => None
                  end
              | _ => None
              end
            else None
        | EmptyString => None
        end
      else if octet c <? 32 then None
      else match scan_string rest with
           | Some (t, r) => Some (String c t, r)
           | None => None
           end
  end.

Definition literal (word : string) (v : json) (s : string) : option (json * string) :=
  match strip_prefix word s with
  | Some rest => Some (v, rest)
  | None => None
  end.

(** One value at the start of [s] (no leading white space), and the rest
    of the input; [parse_items] and [parse_members] read what follows an
    opening bracket or a comma. *)
Fixpoint parse_value (fuel : nat) (s : string) : option (json * string) :=
  match fuel with
  | O => None
  | S fuel' =>
      match s with
      | EmptyString => None
      | String c rest =>
          if Ascii.eqb c "{" then
            match skip_ws rest with
            | String "}" r => Some (JDict [], r)
            | r => parse_members fuel' r []
            end
          else if Ascii.eqb c "[" then
            match skip_ws rest with
            | String "]" r => Some (JList [], r)
            | r => parse_items fuel' r []
            end
          else if Ascii.eqb c "034" then
            match scan_string rest with
            | Some (t, r) => Some (JStr t, r)
            | None => None
            end
          else if Ascii.eqb c "t" then literal "true" (JBool true) s
          else if Ascii.eqb c "f" then literal "false" (JBool false) s
          else if Ascii.eqb c "n" then literal "null" JNull s
          else if Ascii.eqb c "N" then literal "NaN" (JFloat "NaN") s
          else if Ascii.eqb c "I" then literal "Infinity" (JFloat "Infinity") s
          else if Ascii.eqb c "-" then
            match literal "-Infinity" (JFloat "-Infinity") s with
            | Some r => Some r
            | None => scan_number s
            end
          else scan_number s
      end
  end

with parse_items (fuel : nat) (s : string) (acc : list json) : option (json * string) :=
  match fuel with
  | O => None
  | S fuel' =>
      match parse_value fuel' s with
      | Some (v, rest) =>
          match skip_ws rest with
          | String "," r => parse_items fuel' (skip_ws r) (acc ++ [v])
          | String "]" r => Some (JList (acc ++ [v]), r)
          | _ => None
          end
      | None => None
      end
  end

with parse_members (fuel : nat) (s : string) (acc : list (string * json))
  : option (json * string) :=
  match fuel with
  | O => None
  | S fuel' =>
      match s with
      | String "034" rest =>
          match scan_string rest with
          | Some (k, rest1) =>
              match skip_ws rest1 with
              | String ":" rest2 =>
                  match parse_value fuel' (skip_ws rest2) with
                  | Some (v, rest3) =>
                      match skip_ws rest3 with
                      | String "," r => parse_members fuel' (skip_ws r) (dict_set k v acc)
                      | String "}" r => Some (JDict (dict_set k v acc), r)
                      | _ => None
                      end
                  | None => None
                  end
              | _ => None
              end
          | None => None
          end
      | _ => None
      end
  end.

(** [json.loads(text)]: one value, white space around it allowed, nothing
    else.  Every step of the parser consumes input, so twice the length of
    the text is fuel enough. *)
Definition loads (text : string) : result json :=
  match parse_value (2 * String.length text + 2) (skip_ws text) with
  | Some (v, rest) =>
      match skip_ws rest with
      | EmptyString => Returned v
      | _ => Raised JSONDecodeError
      end
  | None => Raised JSONDecodeError
  end.

(** ** json.dumps, used to write the payloads of the examples *)

Definition quote : string := String "034" EmptyString.

Fixpoint escape (s : string) : string :=
  match s with
  | EmptyString => EmptyString
  | String c rest =>
      ((if Ascii.eqb c "034" then String "\" quote
        else if Ascii.eqb c "\" then "\\"
        else if Ascii.eqb c "010" then "\n"
        else String c "") ++ escape rest)%string
  end.

Fixpoint dumps (v : json) : string :=
  match v with
  | JNull => "null"
  | JBool true => "true"
  | JBool false => "false"
  | JInt n => Fixtures.str_int n
  | JFloat l => l
  | JStr s => (quote ++ escape s ++ quote)%string
  | JList items =>
      ("[" ++ String.concat ", " (map dumps items) ++ "]")%string
  | JDict members =>
      ("{" ++ String.concat ", "
                (map (fun kv => (quote ++ escape (fst kv) ++ quote ++ ": " ++ dumps (snd kv))%string)
                     members)
           ++ "}")%string
  end.

(** ** Operations on decoded values *)

(** The value of a decoded number ([True] and [False] count as 1 and 0);
    [NaN] and the infinities have none. *)
Definition literal_value (l : string) : option Q :=
  let (neg, s1) := match l with
                   | String "-" r => (true, r)
                   | _ => (false, l)
                   end in
  let (ip, s2) := span_digits s1 in
  let (fp, s3) := match s2 with
                  | String "." r => span_digits r
                  | _ => (EmptyString, s2)
                  end in
  let expo := match s3 with
              | String _ (String "-" r) => Some (- int_of_digits 0 r)
              | String _ (String "+" r) => Some (int_of_digits 0 r)
              | String _ r => Some (int_of_digits 0 r)
              | EmptyString => Some 0
              end in
  match ip, expo with
  | EmptyString, _ | _, None => None
  | _, Some e =>
      let m := int_of_digits 0 (ip ++ fp)%string in
      let m := if neg then - m else m in
      let k := e - Z.of_nat (String.length fp) in
      Some (if k <? 0 then (m # Z.to_pos (10 ^ (- k))) else inject_Z (m * 10 ^ k))
  end.

Definition number_value (v : json) : option Q :=
  match v with
  | JBool b => Some (if b then 1 else 0)%Q
  | JInt n => Some (inject_Z n)
  | JFloat l => literal_value l
  | _ => None
  end.

(** [a == b]: numbers by value, strings and [None] by content, lists and
    dicts member by member (dicts in the order of their keys). *)
Fixpoint eqb (a b : json) : bool :=
  match number_value a, number_value b with
  | Some x, Some y => Qeq_bool x y
  | _, _ =>
      match a, b with
      | JNull, JNull => true
      | JFloat x, JFloat y => String.eqb x y && negb (String.eqb x "NaN")
      | JStr x, JStr y => String.eqb x y
      | JList xs, JList ys =>
          (fix all2 (xs ys : list json) : bool :=
             match xs, ys with
             | [], [] => true
             | x :: xs', y :: ys' => eqb x y && all2 xs' ys'
             | _, _ => false
             end) xs ys
      | JDict xs, JDict ys =>
          (fix all2 (xs ys : list (string * json)) : bool :=
             match xs, ys with
             | [], [] => true
             | (k, x) :: xs', (k', y) :: ys' => String.eqb k k' && eqb x y && all2 xs' ys'
             | _, _ => false
             end) xs ys
      | _, _ => false
      end
  end.

(** [e.get(key)]: only a dict has [get]; a missing key gives [None]. *)
Definition get (e : json) (key : string) : result (option json) :=
  match e with
  | JDict members => Returned (dict_get key members)
  | _ => Raised AttributeError
  end.

(** [e[key]] *)
Definition item (e : json) (key : string) : result json :=
  match e with
  | JDict members =>
      match dict_get key members with
      | Some v => Returned v
      | None => Raised (KeyError key)
      end
  | _ => Raised (OtherException "TypeError")
  end.

(** [key in e] for a dict. *)
Definition has_key (e : json) (key : string) : bool :=
  match e with
  | JDict members => match dict_get key members with Some _ => true | None => false end
  | _ => false
  end.

End Json.

(* ================================================================== *)
(** * tests/test_nats_events.py: the event handler and the
      event-correlation tests *)
(* ================================================================== *)

Module Bus.
Import Py Json.

Record message := { subject : string; data : bytes }.

(** ** The callback

    [event_handler] closes over the list [received_events]; the list is
    passed in and handed back.  The [try] body decodes and parses; only
    [json.JSONDecodeError] is caught. *)
Definition event_handler (msg : message) (received_events : list json)
  : result unit * list json :=
  let parsed := match decode (data msg) with
                | Returned text => loads text
                | Raised e => Raised e
                end in
  match parsed with
  | Returned event_data => (Returned tt, received_events ++ [event_data])
  | Raised JSONDecodeError => (Returned tt, received_events)
  | Raised e => (Raised e, received_events)
  end.

(** ** The client and the service, as the tests see them *)

Inductive op :=
| Subscribe (subject : string)
| Flush
| Http (method path : string)
| Sleep (ms : Z).

Record http_response := { status_code : Z; body : json }.

(** The dict passed as [json=...] to an HTTP call. *)
Inductive payload :=
| driver_payload (driver_data : Fixtures.driver_data)
| location_payload (location_data : Fixtures.location)
| status_payload (status : string).

(** What the outside world does: the messages that reach the client
    during its n-th suspension ([await]), and the answer of the service to
    the n-th HTTP call. *)
Record environment := {
  arrivals : nat -> list message;
  http : nat -> string -> string -> payload -> http_response
}.

Record world := {
  subscriptions : list string;    (* subjects with the callback registered *)
  received_events : list json;
  callback_errors : list exn;     (* exceptions raised inside the callback *)
  awaits : nat;                   (* suspensions so far *)
  calls : nat;                    (* HTTP calls so far *)
  trace : list op;                (* the operations, in program order *)
  held_at_action : option nat;    (* events already held when the first HTTP call was made *)
  test_drivers : list json        (* the list of the [test_drivers] fixture *)
}.

(** The client's dispatch: a message on a subscribed subject is passed to
    the callback; an exception of the callback goes to the client's error
    handler and the subscription stays. *)
Definition dispatch (subs : list string) (st : list json * list exn) (msg : message)
  : list json * list exn :=
  if existsb (String.eqb (subject msg)) subs then
    match event_handler msg (fst st) with
    | (Returned tt, events) => (events, snd st)
    | (Raised e, events) => (events, snd st ++ [e])
    end
  else st.

(** A suspension of the test: the event loop runs the callbacks for what
    has arrived. *)
Definition suspend (env : environment) (o : op) (w : world) : world :=
  let st := fold_left (dispatch (subscriptions w)) (arrivals env (awaits w))
                      (received_events w, callback_errors w) in
  {| subscriptions := subscriptions w;
     received_events := fst st;
     callback_errors := snd st;
     awaits := S (awaits w);
     calls := calls w;
     trace := trace w ++ [o];
     held_at_action := held_at_action w;
     test_drivers := test_drivers w |}.

(** A test step: a world transformer that may raise. *)
Definition T (A : Type) : Type := world -> result A * world.

Definition ret {A} (a : A) : T A := fun w => (Returned a, w).

Definition raise {A} (e : exn) : T A := fun w => (Raised e, w).

Definition bind {A B} (m : T A) (k : A -> T B) : T B :=
  fun w => match m w with
           | (Returned a, w') => k a w'
           | (Raised e, w') => (Raised e, w')
           end.

Notation "x <- m ;; k" := (bind m (fun x => k))
  (at level 61, m at next level, right associativity).
Notation "m ;;; k" := (bind m (fun _ => k))
  (at level 61, right associativity).

Definition lift {A} (r : result A) : T A := fun w => (r, w).

(** [assert c] *)
Definition assert (c : bool) : T unit :=
  if c then ret tt else raise (AssertionError "").

(** [await nats_client.subscribe(subject, cb=event_handler)] *)
Definition subscribe (env : environment) (subj : string) : T unit :=
  fun w =>
    (Returned tt,
     suspend env (Subscribe subj)
       {| subscriptions := subscriptions w ++ [subj];
          received_events := received_events w;
          callback_errors := callback_errors w;
          awaits := awaits w; calls := calls w; trace := trace w;
          held_at_action := held_at_action w;
          test_drivers := test_drivers w |}).

(** [await nats_client.flush()] *)
Definition flush (env : environment) : T unit :=
  fun w => (Returned tt, suspend env Flush w).

(** [await asyncio.sleep(seconds)] *)
Definition sleep (env : environment) (ms : Z) : T unit :=
  fun w => (Returned tt, suspend env (Sleep ms) w).

(** A call through [requests]: it blocks the thread, so no callback runs
    while it is under way. *)
Definition request (env : environment) (method path : string) (sent : payload)
  : T http_response :=
  fun w =>
    (Returned (http env (calls w) method path sent),
     {| subscriptions := subscriptions w;
        received_events := received_events w;
        callback_errors := callback_errors w;
        awaits := awaits w;
        calls := S (calls w);
        trace := trace w ++ [Http method path];
        held_at_action := match held_at_action w with
                          | Some n => Some n
                          | None => Some (List.length (received_events w))
                          end;
        test_drivers := test_drivers w |}).

(** [test_drivers.append(driver_id)] *)
Definition append_test_driver (driver_id : json) : T unit :=
  fun w =>
    (Returned tt,
     {| subscriptions := subscriptions w;
        received_events := received_events w;
        callback_errors := callback_errors w;
        awaits := awaits w; calls := calls w; trace := trace w;
        held_at_action := held_at_action w;
        test_drivers := test_drivers w ++ [driver_id] |}).

Definition received : T (list json) := fun w => (Returned (received_events w), w).

(** [[e for e in events if e.get('event_type') == event_type]] *)
Fixpoint events_of_type (event_type : string) (events : list json)
  : result (list json) :=
  match events with
  | [] => Returned []
  | e :: rest =>
      match get e "event_type" with
      | Raised x => Raised x
      | Returned v =>
          match events_of_type event_type rest with
          | Raised x => Raised x
          | Returned l =>
              Returned (match v with
                        | Some t => if Json.eqb t (JStr event_type) then e :: l else l
                        | None => l
                        end)
          end
      end
  end.

(** [assert a[k] == b] *)
Definition assert_item (e : json) (key : string) (expected : json) : T unit :=
  v <- lift (item e key) ;; assert (Json.eqb v expected).

(** ** test_driver_registered_event

    [driver_data] is the payload [generate_test_driver_data()] produced. *)
Definition test_driver_registered_event (env : environment)
           (driver_data : Fixtures.driver_data) : T unit :=
  subscribe env "driver.registered" ;;;
  flush env ;;;
  response <- request env "POST" "/api/v1/drivers" (driver_payload driver_data) ;;
  assert (status_code response =? 201) ;;;
  let created_driver := body response in
  id <- lift (item created_driver "id") ;;
  append_test_driver id ;;;
  sleep env 1000 ;;;
  events <- received ;;
  driver_events <- lift (events_of_type "driver_registered" events) ;;
  match driver_events with
  | [] => ret tt
  | event :: _ =>
      assert_item event "driver_id" id ;;;
      assert_item event "phone" (JStr (Fixtures.phone driver_data)) ;;;
      assert_item event "email" (JStr (Fixtures.driver_email driver_data)) ;;;
      assert_item event "name"
        (JStr (Fixtures.first_name driver_data ++ " "
               ++ Fixtures.last_name driver_data)%string) ;;;
      assert_item event "license_number" (JStr (Fixtures.license_number driver_data)) ;;;
      assert (has_key event "timestamp")
  end.

(** ** test_driver_status_changed_event *)

(** The path [/api/v1/drivers/{id}...] of an f-string over
    [created_driver['id']]. *)
Definition driver_path (created_driver : json) (suffix : string) : T string :=
  id <- lift (item created_driver "id") ;;
  ret ("/api/v1/drivers/"
       ++ match id with JStr i => i | other => dumps other end ++ suffix)%string.

Definition test_driver_status_changed_event (env : environment) (created_driver : json)
  : T unit :=
  subscribe env "driver.status.changed" ;;;
  flush env ;;;
  path <- driver_path created_driver "/status" ;;
  response <- request env "PATCH" path (status_payload "pending_verification") ;;
  assert (status_code response =? 200) ;;;
  sleep env 1000 ;;;
  events <- received ;;
  status_events <- lift (events_of_type "driver_status_changed" events) ;;
  match status_events with
  | [] => ret tt
  | event :: _ =>
      id <- lift (item created_driver "id") ;;
      assert_item event "driver_id" id ;;;
      assert_item event "old_status" (JStr "registered") ;;;
      assert_item event "new_status" (JStr "pending_verification") ;;;
      assert (has_key event "timestamp") ;;;
      assert (has_key event "changed_by")
  end.

(** ** test_driver_location_updated_event *)

Definition number (q : Q) : json -> bool :=
  fun v => match number_value v with Some x => Qeq_bool x q | None => false end.

(** [assert a[k] == x] for a float or an int [x]. *)
Definition assert_number (e : json) (key : string) (x : Q) : T unit :=
  v <- lift (item e key) ;; assert (number x v).

Definition test_driver_location_updated_event (env : environment) (created_driver : json)
           (location_data : Fixtures.location) : T unit :=
  subscribe env "driver.location.updated" ;;;
  flush env ;;;
  path <- driver_path created_driver "/locations" ;;
  response <- request env "POST" path (location_payload location_data) ;;
  assert (status_code response =? 200) ;;;
  sleep env 1000 ;;;
  events <- received ;;
  location_events <- lift (events_of_type "driver_location_updated" events) ;;
  match location_events with
  | [] => ret tt
  | event :: _ =>
      id <- lift (item created_driver "id") ;;
      assert_item event "driver_id" id ;;;
      assert (has_key event "location") ;;;
      loc <- lift (item event "location") ;;
      assert_number loc "latitude" (Fixtures.latitude location_data) ;;;
      loc <- lift (item event "location") ;;
      assert_number loc "longitude" (Fixtures.longitude location_data) ;;;
      assert_number event "speed_kmh" (inject_Z (Fixtures.speed location_data)) ;;;
      assert_number event "bearing_degrees" (inject_Z (Fixtures.bearing location_data)) ;;;
      assert_number event "accuracy_meters" (inject_Z (Fixtures.accuracy location_data)) ;;;
      assert (has_key event "timestamp")
  end.

(** ** test_nats_event_ordering *)

(** One round of the loop over the three status changes: the PATCH, the
    location POST, and a sleep of half a second. *)
Definition ordering_round (env : environment) (created_driver : json)
           (status : string) (location_data : Fixtures.location) : T unit :=
  path <- driver_path created_driver "/status" ;;
  request env "PATCH" path (status_payload status) ;;;
  path <- driver_path created_driver "/locations" ;;
  request env "POST" path (location_payload location_data) ;;;
  sleep env 500.

Definition test_nats_event_ordering (env : environment) (created_driver : json)
           (l0 l1 l2 : Fixtures.location) : T unit :=
  subscribe env "driver.status.changed" ;;;
  subscribe env "driver.location.updated" ;;;
  flush env ;;;
  ordering_round env created_driver "available" l0 ;;;
  ordering_round env created_driver "on_shift" l1 ;;;
  ordering_round env created_driver "busy" l2 ;;;
  sleep env 2000 ;;;
  events <- received ;;
  status_events_received <- lift (events_of_type "driver_status_changed" events) ;;
  location_events_received <- lift (events_of_type "driver_location_updated" events) ;;
  assert ((1 <=? List.length status_events_received)%nat
          || (1 <=? List.length location_events_received)%nat).

(** ** Reading a run *)

Definition start : world :=
  {| subscriptions := []; received_events := []; callback_errors := [];
     awaits := 0; calls := 0; trace := []; held_at_action := None;
     test_drivers := [] |}.

(** Every HTTP call of the trace is made when a subscription exists and
    no subscription is waiting for its flush.  [any]: a subscription was
    made; [pending]: one was made since the last flush. *)
Fixpoint sequenced_from (any pending : bool) (ops : list op) : bool :=
  match ops with
  | [] => true
  | Subscribe _ :: rest => sequenced_from true true rest
  | Flush :: rest => sequenced_from any false rest
  | Http _ _ :: rest => any && negb pending && sequenced_from any pending rest
  | Sleep _ :: rest => sequenced_from any pending rest
  end.

Definition sequenced (ops : list op) : bool := sequenced_from false false ops.

(** Index, among the collected events, of the first one of the given
    type: the event the test compares with its correlation key. *)
Fixpoint first_of_type (event_type : string) (events : list json) : option nat :=
  match events with
  | [] => None
  | e :: rest =>
      match get e "event_type" with
      | Returned (Some t) =>
          if Json.eqb t (JStr event_type) then Some 0%nat
          else option_map S (first_of_type event_type rest)
      | _ => option_map S (first_of_type event_type rest)
      end
  end.

(** ** The two halves of test_driver_registered_event *)

(** The world in which the collected events are filtered: after the
    subscription, the flush, the POST, the tracking of the id and the
    sleep. *)
Definition collecting (env : environment) (d : Fixtures.driver_data) (id : json) : world :=
  snd ((subscribe env "driver.registered" ;;;
        flush env ;;;
        request env "POST" "/api/v1/drivers" (driver_payload d) ;;;
        append_test_driver id ;;;
        sleep env 1000) start).

(** The comparison of the first collected event of the type with the
    correlation key [id] and the generated payload. *)
Definition compare_registered (d : Fixtures.driver_data) (id : json)
           (events : list json) : T unit :=
  driver_events <- lift (events_of_type "driver_registered" events) ;;
  match driver_events with
  | [] => ret tt
  | event :: _ =>
      assert_item event "driver_id" id ;;;
      assert_item event "phone" (JStr (Fixtures.phone d)) ;;;
      assert_item event "email" (JStr (Fixtures.driver_email d)) ;;;
      assert_item event "name"
        (JStr (Fixtures.first_name d ++ " " ++ Fixtures.last_name d)%string) ;;;
      assert_item event "license_number" (JStr (Fixtures.license_number d)) ;;;
      assert (has_key event "timestamp")
  end.

(** ** A concrete run with foreign traffic *)

Definition registered (driver_id phone : string) : json :=
  JDict [ ("event_type", JStr "driver_registered");
          ("driver_id", JStr driver_id);
          ("phone", JStr phone);
          ("email", JStr "ivan@example.org");
          ("name", JStr "Ivan Petrov");
          ("license_number", JStr "99288465");
          ("timestamp", JInt 1700000000) ].

Definition publish (subj : string) (v : json) : message :=
  {| subject := subj; data := dumps v |}.

Definition ivan : Fixtures.driver_data :=
  fst (Fixtures.generate_test_driver_data Fixtures.demo_source None Fixtures.fresh).

(** The service creates the driver as "d-new" and publishes its event,
    which arrives during the sleep. *)
Definition service_ok : nat -> string -> string -> payload -> http_response :=
  fun _ _ _ _ =>
    {| status_code := 201; body := JDict [("id", JStr "d-new")] |}.

Definition quiet_bus : environment :=
  {| arrivals := fun n =>
       match n with
       | 2%nat => [publish "driver.registered" (registered "d-new" "+79123456789")]
       | _ => []
       end;
     http := service_ok |}.

(** The same, but another test unit registers a driver of its own while
    this test is waiting for its flush. *)
Definition busy_bus : environment :=
  {| arrivals := fun n =>
       match n with
       | 1%nat => [publish "driver.registered" (registered "d-other" "+79000000000")]
       | 2%nat => [publish "driver.registered" (registered "d-new" "+79123456789")]
       | _ => []
       end;
     http := service_ok |}.

(** ** Reading the collected events *)

Definition is_dict (v : json) : bool :=
  match v with JDict _ => true | _ => false end.

(** The condition of the comprehensions: [e.get('event_type') == event_type]. *)
Definition has_type (event_type : string) (e : json) : bool :=
  match get e "event_type" with
  | Returned (Some t) => Json.eqb t (JStr event_type)
  | _ => false
  end.

(** What the callback adds to the list for one message that arrives while
    the subjects [subs] are subscribed. *)
Definition collected (subs : list string) (msg : message) : list json :=
  if existsb (String.eqb (subject msg)) subs then
    match decode (data msg) with
    | Returned text => match loads text with Returned v => [v] | Raised _ => [] end
    | Raised _ => []
    end
  else [].

(** A bus on which nothing arrives, in front of the service [service]. *)
Definition silent_bus (service : nat -> string -> string -> payload -> http_response)
  : environment :=
  {| arrivals := fun _ => []; http := service |}.

Definition ivan_location : Fixtures.location :=
  fst (Fixtures.generate_test_location_data Fixtures.demo_source None None []
         Fixtures.fresh).

End Bus.

(* ================================================================== *)
(** * tests/test_websocket.py: several socket sessions at once *)
(* ================================================================== *)

Module Sockets.
Import Py.

(** The protocol state of a connection object: [conn.open] holds in
    [OPEN], [conn.closed] in [CLOSED]. *)
Inductive state := OPEN | CLOSING | CLOSED.

Record connection := {
  target : string;
  st : state;
  close_calls : nat;            (* calls of [conn.close()] so far *)
  outbox : list string          (* frames passed to [conn.send] *)
}.

Definition is_open (c : connection) : bool :=
  match st c with OPEN => true | _ => false end.

Definition is_closed (c : connection) : bool :=
  match st c with CLOSED => true | _ => false end.

(** Connection objects live in a store and are named by handles, so the
    lists [connections] and [successful_connections] share them. *)
Definition store := nat -> connection.

Definition blank : store :=
  fun _ => {| target := ""; st := CLOSED; close_calls := 0; outbox := [] |}.

Definition upd (h : nat) (c : connection) (s : store) : store :=
  fun j => if (j =? h)%nat then c else s j.

(** The socket server and the network: the outcome of the n-th connection
    attempt, of a send or a close on a connection, and whether the peer
    ends a connection while the test sleeps. *)
Record server := {
  connect_error : nat -> string -> option exn;
  send_error : nat -> option exn;
  peer_closes : nat -> bool;
  close_error : nat -> option exn
}.

Definition opened (url : string) : connection :=
  {| target := url; st := OPEN; close_calls := 0; outbox := [] |}.

(** [await asyncio.gather] over the connect tasks, with
    [return_exceptions=True]: every
    task runs to its own end, and an exception is the task's entry in the
    list of results.  Attempt [n] yields the handle [n] when it succeeds. *)
Fixpoint gather (srv : server) (n : nat) (urls : list string) (s : store)
  : list (result nat) * store :=
  match urls with
  | [] => ([], s)
  | url :: rest =>
      match connect_error srv n url with
      | None =>
          let (rs, s') := gather srv (S n) rest (upd n (opened url) s) in
          (Returned n :: rs, s')
      | Some e =>
          let (rs, s') := gather srv (S n) rest s in
          (Raised e :: rs, s')
      end
  end.

(** [[conn for conn in connections if hasattr(conn, 'open') and conn.open]]:
    an exception object has no attribute [open]. *)
Fixpoint successful (s : store) (connections : list (result nat)) : list nat :=
  match connections with
  | [] => []
  | Returned h :: rest =>
      if is_open (s h) then h :: successful s rest else successful s rest
  | Raised _ :: rest => successful s rest
  end.

(** [json.dumps({"type": "multi_test", "connection_id": i})] *)
Definition test_message (i : nat) : string :=
  Json.dumps (Json.JDict [("type", Json.JStr "multi_test");
                          ("connection_id", Json.JInt (Z.of_nat i))]).

(** [await conn.send(text)] *)
Definition send (srv : server) (h : nat) (text : string) (s : store)
  : result unit * store :=
  match send_error srv h with
  | Some e => (Raised e, s)
  | None =>
      (Returned tt,
       upd h {| target := target (s h); st := st (s h);
                close_calls := close_calls (s h);
                outbox := outbox (s h) ++ [text] |} s)
  end.

(** [for i, conn in enumerate(successful_connections): await conn.send(...)] *)
Fixpoint send_each (srv : server) (i : nat) (conns : list nat) (s : store)
  : result unit * store :=
  match conns with
  | [] => (Returned tt, s)
  | h :: rest =>
      match send srv h (test_message i) s with
      | (Returned tt, s') => send_each srv (S i) rest s'
      | (Raised e, s') => (Raised e, s')
      end
  end.

(** While the test sleeps, the peer may end connections. *)
Definition during_sleep (srv : server) (s : store) : store :=
  fun h =>
    if is_open (s h) && peer_closes srv h
    then {| target := target (s h); st := CLOSED;
            close_calls := close_calls (s h); outbox := outbox (s h) |}
    else s h.

(** [for conn in successful_connections: assert conn.open] *)
Fixpoint assert_each_open (conns : list nat) (s : store) : result unit :=
  match conns with
  | [] => Returned tt
  | h :: rest =>
      if is_open (s h) then assert_each_open rest s
      else Raised (AssertionError "")
  end.

(** [await conn.close()] *)
Definition close (srv : server) (h : nat) (s : store) : result unit * store :=
  match close_error srv h with
  | Some e =>
      (Raised e,
       upd h {| target := target (s h); st := st (s h);
                close_calls := S (close_calls (s h)); outbox := outbox (s h) |} s)
  | None =>
      (Returned tt,
       upd h {| target := target (s h); st := CLOSED;
                close_calls := S (close_calls (s h)); outbox := outbox (s h) |} s)
  end.

(** The [finally] block of the concurrent test: every entry that is a
    connection and is open is closed; an exception of [close] is passed
    over. *)
Fixpoint close_open (srv : server) (connections : list (result nat)) (s : store)
  : store :=
  match connections with
  | [] => s
  | Returned h :: rest =>
      if is_open (s h) then close_open srv rest (snd (close srv h s))
      else close_open srv rest s
  | Raised _ :: rest => close_open srv rest s
  end.

Inductive outcome := Passed | Skipped | Failed (e : exn).

(** [except (ConnectionRefusedError, InvalidURI) as e: pytest.skip(...)] *)
Definition verdict (r : result unit) : outcome :=
  match r with
  | Returned tt => Passed
  | Raised ConnectionRefusedError | Raised InvalidURI => Skipped
  | Raised e => Failed e
  end.

Definition ws_url (base driver_id : string) : string :=
  (base ++ "/ws/tracking/" ++ driver_id)%string.

(** ** test_websocket_concurrent_connections *)

(** The block under [if successful_connections:]: a frame to each
    connection, half a second of sleep, and the assertion that each is
    still open. *)
Definition exercise (srv : server) (successful_connections : list nat) (s : store)
  : result unit * store :=
  match successful_connections with
  | [] => (Returned tt, s)
  | _ =>
      match send_each srv 0 successful_connections s with
      | (Raised e, s') => (Raised e, s')
      | (Returned tt, s') =>
          let s'' := during_sleep srv s' in
          (assert_each_open successful_connections s'', s'')
      end
  end.

(** [base] is [ws://host:port]; [multiple_drivers] are the ids of the
    drivers of the fixture.  The result is the verdict, the list
    [connections] and the store after the [finally] block. *)
Definition test_websocket_concurrent_connections (srv : server) (base : string)
           (multiple_drivers : list string) : outcome * list (result nat) * store :=
  let connect_tasks := map (ws_url base) (firstn 3 multiple_drivers) in
  let (connections, s1) := gather srv 0 connect_tasks blank in
  let successful_connections := successful s1 connections in
  let (r, s2) := exercise srv successful_connections s1 in
  (verdict r, connections, close_open srv connections s2).

(** ** test_websocket_connection_limits

    The sessions are opened one after the other, with a sleep of a tenth of
    a second after each; the first failure leaves the loop.  The [finally]
    block closes what is not closed, without passing over an exception of
    [close]. *)
Fixpoint connect_in_turn (srv : server) (n : nat) (rounds : nat) (url : string)
         (connections : list nat) (s : store) : list nat * store :=
  match rounds with
  | O => (connections, s)
  | S rounds' =>
      match connect_error srv n url with
      | None =>
          connect_in_turn srv (S n) rounds' url (connections ++ [n])
                          (during_sleep srv (upd n (opened url) s))
      | Some _ => (connections, s)
      end
  end.

Fixpoint close_unclosed (srv : server) (connections : list nat) (s : store)
  : result unit * store :=
  match connections with
  | [] => (Returned tt, s)
  | h :: rest =>
      if is_closed (s h) then close_unclosed srv rest s
      else match close srv h s with
           | (Returned tt, s') => close_unclosed srv rest s'
           | (Raised e, s') => (Raised e, s')
           end
  end.

Definition connection_test_message : string :=
  Json.dumps (Json.JDict [("type", Json.JStr "connection_test");
                          ("connection_id", Json.JInt 0)]).

Definition test_websocket_connection_limits (srv : server) (base driver_id : string)
  : outcome * list nat * store :=
  let (connections, s1) := connect_in_turn srv 0 3 (ws_url base driver_id) [] blank in
  let (r, s2) :=
    match connections with
    | [] => (Raised (AssertionError ""), s1)
    | first :: _ =>
        match send srv first connection_test_message s1 with
        | (Raised e, s') => (Raised e, s')
        | (Returned tt, s') =>
            (if is_open (s' first) then Returned tt else Raised (AssertionError ""), s')
        end
    end in
  match close_unclosed srv connections s2 with
  | (Returned tt, s3) => (verdict r, connections, s3)
  | (Raised e, s3) => (Failed e, connections, s3)
  end.

(** ** Reading a run *)




(** ** A concrete server *)

(** Refuses the second attempt; the peer ends nothing; sends and closes
    succeed. *)
Definition second_refused : server :=
  {| connect_error := fun n _ => if (n =? 1)%nat then Some ConnectionRefusedError else None;
     send_error := fun _ => None;
     peer_closes := fun _ => false;
     close_error := fun _ => None |}.

(** Refuses every attempt. *)
Definition all_refused : server :=
  {| connect_error := fun _ _ => Some ConnectionRefusedError;
     send_error := fun _ => None;
     peer_closes := fun _ => false;
     close_error := fun _ => None |}.


End Sockets.

(* ================================================================== *)
(** * utils/helpers.py: the assertions on responses, create_test_driver,
      update_driver_location; conftest.py: created_driver,
      multiple_drivers, driver_with_location *)
(* ================================================================== *)

Module Validators.
Import Py Json.

(** ** Exceptions in sequence *)

Definition bind {A B} (r : result A) (k : A -> result B) : result B :=
  match r with
  | Returned a => k a
  | Raised e => Raised e
  end.

Notation "x <- m ;; k" := (bind m (fun x => k))
  (at level 61, m at next level, right associativity).
Notation "m ;;; k" := (bind m (fun _ => k))
  (at level 61, right associativity).

(** [assert c, msg] *)
Definition assert (c : bool) (msg : string) : result unit :=
  if c then Returned tt else Raised (AssertionError msg).

Definition TypeError : exn := OtherException "TypeError".

(** ** The library, as the assertions use it

    Which texts [uuid.UUID] and [datetime.fromisoformat] accept, and how
    [str()] writes a float, a list or a dict, is left to the library. *)
Record library := {
  uuid_UUID : string -> bool;
  fromisoformat : string -> bool;
  repr : json -> string
}.

(** [str(v)] inside an f-string. *)
Definition py_str (lib : library) (v : json) : string :=
  match v with
  | JStr s => s
  | JInt n => Fixtures.str_int n
  | JBool true => "True"
  | JBool false => "False"
  | JNull => "None"
  | other => repr lib other
  end.

(** ** Regular expressions, as [re.match] reads the two patterns *)

Inductive regex :=
| Never
| Empty
| Class (accept : ascii -> bool)
| Seq (a b : regex)
| Or (a b : regex)
| Star (a : regex).

Fixpoint nullable (r : regex) : bool :=
  match r with
  | Never => false
  | Empty => true
  | Class _ => false
  | Seq a b => nullable a && nullable b
  | Or a b => nullable a || nullable b
  | Star _ => true
  end.

(** What is left of [r] after the character [c]. *)
Fixpoint derive (c : ascii) (r : regex) : regex :=
  match r with
  | Never => Never
  | Empty => Never
  | Class accept => if accept c then Empty else Never
  | Seq a b =>
      if nullable a then Or (Seq (derive c a) b) (derive c b)
      else Seq (derive c a) b
  | Or a b => Or (derive c a) (derive c b)
  | Star a => Seq (derive c a) (Star a)
  end.

(** [r] matches the whole of [s]. *)
Fixpoint accepts (r : regex) (s : string) : bool :=
  match s with
  | EmptyString => nullable r
  | String c rest => accepts (derive c r) rest
  end.

Fixpoint without_final_newline (s : string) : option string :=
  match s with
  | EmptyString => None
  | String c EmptyString => if Ascii.eqb c "010" then Some EmptyString else None
  | String c rest =>
      match without_final_newline rest with
      | Some t => Some (String c t)
      | None => None
      end
  end.

(** [re.match(r'^...$', s)] is not [None]: the pattern covers the text, or
    all of it but a final newline. *)
Definition matches (r : regex) (s : string) : bool :=
  accepts r s
  || match without_final_newline s with
     | Some t => accepts r t
     | None => false
     end.

(** [x+] and [x{2,}] *)
Definition plus (r : regex) : regex := Seq r (Star r).

Definition two_or_more (r : regex) : regex := Seq r (Seq r (Star r)).

Definition in_range (lo hi : ascii) (c : ascii) : bool :=
  (nat_of_ascii lo <=? nat_of_ascii c)%nat && (nat_of_ascii c <=? nat_of_ascii hi)%nat.

Definition letter (c : ascii) : bool := in_range "a" "z" c || in_range "A" "Z" c.

Definition alnum (c : ascii) : bool := letter c || in_range "0" "9" c.

Fixpoint one_of (chars : string) (c : ascii) : bool :=
  match chars with
  | EmptyString => false
  | String x rest => Ascii.eqb x c || one_of rest c
  end.

(** [r'^[a-zA-Z0-9._%+-]+@[a-zA-Z0-9.-]+\.[a-zA-Z]{2,}$'] *)
Definition email_pattern : regex :=
  Seq (plus (Class (fun c => alnum c || one_of "._%+-" c)))
      (Seq (Class (Ascii.eqb "@"))
           (Seq (plus (Class (fun c => alnum c || one_of ".-" c)))
                (Seq (Class (Ascii.eqb "."))
                     (two_or_more (Class letter))))).

(** [re.match(pattern, v)] as a truth value; only text can be matched. *)
Definition re_match (pattern : string -> bool) (v : json) : result bool :=
  match v with
  | JStr s => Returned (pattern s)
  | _ => Raised TypeError
  end.

(** ** Numbers and their comparison *)

Inductive float := Finite (q : Q) | PosInf | NegInf | NaN.

(** A decoded value as an operand of [<=]: numbers and booleans compare,
    anything else raises [TypeError].  The three literals that are not
    finite are the ones [json.loads] accepts. *)
Definition as_float (v : json) : result float :=
  match v with
  | JBool b => Returned (Finite (if b then 1 else 0))
  | JInt n => Returned (Finite (inject_Z n))
  | JFloat l =>
      if String.eqb l "Infinity" then Returned PosInf
      else if String.eqb l "-Infinity" then Returned NegInf
      else match literal_value l with
           | Some q => Returned (Finite q)
           | None => Returned NaN
           end
  | _ => Raised TypeError
  end.

Definition le (a b : float) : bool :=
  match a, b with
  | NaN, _ | _, NaN => false
  | NegInf, _ => true
  | _, PosInf => true
  | PosInf, _ => false
  | _, NegInf => false
  | Finite x, Finite y => Qle_bool x y
  end.

Definition lt (a b : float) : bool := le a b && negb (le b a).

(** [lo <= v <= hi] *)
Definition between (lo hi : Q) (v : json) : result bool :=
  x <- as_float v ;; Returned (le (Finite lo) x && le x (Finite hi)).

(** [v >= lo] *)
Definition at_least (lo : Q) (v : json) : result bool :=
  x <- as_float v ;; Returned (le (Finite lo) x).

(** [lo <= v < hi] *)
Definition between_open (lo hi : Q) (v : json) : result bool :=
  x <- as_float v ;; Returned (le (Finite lo) x && lt x (Finite hi)).

(** ** assert_valid_uuid, assert_valid_timestamp

    Only [ValueError] is turned into an [AssertionError].  A value that is
    not text makes [uuid.UUID] fail on its own ([None]: [TypeError]; any
    other value has no [replace]). *)
Definition assert_valid_uuid (lib : library) (value : json) : result unit :=
  match value with
  | JStr s =>
      if uuid_UUID lib s then Returned tt
      else Raised (AssertionError ("Invalid UUID: " ++ s))
  | JNull => Raised TypeError
  | _ => Raised AttributeError
  end.

(** [s.replace('Z', '+00:00')] *)
Fixpoint replace_Z (s : string) : string :=
  match s with
  | EmptyString => EmptyString
  | String c rest =>
      if Ascii.eqb c "Z" then ("+00:00" ++ replace_Z rest)%string
      else String c (replace_Z rest)
  end.

Definition assert_valid_timestamp (lib : library) (timestamp_str : json) : result unit :=
  match timestamp_str with
  | JStr s =>
      if fromisoformat lib (replace_Z s) then Returned tt
      else Raised (AssertionError ("Invalid timestamp format: " ++ s))
  | _ => Raised AttributeError
  end.

(** ** assert_status_code *)

Record response := { status_code : Z; text : string }.

(** [response.json()] *)
Definition response_json (r : response) : result json := loads (text r).

Definition assert_status_code (lib : library) (r : response) (expected_code : Z)
  : result unit :=
  if status_code r =? expected_code then Returned tt
  else
    let error_details := match response_json r with
                         | Returned v => py_str lib v
                         | Raised _ => text r
                         end in
    Raised (AssertionError
              ("Expected status code " ++ Fixtures.str_int expected_code
               ++ ", got " ++ Fixtures.str_int (status_code r)
               ++ ". Response: " ++ error_details)).

(** ** The required fields *)

(** [key in container]: a key of a dict, an item of a list, a part of a
    string. *)
Definition contains_key (container : json) (key : string) : result bool :=
  match container with
  | JDict _ => Returned (has_key container key)
  | JList items => Returned (existsb (fun x => Json.eqb x (JStr key)) items)
  | JStr s => Returned (Cleanup.contains key s)
  | _ => Raised TypeError
  end.

(** [for field in required_fields: assert field in data, ...] *)
Fixpoint assert_fields (required_fields : list string) (data : json) : result unit :=
  match required_fields with
  | [] => Returned tt
  | field :: rest =>
      present <- contains_key data field ;;
      assert present ("Missing required field: " ++ field) ;;;
      assert_fields rest data
  end.

(** ** assert_driver_data_valid *)

Definition driver_fields : list string :=
  ["id"; "phone"; "email"; "first_name"; "last_name";
   "birth_date"; "passport_series"; "passport_number";
   "license_number"; "license_expiry"; "status";
   "current_rating"; "total_trips"; "created_at"; "updated_at"].

Definition assert_driver_data_valid (lib : library) (driver_data : json) : result unit :=
  assert_fields driver_fields driver_data ;;;
  id <- item driver_data "id" ;;
  assert_valid_uuid lib id ;;;
  created_at <- item driver_data "created_at" ;;
  assert_valid_timestamp lib created_at ;;;
  updated_at <- item driver_data "updated_at" ;;
  assert_valid_timestamp lib updated_at ;;;
  phone <- item driver_data "phone" ;;
  found <- re_match Fixtures.phone_pattern phone ;;
  assert found ("Invalid phone format: " ++ py_str lib phone) ;;;
  email <- item driver_data "email" ;;
  found <- re_match (matches email_pattern) email ;;
  assert found ("Invalid email format: " ++ py_str lib email) ;;;
  rating <- item driver_data "current_rating" ;;
  ok <- between 0 5 rating ;;
  assert ok ("Invalid rating: " ++ py_str lib rating) ;;;
  trips <- item driver_data "total_trips" ;;
  ok <- at_least 0 trips ;;
  assert ok ("Invalid trip count: " ++ py_str lib trips).

(** ** assert_location_data_valid *)

Definition location_fields : list string :=
  ["id"; "driver_id"; "latitude"; "longitude"; "recorded_at"; "created_at"].

(** [if key in data and data[key] is not None: assert check(data[key]), ...] *)
Definition assert_optional (lib : library) (data : json) (key : string)
           (check : json -> result bool) (what : string) : result unit :=
  present <- contains_key data key ;;
  if present then
    v <- item data key ;;
    match v with
    | JNull => Returned tt
    | _ => ok <- check v ;; assert ok ("Invalid " ++ what ++ ": " ++ py_str lib v)
    end
  else Returned tt.

Definition assert_location_data_valid (lib : library) (location_data : json)
  : result unit :=
  assert_fields location_fields location_data ;;;
  id <- item location_data "id" ;;
  assert_valid_uuid lib id ;;;
  driver_id <- item location_data "driver_id" ;;
  assert_valid_uuid lib driver_id ;;;
  recorded_at <- item location_data "recorded_at" ;;
  assert_valid_timestamp lib recorded_at ;;;
  created_at <- item location_data "created_at" ;;
  assert_valid_timestamp lib created_at ;;;
  latitude <- item location_data "latitude" ;;
  ok <- between (-90) 90 latitude ;;
  assert ok ("Invalid latitude: " ++ py_str lib latitude) ;;;
  longitude <- item location_data "longitude" ;;
  ok <- between (-180) 180 longitude ;;
  assert ok ("Invalid longitude: " ++ py_str lib longitude) ;;;
  assert_optional lib location_data "accuracy" (at_least 0) "accuracy" ;;;
  assert_optional lib location_data "speed" (at_least 0) "speed" ;;;
  assert_optional lib location_data "bearing" (between_open 0 360) "bearing".

(** ** The HTTP client, the random source and the list of the
       [test_drivers] fixture *)

Record client := {
  post : nat -> string -> Bus.payload -> result response   (* the n-th call *)
}.

Record world := {
  faker : Fixtures.state;
  calls : nat;                      (* HTTP calls so far *)
  test_drivers : list json          (* the list the fixture hands out *)
}.

Definition Session (A : Type) : Type := world -> result A * world.

Definition ret {A} (a : A) : Session A := fun w => (Returned a, w).

Definition then_ {A B} (m : Session A) (k : A -> Session B) : Session B :=
  fun w => match m w with
           | (Returned a, w') => k a w'
           | (Raised e, w') => (Raised e, w')
           end.

Definition lift {A} (r : result A) : Session A := fun w => (r, w).

Definition generate_driver (src : Fixtures.source) : Session Fixtures.driver_data :=
  fun w =>
    let (d, st) := Fixtures.generate_test_driver_data src None (faker w) in
    (Returned d, {| faker := st; calls := calls w; test_drivers := test_drivers w |}).

Definition generate_location (src : Fixtures.source) : Session Fixtures.location :=
  fun w =>
    let (l, st) := Fixtures.generate_test_location_data src None None [] (faker w) in
    (Returned l, {| faker := st; calls := calls w; test_drivers := test_drivers w |}).

(** [http_client.post(url, json=sent)] *)
Definition http_post (http : client) (url : string) (sent : Bus.payload) : Session response :=
  fun w =>
    (post http (calls w) url sent,
     {| faker := faker w; calls := S (calls w); test_drivers := test_drivers w |}).

(** [test_drivers.append(driver_id)] *)
Definition append_test_driver (driver_id : json) : Session unit :=
  fun w =>
    (Returned tt,
     {| faker := faker w; calls := calls w;
        test_drivers := test_drivers w ++ [driver_id] |}).

(** ** create_test_driver, update_driver_location

    [base] is [config.http_base_url]. *)
Definition create_test_driver (lib : library) (src : Fixtures.source) (http : client)
           (base : string) : Session json :=
  then_ (generate_driver src) (fun driver_data =>
  then_ (http_post http (base ++ "/api/v1/drivers") (Bus.driver_payload driver_data))
        (fun response =>
  then_ (lift (assert_status_code lib response 201)) (fun _ =>
  then_ (lift (response_json response)) (fun created_driver =>
  then_ (lift (assert_driver_data_valid lib created_driver)) (fun _ =>
  ret created_driver))))).

Definition update_driver_location (lib : library) (src : Fixtures.source) (http : client)
           (base : string) (driver_id : json) (location_data : option Fixtures.location)
  : Session json :=
  then_ (match location_data with
         | None => generate_location src
         | Some l => ret l
         end) (fun location_data =>
  then_ (http_post http (base ++ "/api/v1/drivers/" ++ py_str lib driver_id ++ "/locations")
                   (Bus.location_payload location_data)) (fun response =>
  then_ (lift (assert_status_code lib response 200)) (fun _ =>
  then_ (lift (response_json response)) (fun location_response =>
  then_ (lift (assert_location_data_valid lib location_response)) (fun _ =>
  ret location_response))))).

(** ** The fixtures of conftest.py *)

Definition created_driver (lib : library) (src : Fixtures.source) (http : client)
           (base : string) : Session json :=
  then_ (create_test_driver lib src http base) (fun driver =>
  then_ (lift (item driver "id")) (fun id =>
  then_ (append_test_driver id) (fun _ =>
  ret driver))).

(** The loop [for i in range(5)] of [multiple_drivers], [n] rounds left. *)
Fixpoint create_drivers (lib : library) (src : Fixtures.source) (http : client)
         (base : string) (n : nat) (drivers : list json) : Session (list json) :=
  match n with
  | O => ret drivers
  | S n' =>
      then_ (create_test_driver lib src http base) (fun driver =>
      then_ (lift (item driver "id")) (fun id =>
      then_ (append_test_driver id) (fun _ =>
      create_drivers lib src http base n' (drivers ++ [driver]))))
  end.

Definition multiple_drivers (lib : library) (src : Fixtures.source) (http : client)
           (base : string) : Session (list json) :=
  create_drivers lib src http base 5 [].

(** [d[key] = v] *)
Definition set_item (d : json) (key : string) (v : json) : result json :=
  match d with
  | JDict members => Returned (JDict (dict_set key v members))
  | _ => Raised TypeError
  end.

Definition driver_with_location (lib : library) (src : Fixtures.source) (http : client)
           (base : string) : Session json :=
  then_ (create_test_driver lib src http base) (fun driver =>
  then_ (lift (item driver "id")) (fun id =>
  then_ (append_test_driver id) (fun _ =>
  then_ (lift (item driver "id")) (fun id =>
  then_ (update_driver_location lib src http base id None) (fun location =>
  lift (set_item driver "last_location" location)))))).

(** ** A concrete library and service *)

(** Accepts the 36-character form of a UUID and timestamps of 25
    characters ([YYYY-MM-DDTHH:MM:SS+00:00]). *)
Definition by_length : library :=
  {| uuid_UUID := fun s => (String.length s =? 36)%nat;
     fromisoformat := fun s => (String.length s =? 25)%nat;
     repr := dumps |}.

Definition stored_driver (id : string) (d : Fixtures.driver_data) : json :=
  JDict [ ("id", JStr id);
          ("phone", JStr (Fixtures.phone d));
          ("email", JStr (Fixtures.driver_email d));
          ("first_name", JStr (Fixtures.first_name d));
          ("last_name", JStr (Fixtures.last_name d));
          ("birth_date", JStr (Fixtures.birth_date d));
          ("passport_series", JStr (Fixtures.passport_series d));
          ("passport_number", JStr (Fixtures.passport_number d));
          ("license_number", JStr (Fixtures.license_number d));
          ("license_expiry", JStr (Fixtures.license_expiry d));
          ("status", JStr "registered");
          ("current_rating", JInt 0);
          ("total_trips", JInt 0);
          ("created_at", JStr "2024-01-01T00:00:00Z");
          ("updated_at", JStr "2024-01-01T00:00:00Z") ].

Definition driver_id_of (n : nat) : string :=
  ("00000000-0000-4000-8000-00000000000" ++ Fixtures.str_int (Z.of_nat n))%string.

Definition stored_location (id : string) (l : Fixtures.location) : json :=
  JDict [ ("id", JStr id);
          ("driver_id", JStr (driver_id_of 0));
          ("latitude", JFloat "55.7558");
          ("longitude", JFloat "37.6176");
          ("accuracy", JInt (Fixtures.accuracy l));
          ("speed", JInt (Fixtures.speed l));
          ("bearing", JInt (Fixtures.bearing l));
          ("altitude", JNull);
          ("recorded_at", JStr "2024-01-01T00:00:00Z");
          ("created_at", JStr "2024-01-01T00:00:00Z") ].

(** Stores what it is sent: call [n] creates the driver, or the location,
    under the id [driver_id_of n]; from call [limit] on the service answers
    503. *)
Definition storing (limit : nat) : client :=
  {| post := fun n _ sent =>
       Returned
         (if (n <? limit)%nat then
            match sent with
            | Bus.driver_payload d =>
                {| status_code := 201; text := dumps (stored_driver (driver_id_of n) d) |}
            | Bus.location_payload l =>
                {| status_code := 200; text := dumps (stored_location (driver_id_of n) l) |}
            | _ => {| status_code := 400; text := "{}" |}
            end
          else {| status_code := 503; text := "Service Unavailable" |}) |}.

Definition session0 : world :=
  {| faker := Fixtures.fresh; calls := 0; test_drivers := [] |}.

End Validators.

(* ================================================================== *)
(** * Properties of the cleanup (Resource Ledger) *)
(* ================================================================== *)

Module CleanupSpec.
Import Py Cleanup.

(** ** Sanity checks on the concrete database *)

Example like_test_examples :
  map like_test (rows (db0 drivers)) = [true; false; true].
Proof. reflexivity. Qed.

Example cleanup_two_drivers_issued :
  issued (snd (cleanup_test_data healthy (Some ["d1"; "d2"]) w0))
  = map (fun t => DELETE_FROM t (driver_id_in ["d1"; "d2"])) tables.
Proof. reflexivity. Qed.

Example cleanup_two_drivers_left :
  map (fun t => List.length (rows (committed (snd (cleanup_test_data healthy (Some ["d1"; "d2"]) w0)) t)))
      tables = [0; 1; 0; 0; 1]%nat.
Proof. reflexivity. Qed.

(** ** The ledger is the list of created ids, in creation order *)


Lemma truthy_cons {A} (l : list A) : l <> [] -> truthy (Some l) = true.
Proof. destruct l; [congruence | reflexivity]. Qed.

(** ** Deleting rows never changes the declared columns *)

Lemma has_column_delete_rows db s t c :
  has_column (delete_rows db s) t c = has_column db t c.
Proof.
  unfold has_column, delete_rows. now destruct (table_eqb t (from s)).
Qed.

Lemma columns_exist_delete_rows db s s' :
  columns_exist (delete_rows db s') s = columns_exist db s.
Proof.
  unfold columns_exist. destruct (where_ s); now rewrite ?has_column_delete_rows.
Qed.

Lemma schema_ok_statements db driver_ids s :
  schema_ok db = true -> In s (statements driver_ids) -> columns_exist db s = true.
Proof.
  unfold schema_ok. rewrite !andb_true_iff, forallb_forall.
  intros [[Hall Hid] Hem] Hin.
  assert (Hd : has_column db drivers "driver_id" = true)
    by (apply Hall; simpl; tauto).
  unfold statements in Hin. destruct (truthy driver_ids).
  - destruct driver_ids as [ids|]; [|contradiction].
    apply in_map_iff in Hin. destruct Hin as [t [<- Ht]].
    unfold columns_exist; simpl. now apply Hall.
  - simpl in Hin.
    repeat (destruct Hin as [<- | Hin];
            [unfold columns_exist; simpl; rewrite ?Hid, ?Hem, ?Hd, ?Hall; simpl; tauto|]).
    contradiction.
Qed.

(** ** The statement loop *)

(** Whatever happens, what was sent is a prefix of the program's
    statements: nothing is attempted after the first failure. *)
Lemma execute_each_prefix srv ss : forall txn sent,
  exists k, (k <= List.length ss)%nat
            /\ snd (execute_each srv ss txn sent) = sent ++ firstn k ss
            /\ (forall txn', fst (execute_each srv ss txn sent) = Returned txn' ->
                  k = List.length ss /\ txn' = fold_left delete_rows ss txn)
            /\ (forall e, fst (execute_each srv ss txn sent) = Raised e ->
                  (0 < k)%nat /\ exists s, nth_error ss (k - 1) = Some s
                     /\ execute srv s (fold_left delete_rows (firstn (k - 1) ss) txn) = Raised e).
Proof.
  induction ss as [|s rest IH]; intros txn sent; simpl.
  - exists 0%nat. rewrite app_nil_r. repeat split; try lia; try congruence.
    all: intros e He; discriminate.
  - destruct (execute srv s txn) as [txn1|e1] eqn:Hex.
    + destruct (IH txn1 (sent ++ [s])) as [k [Hk [Hs [Hr He]]]].
      assert (Htxn1 : txn1 = delete_rows txn s).
      { unfold execute in Hex. destruct (statement_error srv s); [discriminate|].
        destruct (columns_exist txn s); congruence. }
      exists (S k). split; [lia|]. split; [|split].
      * rewrite Hs. simpl. now rewrite <- app_assoc.
      * intros txn' H. destruct (Hr txn' H) as [-> ->]. now subst txn1.
      * intros e H. destruct (He e H) as [Hpos [s' [Hn Hx]]]. split; [lia|].
        exists s'. replace (S k - 1)%nat with (S (k - 1)) by lia. simpl.
        split; [exact Hn|]. now subst txn1.
    + exists 1%nat. simpl. split; [lia|]. split; [reflexivity|]. split.
      * intros txn' H; discriminate.
      * intros e H. injection H as <-. split; [lia|]. exists s. simpl. now split.
Qed.

Lemma execute_each_healthy srv ss : forall txn sent,
  (forall s, In s ss -> statement_error srv s = None) ->
  (forall s, In s ss -> columns_exist txn s = true) ->
  execute_each srv ss txn sent = (Returned (fold_left delete_rows ss txn), sent ++ ss).
Proof.
  induction ss as [|s rest IH]; intros txn sent Herr Hcol; simpl.
  - now rewrite app_nil_r.
  - unfold execute. rewrite (Herr s (or_introl eq_refl)), (Hcol s (or_introl eq_refl)).
    rewrite IH.
    + now rewrite <- app_assoc.
    + intros s' H; apply Herr; now right.
    + intros s' H. rewrite columns_exist_delete_rows. apply Hcol; now right.
Qed.

(** ** What a successful run leaves behind *)

(** After the five parameterised deletes, table [t] holds exactly the rows
    it held before whose [driver_id] is not among [ids]. *)
Lemma rows_after_specific ids db t :
  rows (fold_left delete_rows (map (fun t => DELETE_FROM t (driver_id_in ids)) tables) db t)
  = filter (fun r => negb (matches db (driver_id_in ids) r)) (rows (db t)).
Proof.
  destruct t; reflexivity.
Qed.

Lemma member_In v l : member v l = true <-> In v l.
Proof.
  unfold member. rewrite existsb_exists. split.
  - intros [x [Hin Heq]]. apply String.eqb_eq in Heq. now subst.
  - intros H. exists v. split; [exact H | apply String.eqb_refl].
Qed.



(** ** The shape of every run of [cleanup_test_data] *)

Lemma cleanup_test_data_cases srv driver_ids w :
  let w' := snd (cleanup_test_data srv driver_ids w) in
  fst (cleanup_test_data srv driver_ids w) = Returned tt
  /\ ((issued w' = issued w ++ statements driver_ids
       /\ committed w' = fold_left delete_rows (statements driver_ids) (committed w)
       /\ log w' = log w ++ [info "Test data cleaned up successfully"])
      \/ (exists e k,
            (k <= List.length (statements driver_ids))%nat
            /\ issued w' = issued w ++ firstn k (statements driver_ids)
            /\ committed w' = committed w
            /\ log w' = log w ++ [error ("Failed to cleanup test data: " ++ str_exn e)%string])).
Proof.
  unfold cleanup_test_data, cleanup_body.
  destruct (connect_error srv) as [m|]; simpl.
  - split; [reflexivity|]. right. exists (OperationalError m), 0%nat.
    simpl. rewrite app_nil_r. repeat split; lia.
  - destruct (execute_each_prefix srv (statements driver_ids) (committed w) (issued w))
      as [k [Hk [Hs [Hr He]]]].
    destruct (execute_each srv (statements driver_ids) (committed w) (issued w))
      as [[txn|e] sent] eqn:Hrun; simpl in *.
    + destruct (Hr txn eq_refl) as [-> ->]. rewrite firstn_all in Hs.
      destruct (commit_error srv) as [m|]; simpl.
      * split; [reflexivity|]. right.
        exists (DatabaseError m), (List.length (statements driver_ids)).
        rewrite firstn_all. repeat split; auto.
      * split; [reflexivity|]. left. repeat split; auto.
    + split; [reflexivity|]. right. exists e, k. repeat split; auto.
Qed.


Lemma rows_after_delete_all db t :
  rows (fold_left delete_rows (statements None) db t)
  = filter (fun r => negb (matches db (match t with
                                        | drivers => email_like_test
                                        | _ => driver_id_in_test_drivers
                                        end) r))
           (rows (db t)).
Proof. destruct t; reflexivity. Qed.

(** A run of the loop that returns has met no missing column and no
    statement error. *)
Lemma execute_each_returned srv ss : forall txn sent txn',
  fst (execute_each srv ss txn sent) = Returned txn' ->
  forall s, In s ss -> columns_exist txn s = true /\ statement_error srv s = None.
Proof.
  induction ss as [|s0 rest IH]; intros txn sent txn' H s Hin; [contradiction|].
  simpl in H. unfold execute in H.
  destruct (statement_error srv s0) eqn:Herr; [discriminate|].
  destruct (columns_exist txn s0) eqn:Hcol; [|discriminate].
  destruct Hin as [<- | Hin]; [now split|].
  destruct (IH _ _ _ H s Hin) as [Hc He]. split; [|exact He].
  now rewrite columns_exist_delete_rows in Hc.
Qed.

(** X1: The branch for given ids filters every table, [drivers] included, on a
    column [driver_id].  Against a [drivers] table without such a column
    the fifth statement fails, so nothing is committed and the failure is
    logged. *)
Lemma cleanup_needs_driver_id_column srv ids w :
  ids <> [] ->
  has_column (committed w) drivers "driver_id" = false ->
  let w' := snd (cleanup_test_data srv (Some ids) w) in
  committed w' = committed w
  /\ exists e, log w' = log w ++ [error ("Failed to cleanup test data: " ++ str_exn e)%string].
Proof.
  intros Hne Hcol. cbv zeta. unfold cleanup_test_data, cleanup_body.
  destruct (connect_error srv) as [m|];
    [split; [reflexivity | now exists (OperationalError m)]|].
  destruct (execute_each srv (statements (Some ids)) (committed w) (issued w))
    as [[txn|e] sent] eqn:Hrun.
  - exfalso.
    assert (Hin : In (DELETE_FROM drivers (driver_id_in ids)) (statements (Some ids))).
    { unfold statements. rewrite (truthy_cons ids Hne). simpl. tauto. }
    assert (Hret : fst (execute_each srv (statements (Some ids)) (committed w) (issued w))
                   = Returned txn) by now rewrite Hrun.
    destruct (execute_each_returned _ _ _ _ _ Hret _ Hin) as [Hc _].
    unfold columns_exist in Hc. simpl in Hc. congruence.
  - split; [reflexivity | now exists e].
Qed.

(** The fixture does not call the cleanup for an empty list. *)
Lemma test_drivers_empty cfg srv w : test_drivers cfg srv [] w = (Returned tt, w).
Proof. unfold test_drivers. simpl. now rewrite andb_false_r. Qed.

(** ** C1 *)




(** ** C2 *)




(** ** C10 *)



(** ** What the cleanup leaves alone *)

Lemma columns_fold_delete_rows ss : forall db t,
  columns (fold_left delete_rows ss db t) = columns (db t).
Proof.
  induction ss as [|s rest IH]; intros db t; simpl; [reflexivity|].
  rewrite IH. unfold delete_rows. now destruct (table_eqb t (from s)).
Qed.

Lemma statements_ids ids :
  ids <> [] ->
  statements (Some ids) = map (fun t => DELETE_FROM t (driver_id_in ids)) tables.
Proof. intros Hne. unfold statements. now rewrite (truthy_cons ids Hne). Qed.

(** X2: With at least one id given, [cleanup_test_data] adds no row, keeps
    every row whose [driver_id] is not among the ids (or is NULL), and
    leaves the columns as they are, whether it succeeds or fails. *)
Theorem cleanup_only_removes_tracked srv ids w t :
  ids <> [] ->
  let w' := snd (cleanup_test_data srv (Some ids) w) in
  (forall r, In r (rows (committed w' t)) -> In r (rows (committed w t)))
  /\ (forall r, In r (rows (committed w t)) ->
        (forall v, field "driver_id" r = Some v -> ~ In v ids) ->
        In r (rows (committed w' t)))
  /\ columns (committed w' t) = columns (committed w t).
Proof.
  intros Hne. cbv zeta.
  destruct (cleanup_test_data_cases srv (Some ids) w)
    as [_ [[_ [Hc _]] | [e [k [_ [_ [Hc _]]]]]]]; cbv zeta in Hc; rewrite Hc.
  - rewrite (statements_ids ids Hne), rows_after_specific.
    split; [|split].
    + intros r Hin. now apply filter_In in Hin.
    + intros r Hin Hun. apply filter_In. split; [exact Hin|].
      simpl. destruct (field "driver_id" r) as [v|]; [|reflexivity].
      apply negb_true_iff. apply not_true_is_false. intros Hm.
      apply member_In in Hm. now apply (Hun v).
    + apply columns_fold_delete_rows.
  - split; [|split]; auto.
Qed.

Lemma cleanup_only_removes_tracked_witness :
  In (child "d3")
     (rows (committed (snd (cleanup_test_data locations_locked (Some ["d1"; "d2"]) w0))
                      driver_locations))
  /\ In (child "d3")
        (rows (committed (snd (cleanup_test_data healthy (Some ["d1"; "d2"]) w0))
                         driver_locations)).
Proof.
  split.
  - apply (proj1 (proj2 (cleanup_only_removes_tracked locations_locked ["d1"; "d2"] w0
                           driver_locations ltac:(discriminate)))).
    + simpl. tauto.
    + intros v Hv. injection Hv as <-. simpl. intros [H | [H | []]]; discriminate.
  - apply (proj1 (proj2 (cleanup_only_removes_tracked healthy ["d1"; "d2"] w0
                           driver_locations ltac:(discriminate)))).
    + simpl. tauto.
    + intros v Hv. injection Hv as <-. simpl. intros [H | [H | []]]; discriminate.
Defined.

(** ** Running the cleanup twice *)

Lemma filter_twice {A} (f : A -> bool) l : filter f (filter f l) = filter f l.
Proof.
  induction l as [|a l IH]; simpl; [reflexivity|].
  destruct (f a) eqn:Hf; simpl; [rewrite Hf; now f_equal | exact IH].
Qed.

Lemma filter_all {A} (f : A -> bool) l :
  (forall a, In a l -> f a = true) -> filter f l = l.
Proof.
  induction l as [|a l IH]; intros H; simpl; [reflexivity|].
  rewrite (H a (or_introl eq_refl)). f_equal. apply IH. intros b Hb. apply H. now right.
Qed.

Lemma schema_ok_fold ss db :
  schema_ok (fold_left delete_rows ss db) = schema_ok db.
Proof.
  revert db. induction ss as [|s rest IH]; intros db; simpl; [reflexivity|].
  rewrite IH. unfold schema_ok. simpl. now rewrite !has_column_delete_rows.
Qed.

(** Once the drivers with a test email are gone, the subquery selects no
    id. *)
Lemma test_driver_ids_after db :
  test_driver_ids (fold_left delete_rows (statements None) db) = [].
Proof.
  unfold test_driver_ids. rewrite rows_after_delete_all.
  induction (rows (db drivers)) as [|r l IH]; simpl; [reflexivity|].
  destruct (like_test r) eqn:Hl; simpl; [exact IH|]. now rewrite Hl.
Qed.

Lemma cleanup_healthy srv driver_ids w :
  connect_error srv = None ->
  (forall s, statement_error srv s = None) ->
  commit_error srv = None ->
  schema_ok (committed w) = true ->
  committed (snd (cleanup_test_data srv driver_ids w))
  = fold_left delete_rows (statements driver_ids) (committed w).
Proof.
  intros Hconn Herr Hcommit Hschema.
  unfold cleanup_test_data, cleanup_body. rewrite Hconn.
  rewrite execute_each_healthy.
  - now rewrite Hcommit.
  - intros s _. apply Herr.
  - intros s Hs. now apply (schema_ok_statements _ driver_ids).
Qed.

(** X3: On a server where nothing fails, a second run of the cleanup with the
    same argument changes nothing: neither branch removes a row that
    survived the first run. *)
Theorem cleanup_twice srv driver_ids w :
  connect_error srv = None ->
  (forall s, statement_error srv s = None) ->
  commit_error srv = None ->
  schema_ok (committed w) = true ->
  let w1 := snd (cleanup_test_data srv driver_ids w) in
  let w2 := snd (cleanup_test_data srv driver_ids w1) in
  forall t, rows (committed w2 t) = rows (committed w1 t)
            /\ columns (committed w2 t) = columns (committed w1 t).
Proof.
  intros Hconn Herr Hcommit Hschema. cbv zeta. intros t.
  pose proof (cleanup_healthy srv driver_ids w Hconn Herr Hcommit Hschema) as H1.
  assert (Hs1 : schema_ok (committed (snd (cleanup_test_data srv driver_ids w))) = true)
    by (rewrite H1, schema_ok_fold; exact Hschema).
  rewrite (cleanup_healthy srv driver_ids _ Hconn Herr Hcommit Hs1), H1.
  split; [|apply columns_fold_delete_rows].
  set (db1 := fold_left delete_rows (statements driver_ids) (committed w)).
  assert (Hcases : (exists ids, ids <> [] /\ driver_ids = Some ids)
                   \/ statements driver_ids = statements None).
  { destruct driver_ids as [[|i ids]|]; [now right | left | now right].
    exists (i :: ids). split; [discriminate | reflexivity]. }
  destruct Hcases as [[ids [Hne ->]] | Hst].
  - unfold db1. rewrite (statements_ids ids Hne), !rows_after_specific.
    apply filter_twice.
  - unfold db1. rewrite Hst, (rows_after_delete_all (fold_left _ _ _)).
    apply filter_all. intros r Hin.
    destruct t; cbv beta iota delta [matches];
      try (rewrite test_driver_ids_after; now destruct (field "driver_id" r)).
    rewrite rows_after_delete_all in Hin. apply filter_In in Hin.
    destruct Hin as [_ Hn]. exact Hn.
Qed.

Lemma cleanup_twice_witness :
  rows (committed (snd (cleanup_test_data healthy None
                          (snd (cleanup_test_data healthy None w0)))) drivers)
  = rows (committed (snd (cleanup_test_data healthy None w0)) drivers)
  /\ rows (committed (snd (cleanup_test_data healthy None w0)) drivers)
     = [driver "d2" "petr@mail.ru"].
Proof.
  split; [|reflexivity].
  exact (proj1 (cleanup_twice healthy None w0 eq_refl (fun _ => eq_refl) eq_refl eq_refl
                  drivers)).
Defined.

(** A [drivers] table keyed by [id]: the cleanup for given ids fails and
    removes nothing. *)
Lemma cleanup_needs_driver_id_column_witness :
  committed (snd (cleanup_test_data healthy (Some ["d1"])
                    {| committed := db_by_id; log := []; issued := [] |}))
  = db_by_id
  /\ exists e,
       log (snd (cleanup_test_data healthy (Some ["d1"])
                   {| committed := db_by_id; log := []; issued := [] |}))
       = [] ++ [error ("Failed to cleanup test data: " ++ str_exn e)%string].
Proof.
  exact (cleanup_needs_driver_id_column healthy ["d1"]
           {| committed := db_by_id; log := []; issued := [] |}
           ltac:(discriminate) eq_refl).
Defined.

End CleanupSpec.

(* ================================================================== *)
(** * Properties of the readiness prober *)
(* ================================================================== *)

Module ProberSpec.
Import Py Prober.

(** ** Sanity checks *)

(** The dependency of the spec's example: up after three refused attempts,
    probed with a 30 s timeout and a 1 s interval. *)
Example up_after_three_run :
  wait_for_service 10 up_after_three "http://localhost:8001" (seconds 30) (seconds 1) boot
  = Some (Returned true,
          {| now := 3000; requests := 4; connects := 0;
             log := [debug "Service not yet available"; debug "Service not yet available";
                     debug "Service not yet available"; info "Service is available"] |}).
Proof. reflexivity. Qed.

Example always_down_run :
  wait_for_service 10 always_down "http://localhost:8001" 1000 400 boot
  = Some (Returned false,
          {| now := 1000; requests := 2; connects := 0;
             log := [debug "Service not yet available";
                     error "Service did not become available within timeout"] |}).
Proof. reflexivity. Qed.

Example negative_interval_raises :
  wait_for_service 10 always_down "http://localhost:8001" 1000 (-1) boot
  = Some (Raised (OtherException "sleep length must be non-negative"),
          {| now := 100; requests := 1; connects := 0; log := [] |}).
Proof. reflexivity. Qed.

(** ** One iteration of the loop *)

Section Loop.

Variable env : environment.
Variable url : string.
Variables timeout interval start : Z.

Lemma requests_get_split n :
  requests_get env (url ++ "/health")%string n = (outcome env url n, latency env url n).
Proof. unfold outcome, latency. now destruct (requests_get env _ n). Qed.

Lemma poll_not_ready fuel w :
  0 <= interval ->
  now w - start < timeout ->
  not_ready (outcome env url (requests w)) = true ->
  poll (S fuel) env url timeout interval start w
  = poll fuel env url timeout interval start (step env url interval w).
Proof.
  intros Hi Hin Hnr. simpl.
  apply Z.ltb_lt in Hin. rewrite Hin, requests_get_split.
  unfold step, sleep.
  assert (Hs : (interval <? 0) = false) by (apply Z.ltb_ge; lia).
  destruct (outcome env url (requests w)) as [resp|e]; simpl in Hnr.
  - apply negb_true_iff in Hnr. now rewrite Hnr, Hs.
  - destruct e; try discriminate. now rewrite Hs.
Qed.

Lemma poll_ready fuel w :
  now w - start < timeout ->
  ready (outcome env url (requests w)) = true ->
  poll (S fuel) env url timeout interval start w
  = Some (Returned true,
          emit (info "Service is available")
               (tick (latency env url (requests w)) (sent w))).
Proof.
  intros Hin Hr. simpl.
  apply Z.ltb_lt in Hin. rewrite Hin, requests_get_split.
  destruct (outcome env url (requests w)) as [resp|e]; simpl in Hr; [|discriminate].
  now rewrite Hr.
Qed.

Lemma poll_timed_out fuel w :
  timeout <= now w - start ->
  poll (S fuel) env url timeout interval start w
  = Some (Returned false,
          emit (error "Service did not become available within timeout") w).
Proof.
  intros H. simpl. apply Z.ltb_ge in H. now rewrite H.
Qed.

Lemma advance_S k : forall w,
  advance env url interval (S k) w
  = step env url interval (advance env url interval k w).
Proof.
  induction k as [|k IH]; intros w; [reflexivity|].
  change (advance env url interval (S (S k)) w)
    with (advance env url interval (S k) (step env url interval w)).
  now rewrite IH.
Qed.

Lemma requests_step w : requests (step env url interval w) = S (requests w).
Proof. unfold step. simpl. now destruct (outcome env url (requests w)). Qed.

Lemma now_step w :
  now (step env url interval w) = now w + latency env url (requests w) + interval.
Proof. unfold step. simpl. now destruct (outcome env url (requests w)). Qed.

Lemma requests_advance k : forall w,
  requests (advance env url interval k w) = (requests w + k)%nat.
Proof.
  induction k as [|k IH]; intros w; simpl; [lia|].
  rewrite IH, requests_step. lia.
Qed.

Lemma now_advance k w :
  now (advance env url interval k w) = issue_time env url interval w k.
Proof.
  induction k as [|k IH]; [reflexivity|].
  rewrite advance_S, now_step, IH, requests_advance. reflexivity.
Qed.

(** [k] not-ready attempts inside the window cost [k] units of fuel and
    lead to the world [advance env url interval k w]. *)
Lemma poll_advance k : forall fuel w,
  0 <= interval ->
  (forall j, (j < k)%nat ->
     now (advance env url interval j w) - start < timeout
     /\ not_ready (outcome env url (requests (advance env url interval j w))) = true) ->
  poll (k + fuel) env url timeout interval start w
  = poll fuel env url timeout interval start (advance env url interval k w).
Proof.
  induction k as [|k IH]; intros fuel w Hi H; [reflexivity|].
  change (S k + fuel)%nat with (S (k + fuel)).
  destruct (H 0%nat ltac:(lia)) as [H0 H0'].
  rewrite poll_not_ready by assumption.
  apply IH; [assumption|].
  intros j Hj. apply (H (S j)). lia.
Qed.



End Loop.

(** ** C4 *)

(** C4, as stated, fails: the window is checked only before an attempt is
    started.  A service that answers 200 after five seconds, probed with a
    timeout of one second, makes [wait_for_service] return [True] at second
    five: that GET did not yield its 200 within the window, and the timeout
    had elapsed before any attempt succeeded. *)
Lemma answer_after_the_window_counts :
  ~ (forall w',
       wait_for_service 5 slow_start "http://localhost:8001" (seconds 1) (seconds 1) boot
       = Some (Returned true, w') ->
       now w' - now boot < seconds 1).
Proof.
  intros H.
  specialize (H {| now := 5000; requests := 1; connects := 0;
                   log := [info "Service is available"] |} eq_refl).
  vm_compute in H. discriminate.
Qed.

(** C4 (amended): let the first [k] attempts be issued inside the timeout
    window and be not ready (a status other than 200, or a RequestException).  If
    attempt [k] is issued inside the window and answers 200,
    [wait_for_service] returns [True] right after it, having sent [k+1]
    requests; if instead the window has elapsed when attempt [k] is due,
    it returns [False] without sending it. *)
Theorem wait_for_service_first_success env url timeout interval w k fuel :
  0 <= interval ->
  (k < fuel)%nat ->
  (forall j, (j < k)%nat ->
     issue_time env url interval w j - now w < timeout
     /\ not_ready (outcome env url (requests w + j)) = true) ->
  (issue_time env url interval w k - now w < timeout ->
   ready (outcome env url (requests w + k)) = true ->
   exists w',
     wait_for_service fuel env url timeout interval w = Some (Returned true, w')
     /\ requests w' = (requests w + k + 1)%nat
     /\ now w' = issue_time env url interval w k + latency env url (requests w + k))
  /\ (timeout <= issue_time env url interval w k - now w ->
      exists w',
        wait_for_service fuel env url timeout interval w = Some (Returned false, w')
        /\ requests w' = (requests w + k)%nat
        /\ now w' = issue_time env url interval w k).
Proof.
  intros Hi Hfuel Hbefore.
  assert (Hskip : wait_for_service fuel env url timeout interval w
                  = poll (fuel - k) env url timeout interval (now w)
                         (advance env url interval k w)).
  { unfold wait_for_service.
    replace fuel with (k + (fuel - k))%nat at 1 by lia.
    apply poll_advance; [assumption|].
    intros j Hj. rewrite now_advance, requests_advance. now apply Hbefore. }
  destruct (fuel - k)%nat as [|f] eqn:Hf; [lia|].
  split.
  - intros Hin Hr. eexists. split; [|split].
    + rewrite Hskip. apply poll_ready.
      * now rewrite now_advance.
      * now rewrite requests_advance.
    + simpl. rewrite requests_advance. lia.
    + simpl. now rewrite now_advance, requests_advance.
  - intros Hout. eexists. split; [|split].
    + rewrite Hskip. apply poll_timed_out. now rewrite now_advance.
    + simpl. now rewrite requests_advance.
    + simpl. now rewrite now_advance.
Qed.

Lemma wait_for_service_first_success_witness :
  exists w',
    wait_for_service 10 up_after_three "http://localhost:8001" (seconds 30) (seconds 1) boot
    = Some (Returned true, w')
    /\ requests w' = 4%nat
    /\ now w' = 3000.
Proof.
  refine (proj1 (wait_for_service_first_success up_after_three "http://localhost:8001"
                   (seconds 30) (seconds 1) boot 3 10 _ _ _) _ _).
  - vm_compute. discriminate.
  - lia.
  - intros j Hj. destruct j as [|[|[|j]]]; [vm_compute; auto .. | lia].
  - vm_compute. reflexivity.
  - reflexivity.
Defined.

(** ** C5 *)





(** ** How many probes a wait can send *)

Section Bounds.

Variable env : environment.
Variable url : string.
Variables timeout interval start : Z.

(** Every probe but the first follows a sleep: when [k] sleeps lie behind
    the loop, [k] intervals of the window are used up. *)
Lemma poll_request_bound fuel : forall w k r w',
  0 <= interval ->
  (forall n, 0 <= latency env url n) ->
  Z.of_nat k * interval <= now w - start ->
  poll fuel env url timeout interval start w = Some (r, w') ->
  (requests w <= requests w')%nat
  /\ (requests w' = requests w
      \/ (Z.of_nat k + Z.of_nat (requests w' - requests w) - 1) * interval < timeout).
Proof.
  induction fuel as [|fuel IH]; intros w k r w' Hi Hlat Hk Hrun; [discriminate|].
  simpl in Hrun.
  destruct (now w - start <? timeout) eqn:Hin.
  - apply Z.ltb_lt in Hin.
    pose proof (Hlat (requests w)) as Hd. unfold latency in Hd.
    destruct (requests_get env (url ++ "/health")%string (requests w)) as [res d].
    simpl in Hd.
    assert (Hs : (interval <? 0) = false) by (apply Z.ltb_ge; lia).
    assert (Hone : forall w1, requests w1 = S (requests w) ->
              (requests w <= requests w1)%nat
              /\ (requests w1 = requests w
                  \/ (Z.of_nat k + Z.of_nat (requests w1 - requests w) - 1) * interval
                     < timeout)).
    { intros w1 H1. split; [lia|]. right.
      replace (requests w1 - requests w)%nat with 1%nat by lia.
      replace (Z.of_nat k + Z.of_nat 1 - 1) with (Z.of_nat k) by lia. lia. }
    assert (Hmore : forall w2, requests w2 = S (requests w) ->
              now w2 = now w + d + interval ->
              poll fuel env url timeout interval start w2 = Some (r, w') ->
              (requests w <= requests w')%nat
              /\ (requests w' = requests w
                  \/ (Z.of_nat k + Z.of_nat (requests w' - requests w) - 1) * interval
                     < timeout)).
    { intros w2 H2 Hn2 Hrun2.
      destruct (IH w2 (S k) r w' Hi Hlat ltac:(rewrite Hn2; nia) Hrun2) as [Hle Hb].
      split; [lia|]. right. destruct Hb as [Heq | Hb].
      - replace (requests w' - requests w)%nat with 1%nat by lia.
        replace (Z.of_nat k + Z.of_nat 1 - 1) with (Z.of_nat k) by lia. lia.
      - replace (Z.of_nat k + Z.of_nat (requests w' - requests w) - 1)
          with (Z.of_nat (S k) + Z.of_nat (requests w' - requests w2) - 1) by lia.
        exact Hb. }
    destruct res as [resp|e].
    + destruct (status_code resp =? 200).
      * injection Hrun as <- <-. now apply Hone.
      * unfold sleep in Hrun. rewrite Hs in Hrun.
        refine (Hmore _ _ _ Hrun); reflexivity.
    + destruct e; try (injection Hrun as <- <-; now apply Hone).
      unfold sleep in Hrun. rewrite Hs in Hrun.
      refine (Hmore _ _ _ Hrun); reflexivity.
  - injection Hrun as <- <-. simpl. split; [lia | now left].
Qed.


End Bounds.

(** ** The wait for PostgreSQL *)

Section Postgres.

Variable env : environment.
Variables timeout start : Z.

Lemma poll_postgres_fuel_mono fuel : forall fuel' w r,
  (fuel <= fuel')%nat ->
  poll_postgres fuel env timeout start w = Some r ->
  poll_postgres fuel' env timeout start w = Some r.
Proof.
  induction fuel as [|fuel IH]; intros fuel' w r Hle H; [discriminate|].
  destruct fuel' as [|fuel']; [lia|].
  simpl in *.
  destruct (now w - start <? timeout); [|exact H].
  destruct (pg_connect env (connects w)) as [res d].
  destruct res as [[]|e]; [exact H|].
  destruct e; try exact H.
  apply IH; [lia|exact H].
Qed.

(** The wait for PostgreSQL sends no HTTP request, and a [True] means
    that a connection attempt succeeded. *)
Lemma poll_postgres_keeps_requests fuel : forall w r w',
  poll_postgres fuel env timeout start w = Some (r, w') ->
  requests w' = requests w
  /\ (r = Returned true -> exists n, fst (pg_connect env n) = Returned tt).
Proof.
  induction fuel as [|fuel IH]; intros w r w' Hrun; [discriminate|].
  simpl in Hrun.
  destruct (now w - start <? timeout).
  - destruct (pg_connect env (connects w)) as [res d] eqn:Hpg.
    destruct res as [[]|e].
    + injection Hrun as <- <-. split; [reflexivity|]. intros _.
      exists (connects w). now rewrite Hpg.
    + destruct e; try (injection Hrun as <- <-; split; [reflexivity | discriminate]).
      unfold sleep in Hrun. change (seconds 1 <? 0) with false in Hrun.
      destruct (IH _ _ _ Hrun) as [Hreq Htrue]. split; [exact Hreq | exact Htrue].
  - injection Hrun as <- <-. split; [reflexivity | discriminate].
Qed.

(** When a connection attempt never takes negative time and raises
    nothing but [OperationalError], the loop is left with a boolean. *)
Lemma poll_postgres_returns fuel : forall w,
  (forall n, 0 <= snd (pg_connect env n)) ->
  (forall n e, fst (pg_connect env n) = Raised e -> exists m, e = OperationalError m) ->
  (Z.to_nat (timeout - (now w - start)) < fuel)%nat ->
  exists b w',
    poll_postgres fuel env timeout start w = Some (Returned b, w')
    /\ (b = false ->
        timeout <= now w' - start
        /\ exists l, log w' = l ++ [error "PostgreSQL did not become ready within timeout"]).
Proof.
  induction fuel as [|fuel IH]; intros w Hlat Hexn Hfuel; [lia|].
  simpl.
  destruct (now w - start <? timeout) eqn:Hin.
  - apply Z.ltb_lt in Hin.
    pose proof (Hlat (connects w)) as Hd. pose proof (Hexn (connects w)) as He.
    destruct (pg_connect env (connects w)) as [res d]. simpl in Hd, He.
    destruct res as [[]|e].
    + eexists true, _. split; [reflexivity | discriminate].
    + destruct (He e eq_refl) as [m ->].
      unfold sleep. change (seconds 1 <? 0) with false. cbv iota.
      apply IH; try assumption.
      simpl. unfold seconds. lia.
  - apply Z.ltb_ge in Hin.
    eexists false, _. split; [reflexivity|]. intros _. simpl. split; [lia|].
    now exists (log w).
Qed.

End Postgres.

(** X4: With a non-negative interval and probes that take no negative time,
    every probe of [wait_for_service] but the first follows a sleep inside
    the window: when [n >= 1] requests were sent, [(n - 1) * interval] is
    below the timeout.  With the defaults (30 s, 1 s) that is at most 30
    requests. *)
Theorem wait_for_service_request_bound env url timeout interval w fuel r w' :
  0 <= interval ->
  (forall n, 0 <= latency env url n) ->
  wait_for_service fuel env url timeout interval w = Some (r, w') ->
  (requests w <= requests w')%nat
  /\ (requests w' = requests w
      \/ (Z.of_nat (requests w' - requests w) - 1) * interval < timeout).
Proof.
  intros Hi Hlat Hrun. unfold wait_for_service in Hrun.
  apply (poll_request_bound env url timeout interval (now w) fuel w 0 r w' Hi Hlat);
    [simpl; lia | exact Hrun].
Qed.

Lemma always_down_latency_nonneg n : 0 <= latency always_down "http://localhost:8001" n.
Proof. unfold latency. simpl. destruct (Nat.even n); discriminate. Defined.

Lemma wait_for_service_request_bound_witness :
  (requests boot
   <= requests {| now := 1000; requests := 2; connects := 0;
                  log := [debug "Service not yet available";
                          error "Service did not become available within timeout"] |})%nat
  /\ (2%nat = requests boot \/ (Z.of_nat (2 - requests boot) - 1) * 400 < 1000).
Proof.
  exact (wait_for_service_request_bound always_down "http://localhost:8001" 1000 400 boot 10
           (Returned false) _ ltac:(discriminate) always_down_latency_nonneg eq_refl).
Defined.

(** X5: A probe that raises anything but a [RequestException] ends the wait:
    after [k] not-ready probes inside the window, such an exception of probe
    [k] leaves [wait_for_service] with [k + 1] requests sent, and no sleep
    after it. *)
Theorem wait_for_service_propagates env url timeout interval w k fuel e :
  0 <= interval ->
  (k < fuel)%nat ->
  (forall j, (j < k)%nat ->
     issue_time env url interval w j - now w < timeout
     /\ not_ready (outcome env url (requests w + j)) = true) ->
  issue_time env url interval w k - now w < timeout ->
  outcome env url (requests w + k) = Raised e ->
  (forall m, e <> RequestException m) ->
  exists w',
    wait_for_service fuel env url timeout interval w = Some (Raised e, w')
    /\ requests w' = (requests w + k + 1)%nat
    /\ now w' = issue_time env url interval w k + latency env url (requests w + k).
Proof.
  intros Hi Hfuel Hbefore Hin Ho Hne.
  assert (Hskip : wait_for_service fuel env url timeout interval w
                  = poll (fuel - k) env url timeout interval (now w)
                         (advance env url interval k w)).
  { unfold wait_for_service.
    replace fuel with (k + (fuel - k))%nat at 1 by lia.
    apply poll_advance; [assumption|].
    intros j Hj. rewrite now_advance, requests_advance. now apply Hbefore. }
  destruct (fuel - k)%nat as [|f] eqn:Hf; [lia|].
  assert (Hrun : poll (S f) env url timeout interval (now w) (advance env url interval k w)
                 = Some (Raised e,
                         tick (latency env url (requests w + k))
                              (sent (advance env url interval k w)))).
  { simpl. rewrite now_advance. apply Z.ltb_lt in Hin. rewrite Hin.
    rewrite requests_get_split, requests_advance, Ho.
    destruct e; try reflexivity. now elim (Hne msg). }
  eexists. split; [rewrite Hskip; exact Hrun|].
  simpl. rewrite requests_advance, now_advance. split; [lia | reflexivity].
Qed.

Lemma wait_for_service_propagates_witness :
  exists w',
    wait_for_service 10 breaks_on_second "http://localhost:8001" (seconds 30) (seconds 1) boot
    = Some (Raised (OtherException "UnicodeError"), w')
    /\ requests w' = 2%nat
    /\ now w' = 1040.
Proof.
  refine (wait_for_service_propagates breaks_on_second "http://localhost:8001"
            (seconds 30) (seconds 1) boot 1 10 (OtherException "UnicodeError")
            _ _ _ _ _ _).
  - vm_compute. discriminate.
  - lia.
  - intros j Hj. destruct j as [|j]; [vm_compute; auto | lia].
  - vm_compute. reflexivity.
  - reflexivity.
  - intros m. discriminate.
Defined.

(** X6: When a connection attempt takes no negative time and raises nothing
    but [OperationalError], [wait_for_postgres] returns a boolean (for every
    sufficient fuel, the same one) without sending any HTTP request; [True]
    means that some attempt connected, [False] that the window had elapsed
    and the error was logged. *)
Theorem wait_for_postgres_returns env timeout w :
  (forall n, 0 <= snd (pg_connect env n)) ->
  (forall n e, fst (pg_connect env n) = Raised e -> exists m, e = OperationalError m) ->
  exists fuel b w',
    (forall fuel', (fuel <= fuel')%nat ->
       wait_for_postgres fuel' env timeout w = Some (Returned b, w'))
    /\ requests w' = requests w
    /\ (b = true -> exists n, fst (pg_connect env n) = Returned tt)
    /\ (b = false ->
        timeout <= now w' - now w
        /\ exists l, log w' = l ++ [error "PostgreSQL did not become ready within timeout"]).
Proof.
  intros Hlat Hexn.
  destruct (poll_postgres_returns env timeout (now w)
              (S (Z.to_nat (timeout - (now w - now w)))) w Hlat Hexn ltac:(lia))
    as [b [w' [Hrun Hfalse]]].
  destruct (poll_postgres_keeps_requests env timeout (now w) _ _ _ _ Hrun) as [Hreq Htrue].
  exists (S (Z.to_nat (timeout - (now w - now w)))), b, w'.
  split; [|split; [exact Hreq | split; [|exact Hfalse]]].
  - intros fuel' Hle. unfold wait_for_postgres.
    now apply (poll_postgres_fuel_mono env timeout (now w) _ fuel' w _ Hle).
  - intros ->. now apply Htrue.
Qed.

Lemma pg_down_latency n : 0 <= snd (pg_connect pg_down n).
Proof. discriminate. Defined.

Lemma pg_down_exceptions n e :
  fst (pg_connect pg_down n) = Raised e -> exists m, e = OperationalError m.
Proof. simpl. intros H. injection H as <-. now eexists. Defined.

Lemma wait_for_postgres_returns_witness :
  exists fuel b w',
    (forall fuel', (fuel <= fuel')%nat ->
       wait_for_postgres fuel' pg_down (seconds 3) boot = Some (Returned b, w'))
    /\ requests w' = requests boot
    /\ (b = true -> exists n, fst (pg_connect pg_down n) = Returned tt)
    /\ (b = false ->
        seconds 3 <= now w' - now boot
        /\ exists l, log w' = l ++ [error "PostgreSQL did not become ready within timeout"]).
Proof.
  exact (wait_for_postgres_returns pg_down (seconds 3) boot pg_down_latency pg_down_exceptions).
Defined.

(** ** The session fixture *)






End ProberSpec.

(* ================================================================== *)
(** * Properties of the fixture factories *)
(* ================================================================== *)

Module FixturesSpec.
Import Py Fixtures.

(** ** Sanity checks *)

Example demo_phone :
  phone (fst (generate_test_driver_data demo_source None fresh)) = "+79123456789".
Proof. reflexivity. Qed.

Example demo_batch_timestamps :
  map timestamp (fst (generate_batch_location_data demo_source 3 [] fresh))
  = [1699999970; 1699999980; 1699999990].
Proof. reflexivity. Qed.

Example phone_pattern_examples :
  map phone_pattern ["+79123456789"; "+7912345678"; "89123456789"; "+7912345678a"]
  = [true; false; false; false].
Proof. reflexivity. Qed.

Example round_half_even_examples :
  map round_half_even [5 # 2; 7 # 2; -5 # 2; -26 # 10]%Q = [2; 4; -2; -3].
Proof. reflexivity. Qed.

(** ** Decimal text *)

Lemma is_digit_digit_char d : 0 <= d < 10 -> is_digit (digit_char d) = true.
Proof.
  intros H.
  assert (C : d = 0 \/ d = 1 \/ d = 2 \/ d = 3 \/ d = 4 \/ d = 5 \/ d = 6
              \/ d = 7 \/ d = 8 \/ d = 9) by lia.
  repeat (destruct C as [-> | C]; [reflexivity|]). now subst.
Qed.

Lemma pow10_succ k : 10 ^ Z.of_nat (S k) = 10 * 10 ^ Z.of_nat k.
Proof. rewrite Nat2Z.inj_succ. apply Z.pow_succ_r. lia. Qed.

(** A number with exactly [k+1] decimal digits is rendered as [k+1] digit
    characters. *)
Lemma decimal_digits k : forall fuel n acc m,
  (S k <= fuel)%nat ->
  10 ^ Z.of_nat k <= n < 10 ^ Z.of_nat (S k) ->
  digits_then_end (S k + m) (decimal fuel n acc) = digits_then_end m acc.
Proof.
  induction k as [|k IH]; intros fuel n acc m Hfuel Hn.
  - destruct fuel as [|fuel]; [lia|]. simpl in Hn. cbn [decimal].
    assert (Hlt : (n <? 10) = true) by (apply Z.ltb_lt; lia).
    rewrite Hlt. cbn [digits_then_end Nat.add].
    rewrite is_digit_digit_char by (apply Z.mod_pos_bound; lia).
    reflexivity.
  - destruct fuel as [|fuel]; [lia|].
    rewrite (pow10_succ (S k)), (pow10_succ k) in Hn.
    assert (Hpos : 0 < 10 ^ Z.of_nat k) by (apply Z.pow_pos_nonneg; lia).
    cbn [decimal].
    assert (Hge : (n <? 10) = false) by (apply Z.ltb_ge; lia).
    rewrite Hge.
    replace (S (S k) + m)%nat with (S k + S m)%nat by lia.
    rewrite IH.
    + cbn [digits_then_end Nat.add].
      rewrite is_digit_digit_char by (apply Z.mod_pos_bound; lia).
      reflexivity.
    + lia.
    + rewrite pow10_succ. split.
      * apply Z.div_le_lower_bound; lia.
      * apply Z.div_lt_upper_bound; lia.
Qed.

Lemma str_int_ten_digits n :
  1000000000 <= n < 10000000000 -> digits_then_end 10 (str_int n) = true.
Proof.
  intros Hn. unfold str_int.
  assert (Hneg : (n <? 0) = false) by (apply Z.ltb_ge; lia).
  rewrite Hneg.
  change 10%nat with (S 9 + 0)%nat.
  rewrite decimal_digits; [reflexivity | | ].
  - unfold digits_fuel.
    assert (29 <= Z.log2 n).
    { change 29 with (Z.log2 1000000000). apply Z.log2_le_mono. lia. }
    lia.
  - change (10 ^ Z.of_nat 9) with 1000000000.
    change (10 ^ Z.of_nat 10) with 10000000000. exact Hn.
Qed.

(** ** The generated phone *)

Lemma generated_phone src s :
  phone (fst (generate_test_driver_data src None s))
  = ("+7" ++ str_int (9000000000 + raw src (drawn s) mod 1000000000))%string.
Proof.
  unfold generate_test_driver_data, boolean, random_element, random_int, bind, ret, draw.
  cbn [drawn reads].
  match goal with |- context [if ?b then _ else _] => destruct b end; reflexivity.
Qed.

(** ** Rational arithmetic of the coordinates *)

Lemma mod1_bounds x : (0 <= mod1 x)%Q /\ (mod1 x < 1)%Q.
Proof.
  unfold mod1. pose proof (Qfloor_le x) as Hlo. pose proof (Qlt_floor x) as Hhi.
  rewrite inject_Z_plus in Hhi. change (inject_Z 1) with 1%Q in Hhi.
  split; lra.
Qed.

Lemma round_half_even_bounds x :
  Qfloor x <= round_half_even x <= Qfloor x + 1.
Proof.
  unfold round_half_even.
  destruct (x - inject_Z (Qfloor x) ?= 1 # 2)%Q; [destruct (Z.even (Qfloor x))| |]; lia.
Qed.

(** Rounding to six places keeps a value between two bounds that are
    themselves whole numbers of millionths. *)
Lemma round6_between (lo hi : Z) x :
  (inject_Z lo <= x * 1000000)%Q -> (x * 1000000 < inject_Z hi)%Q ->
  (lo # 1000000 <= round6 x)%Q /\ (round6 x <= hi # 1000000)%Q.
Proof.
  intros Hlo Hhi.
  pose proof (round_half_even_bounds (x * 1000000)) as [Hr1 Hr2].
  assert (H1 : lo <= Qfloor (x * 1000000)).
  { rewrite <- (Qfloor_Z lo). now apply Qfloor_resp_le. }
  assert (H2 : Qfloor (x * 1000000) < hi).
  { apply Z.lt_nge. intros Hge.
    apply (Qlt_irrefl (x * 1000000)).
    eapply Qlt_le_trans; [exact Hhi|].
    eapply Qle_trans; [|apply Qfloor_le].
    rewrite <- Zle_Qle. exact Hge. }
  unfold round6.
  split; unfold Qle; simpl; lia.
Qed.

Lemma shifted_latitude_bounds l :
  let lat := ((557558 # 10000) + (mod1 l - (1 # 2)) * (1 # 2))%Q in
  (inject_Z 55505800 <= lat * 1000000)%Q /\ (lat * 1000000 < inject_Z 56005800)%Q.
Proof.
  cbv zeta. destruct (mod1_bounds l) as [H0 H1]. unfold inject_Z. split; lra.
Qed.

Lemma shifted_longitude_bounds l :
  let lon := ((376176 # 10000) + (mod1 l - (1 # 2)) * (1 # 2))%Q in
  (inject_Z 37367600 <= lon * 1000000)%Q /\ (lon * 1000000 < inject_Z 37867600)%Q.
Proof.
  cbv zeta. destruct (mod1_bounds l) as [H0 H1]. unfold inject_Z. split; lra.
Qed.

(** The generated coordinates, read off the factory. *)
Lemma generated_latitude src kw s :
  exists l, latitude (fst (generate_test_location_data src None None kw s))
            = round6 ((557558 # 10000) + (mod1 l - (1 # 2)) * (1 # 2))%Q.
Proof. eexists. reflexivity. Qed.

Lemma generated_longitude src kw s :
  exists l, longitude (fst (generate_test_location_data src None None kw s))
            = round6 ((376176 # 10000) + (mod1 l - (1 # 2)) * (1 # 2))%Q.
Proof. eexists. reflexivity. Qed.

(** Without overrides every generated location lies in the Moscow box. *)
Lemma generated_location_in_moscow_box src kw s :
  let loc := fst (generate_test_location_data src None None kw s) in
  (555058 # 10000 <= latitude loc)%Q /\ (latitude loc <= 560058 # 10000)%Q
  /\ (373676 # 10000 <= longitude loc)%Q /\ (longitude loc <= 378676 # 10000)%Q.
Proof.
  cbv zeta.
  destruct (generated_latitude src kw s) as [l ->].
  destruct (generated_longitude src kw s) as [l' ->].
  destruct (shifted_latitude_bounds l) as [A1 A2].
  destruct (shifted_longitude_bounds l') as [B1 B2].
  destruct (round6_between _ _ _ A1 A2) as [C1 C2].
  destruct (round6_between _ _ _ B1 B2) as [D1 D2].
  repeat split; lra.
Qed.

(** ** C7 *)

(** C7: with no overrides, the generated driver phone matches
    [^\+7\d{10}$], and the generated latitude and longitude, after the shift
    into the Moscow region and the rounding to six decimals, lie in
    [-90, 90] and [-180, 180]. *)
Theorem generated_fixtures_are_valid src kw s :
  phone_pattern (phone (fst (generate_test_driver_data src None s))) = true
  /\ (let loc := fst (generate_test_location_data src None None kw s) in
      (inject_Z (-90) <= latitude loc)%Q /\ (latitude loc <= inject_Z 90)%Q
      /\ (inject_Z (-180) <= longitude loc)%Q /\ (longitude loc <= inject_Z 180)%Q).
Proof.
  split.
  - rewrite generated_phone.
    change (digits_then_end 10
              (str_int (9000000000 + raw src (drawn s) mod 1000000000)) = true).
    apply str_int_ten_digits.
    pose proof (Z.mod_pos_bound (raw src (drawn s)) 1000000000 ltac:(lia)). lia.
  - pose proof (generated_location_in_moscow_box src kw s) as H. cbv zeta in *.
    destruct H as [H1 [H2 [H3 H4]]].
    unfold inject_Z. repeat split; lra.
Qed.

(** ** The batch loop *)

Lemma batch_loop_timestamps src kw base n : forall i s,
  map timestamp (fst (batch_loop src kw base i n s))
  = map (fun j => base + (i + Z.of_nat j) * 10) (seq 0 n).
Proof.
  induction n as [|n IH]; intros i s; [reflexivity|].
  simpl batch_loop. unfold bind at 1.
  destruct (call_with src kw s) as [loc s1].
  unfold bind at 1.
  specialize (IH (i + 1) s1).
  destruct (batch_loop src kw base (i + 1) n s1) as [rest s2].
  simpl in *. rewrite IH. f_equal.
  - f_equal. lia.
  - rewrite <- seq_shift, map_map. apply map_ext. intros j. f_equal. lia.
Qed.

Lemma batch_timestamps src count kw s :
  map timestamp (fst (generate_batch_location_data src count kw s))
  = map (fun j => clock src (reads s) - count * 10 + Z.of_nat j * 10)
        (seq 0 (Z.to_nat count)).
Proof.
  unfold generate_batch_location_data, bind, time_time.
  rewrite batch_loop_timestamps. apply map_ext. intros j. lia.
Qed.

(** ** C8 *)

(** C8: for [count >= 1] the batch has exactly [count] payloads; the i-th
    timestamp is [base_time + 10 * i] with
    [base_time = int(time.time()) - 10 * count], so consecutive timestamps
    are exactly 10 seconds apart and strictly increasing. *)
Theorem generate_batch_location_data_timestamps src count kw s :
  1 <= count ->
  let batch := fst (generate_batch_location_data src count kw s) in
  let ts := map timestamp batch in
  Z.of_nat (List.length batch) = count
  /\ ts = map (fun j => clock src (reads s) - count * 10 + Z.of_nat j * 10)
              (seq 0 (Z.to_nat count))
  /\ (forall i, (S i < List.length batch)%nat ->
        nth (S i) ts 0 - nth i ts 0 = 10 /\ nth i ts 0 < nth (S i) ts 0).
Proof.
  intros Hcount. cbv zeta.
  pose proof (batch_timestamps src count kw s) as Hts.
  assert (Hlen : List.length (fst (generate_batch_location_data src count kw s))
                 = Z.to_nat count).
  { rewrite <- (length_map timestamp), Hts, length_map, length_seq. reflexivity. }
  split; [rewrite Hlen; lia|]. split; [exact Hts|].
  intros i Hi. rewrite Hts. rewrite Hlen in Hi.
  set (f := fun j => clock src (reads s) - count * 10 + Z.of_nat j * 10).
  assert (Hnth : forall j, (j < Z.to_nat count)%nat ->
                   nth j (map f (seq 0 (Z.to_nat count))) 0 = f j).
  { intros j Hj. rewrite (nth_indep _ 0 (f 0%nat)) by (rewrite length_map, length_seq; lia).
    rewrite map_nth, seq_nth by lia. reflexivity. }
  rewrite !Hnth by lia. unfold f. lia.
Qed.

Lemma generate_batch_location_data_timestamps_witness :
  Z.of_nat (List.length (fst (generate_batch_location_data demo_source 3 [] fresh))) = 3
  /\ map timestamp (fst (generate_batch_location_data demo_source 3 [] fresh))
     = [1699999970; 1699999980; 1699999990].
Proof.
  destruct (generate_batch_location_data_timestamps demo_source 3 [] fresh ltac:(lia))
    as [Hlen [Hts _]].
  split; [exact Hlen | exact Hts].
Defined.

(** ** Numbers of a given width *)

Lemma decimal_length k : forall fuel n acc,
  (S k <= fuel)%nat ->
  10 ^ Z.of_nat k <= n < 10 ^ Z.of_nat (S k) ->
  String.length (decimal fuel n acc) = (S k + String.length acc)%nat.
Proof.
  induction k as [|k IH]; intros fuel n acc Hfuel Hn.
  - destruct fuel as [|fuel]; [lia|]. simpl in Hn. cbn [decimal].
    assert (Hlt : (n <? 10) = true) by (apply Z.ltb_lt; lia).
    rewrite Hlt. reflexivity.
  - destruct fuel as [|fuel]; [lia|].
    rewrite (pow10_succ (S k)), (pow10_succ k) in Hn.
    assert (Hpos : 0 < 10 ^ Z.of_nat k) by (apply Z.pow_pos_nonneg; lia).
    cbn [decimal].
    assert (Hge : (n <? 10) = false) by (apply Z.ltb_ge; lia).
    rewrite Hge. rewrite IH.
    + cbn [String.length]. lia.
    + lia.
    + rewrite pow10_succ. split.
      * apply Z.div_le_lower_bound; lia.
      * apply Z.div_lt_upper_bound; lia.
Qed.

Lemma digits_fuel_enough k n : 10 ^ Z.of_nat k <= n -> (S k <= digits_fuel n)%nat.
Proof.
  intros Hn. unfold digits_fuel.
  assert (H2 : 2 ^ Z.of_nat k <= n).
  { eapply Z.le_trans; [|exact Hn]. apply Z.pow_le_mono_l. lia. }
  assert (Hlog : Z.of_nat k <= Z.log2 n).
  { rewrite <- (Z.log2_pow2 (Z.of_nat k)) by lia. now apply Z.log2_le_mono. }
  lia.
Qed.

(** [str(n)] for a number of exactly [k+1] decimal digits: [k+1]
    characters, all of them digits. *)
Lemma str_int_width k n :
  10 ^ Z.of_nat k <= n < 10 ^ Z.of_nat (S k) ->
  String.length (str_int n) = S k /\ digits_then_end (S k) (str_int n) = true.
Proof.
  intros Hn. unfold str_int.
  assert (Hpos : 0 < 10 ^ Z.of_nat k) by (apply Z.pow_pos_nonneg; lia).
  assert (Hneg : (n <? 0) = false) by (apply Z.ltb_ge; lia).
  rewrite Hneg. split.
  - rewrite (decimal_length k); [simpl; lia | apply digits_fuel_enough; lia | exact Hn].
  - replace (S k) with (S k + 0)%nat at 1 by lia.
    rewrite decimal_digits; [reflexivity | apply digits_fuel_enough; lia | exact Hn].
Qed.

(** The fields of a generated driver, read off the factory: each comes
    from one draw. *)
Lemma generated_documents src phone_arg s :
  let d := fst (generate_test_driver_data src phone_arg s) in
  exists a b c r,
    passport_series d = str_int (1000 + a mod 9000)
    /\ passport_number d = str_int (100000 + b mod 900000)
    /\ license_number d
       = (nth (Z.to_nat (r mod 4)) ["77"; "97"; "99"; "177"] "" ++ str_int (100000 + c mod 900000))%string.
Proof.
  cbv zeta.
  unfold generate_test_driver_data, boolean, random_element, random_int, bind, ret, draw.
  destruct phone_arg as [p|]; cbn [drawn reads fst snd List.length Z.of_nat];
    match goal with |- context [if ?b then _ else _] => destruct b end;
    cbn [fst passport_series passport_number license_number];
    do 4 eexists; repeat split; reflexivity.
Qed.

(** X9: Whatever the phone argument, the generated passport series is four
    digits, the passport number six digits, and the licence number one of
    the region codes 77, 97, 99, 177 followed by six digits; a phone that is
    passed in is returned as it is. *)
Theorem generated_documents_format src phone_arg s :
  let d := fst (generate_test_driver_data src phone_arg s) in
  (forall p, phone_arg = Some p -> phone d = p)
  /\ String.length (passport_series d) = 4%nat
  /\ digits_then_end 4 (passport_series d) = true
  /\ String.length (passport_number d) = 6%nat
  /\ digits_then_end 6 (passport_number d) = true
  /\ exists region serial,
       In region ["77"; "97"; "99"; "177"]
       /\ license_number d = (region ++ serial)%string
       /\ String.length serial = 6%nat
       /\ digits_then_end 6 serial = true.
Proof.
  cbv zeta. split.
  - intros p ->.
    unfold generate_test_driver_data, boolean, random_element, random_int, bind, ret, draw.
    cbn [drawn reads fst snd].
    match goal with |- context [if ?b then _ else _] => destruct b end; reflexivity.
  - destruct (generated_documents src phone_arg s) as [a [b [c [r [Hs [Hn Hl]]]]]].
    cbv zeta in *. rewrite Hs, Hn, Hl.
    pose proof (Z.mod_pos_bound a 9000 ltac:(lia)) as Ha.
    pose proof (Z.mod_pos_bound b 900000 ltac:(lia)) as Hb.
    pose proof (Z.mod_pos_bound c 900000 ltac:(lia)) as Hc.
    pose proof (Z.mod_pos_bound r 4 ltac:(lia)) as Hr.
    destruct (str_int_width 3 (1000 + a mod 9000)) as [A1 A2];
      [change (10 ^ Z.of_nat 3) with 1000; change (10 ^ Z.of_nat 4) with 10000; lia|].
    destruct (str_int_width 5 (100000 + b mod 900000)) as [B1 B2];
      [change (10 ^ Z.of_nat 5) with 100000; change (10 ^ Z.of_nat 6) with 1000000; lia|].
    destruct (str_int_width 5 (100000 + c mod 900000)) as [C1 C2];
      [change (10 ^ Z.of_nat 5) with 100000; change (10 ^ Z.of_nat 6) with 1000000; lia|].
    repeat (split; [assumption|]).
    eexists _, _. split; [|split; [reflexivity | split; [exact C1 | exact C2]]].
    assert (Hcase : r mod 4 = 0 \/ r mod 4 = 1 \/ r mod 4 = 2 \/ r mod 4 = 3) by lia.
    destruct Hcase as [-> | [-> | [-> | ->]]]; simpl; tauto.
Qed.

(** ** The other fields of a location *)

(** X10: Whatever the coordinates passed in, a generated location has an
    accuracy in 1..10, a speed in 0..80 and a bearing in 0..359, its
    timestamp is the one reading of the clock the call makes, and it has an
    altitude exactly when the keyword argument [altitude] is given. *)
Theorem generated_location_fields src latitude_arg longitude_arg kw s :
  let run := generate_test_location_data src latitude_arg longitude_arg kw s in
  let loc := fst run in
  1 <= accuracy loc <= 10
  /\ 0 <= speed loc <= 80
  /\ 0 <= bearing loc < 360
  /\ timestamp loc = clock src (reads s)
  /\ reads (snd run) = S (reads s)
  /\ altitude loc = lookup "altitude" kw.
Proof.
  cbv zeta.
  unfold generate_test_location_data, fake_latitude, fake_longitude, coordinate,
    random_int, time_time, bind, ret, draw.
  destruct latitude_arg, longitude_arg; cbn [fst snd drawn reads accuracy speed bearing
                                              timestamp altitude];
    repeat match goal with
           | |- context [?x mod ?m] =>
               lazymatch goal with
               | _ : 0 <= x mod m < m |- _ => fail
               | _ => pose proof (Z.mod_pos_bound x m ltac:(lia))
               end
           end;
    repeat split; try reflexivity; lia.
Qed.

(** ** Explicit coordinates *)

Lemma location_call src latitude_arg longitude_arg kw s :
  let run := generate_test_location_data src latitude_arg longitude_arg kw s in
  reads (snd run) = S (reads s)
  /\ altitude (fst run) = lookup "altitude" kw
  /\ (forall lat, latitude_arg = Some lat -> latitude (fst run) = round6 lat)
  /\ (forall lon, longitude_arg = Some lon -> longitude (fst run) = round6 lon).
Proof.
  cbv zeta.
  unfold generate_test_location_data, fake_latitude, fake_longitude, coordinate,
    random_int, time_time, bind, ret, draw.
  destruct latitude_arg, longitude_arg; cbn [fst snd drawn reads altitude latitude longitude];
    repeat split; try reflexivity; intros ? H; try discriminate; now injection H as <-.
Qed.


Lemma round6_millionths k : round6 (k # 1000000) = (k # 1000000)%Q.
Proof.
  unfold round6. f_equal. unfold round_half_even.
  assert (Hf : Qfloor ((k # 1000000) * 1000000) = k).
  { unfold Qfloor. simpl. apply Z.div_mul. lia. }
  rewrite Hf.
  assert (Hc : ((k # 1000000) * 1000000 - inject_Z k ?= 1 # 2)%Q = Lt).
  { apply (proj1 (Qlt_alt _ _)). unfold Qlt. simpl. lia. }
  now rewrite Hc.
Qed.

Lemma round_half_even_near x :
  (inject_Z (round_half_even x) - x <= 1 # 2)%Q
  /\ (x - inject_Z (round_half_even x) <= 1 # 2)%Q.
Proof.
  unfold round_half_even.
  pose proof (Qfloor_le x) as Hlo. pose proof (Qlt_floor x) as Hhi.
  rewrite inject_Z_plus in Hhi. change (inject_Z 1) with 1%Q in Hhi.
  destruct (x - inject_Z (Qfloor x) ?= 1 # 2)%Q eqn:Hc.
  - apply Qeq_alt in Hc.
    destruct (Z.even (Qfloor x)); rewrite ?inject_Z_plus; change (inject_Z 1) with 1%Q;
      split; lra.
  - apply Qlt_alt in Hc. split; lra.
  - apply Qgt_alt in Hc. rewrite inject_Z_plus. change (inject_Z 1) with 1%Q. split; lra.
Qed.

Lemma round6_near x :
  (round6 x - x <= 1 # 2000000)%Q /\ (x - round6 x <= 1 # 2000000)%Q.
Proof.
  destruct (round_half_even_near (x * 1000000)) as [H1 H2].
  unfold round6.
  assert (E : (round_half_even (x * 1000000) # 1000000
               == inject_Z (round_half_even (x * 1000000)) * (1 # 1000000))%Q).
  { unfold Qeq, inject_Z. simpl. lia. }
  rewrite E. split; lra.
Qed.

(** X11: A coordinate that is passed in is neither shifted nor checked, only
    rounded: the result is within half a millionth of it, and a value with
    at most six decimals comes back unchanged, whatever its size. *)
Theorem explicit_coordinates_rounded_only src latitude_arg longitude_arg kw s :
  let loc := fst (generate_test_location_data src latitude_arg longitude_arg kw s) in
  (forall lat, latitude_arg = Some lat ->
     (latitude loc - lat <= 1 # 2000000)%Q /\ (lat - latitude loc <= 1 # 2000000)%Q
     /\ (forall k, lat = (k # 1000000)%Q -> latitude loc = lat))
  /\ (forall lon, longitude_arg = Some lon ->
       (longitude loc - lon <= 1 # 2000000)%Q /\ (lon - longitude loc <= 1 # 2000000)%Q
       /\ (forall k, lon = (k # 1000000)%Q -> longitude loc = lon)).
Proof.
  cbv zeta.
  pose proof (location_call src latitude_arg longitude_arg kw s) as H. cbv zeta in H.
  destruct H as [_ [_ [Hlat Hlon]]].
  split.
  - intros lat Harg. rewrite (Hlat lat Harg).
    destruct (round6_near lat) as [A1 A2].
    split; [exact A1 | split; [exact A2|]]. intros k ->. apply round6_millionths.
  - intros lon Harg. rewrite (Hlon lon Harg).
    destruct (round6_near lon) as [B1 B2].
    split; [exact B1 | split; [exact B2|]]. intros k ->. apply round6_millionths.
Qed.

(** ** The elements of a batch *)

(** Every element of the batch is a location of [generate_test_location_data],
    called with the batch's keyword arguments, with its timestamp replaced. *)
Lemma batch_loop_elements src kw base n : forall i s l,
  In l (fst (batch_loop src kw base i n s)) ->
  exists s1 t, l = set_timestamp t (fst (call_with src kw s1)).
Proof.
  induction n as [|n IH]; intros i s l Hin; [contradiction|].
  simpl batch_loop in Hin. unfold bind at 1 in Hin.
  destruct (call_with src kw s) as [loc s1] eqn:Hcall.
  unfold bind at 1 in Hin.
  destruct (batch_loop src kw base (i + 1) n s1) as [rest s2] eqn:Hrest.
  simpl in Hin. destruct Hin as [<- | Hin].
  - exists s, (base + i * 10). now rewrite Hcall.
  - apply (IH (i + 1) s1 l). now rewrite Hrest.
Qed.

Lemma batch_loop_reads src kw base n : forall i s,
  reads (snd (batch_loop src kw base i n s)) = (reads s + n)%nat.
Proof.
  induction n as [|n IH]; intros i s; [simpl; lia|].
  simpl batch_loop. unfold bind at 1.
  destruct (call_with src kw s) as [loc s1] eqn:Hcall.
  unfold bind at 1.
  specialize (IH (i + 1) s1).
  destruct (batch_loop src kw base (i + 1) n s1) as [rest s2].
  simpl in *. rewrite IH.
  assert (H1 : reads s1 = S (reads s)).
  { pose proof (location_call src (lookup "latitude" kw) (lookup "longitude" kw) kw s) as H.
    cbv zeta in H. unfold call_with in Hcall. rewrite Hcall in H. now destruct H. }
  lia.
Qed.

(** X12: A count of zero or less gives the empty batch.  Every element of a
    batch lies in the past, between [now - 10 * count] and [now - 10]
    seconds, and is generated with the batch's keyword arguments: an
    [altitude], a [latitude] or a [longitude] given to the batch reaches
    every element.  The clock is read once for the base time and once per
    element. *)
Theorem generate_batch_location_data_elements src count kw s :
  let run := generate_batch_location_data src count kw s in
  let now := clock src (reads s) in
  (count <= 0 -> fst run = [])
  /\ (forall l, In l (fst run) ->
        now - count * 10 <= timestamp l <= now - 10
        /\ altitude l = lookup "altitude" kw
        /\ (forall lat, lookup "latitude" kw = Some lat -> latitude l = round6 lat)
        /\ (forall lon, lookup "longitude" kw = Some lon -> longitude l = round6 lon))
  /\ reads (snd run) = (reads s + 1 + Z.to_nat count)%nat.
Proof.
  cbv zeta. split; [|split].
  - intros Hc. unfold generate_batch_location_data, bind, time_time.
    replace (Z.to_nat count) with 0%nat by lia. reflexivity.
  - intros l Hin. split.
    + pose proof (batch_timestamps src count kw s) as Hts.
      assert (Ht : In (timestamp l)
                      (map timestamp (fst (generate_batch_location_data src count kw s))))
        by now apply in_map.
      rewrite Hts in Ht. apply in_map_iff in Ht. destruct Ht as [j [Hj Hseq]].
      apply in_seq in Hseq. lia.
    + unfold generate_batch_location_data, bind, time_time in Hin.
      destruct (batch_loop_elements _ _ _ _ _ _ _ Hin) as [s1 [t ->]].
      pose proof (location_call src (lookup "latitude" kw) (lookup "longitude" kw) kw s1) as H.
      cbv zeta in H. destruct H as [_ [Ha [Hlat Hlon]]].
      unfold call_with. cbn [set_timestamp altitude latitude longitude].
      split; [exact Ha | split; [exact Hlat | exact Hlon]].
  - unfold generate_batch_location_data, bind, time_time.
    rewrite batch_loop_reads. simpl. lia.
Qed.

End FixturesSpec.

(* ================================================================== *)
(** * Properties of the event handler and of the correlation tests *)
(* ================================================================== *)

Module BusSpec.
Import Py Json Bus.

(** ** Sanity checks *)

Example loads_examples :
  (loads "invalid json", loads "42", loads " [1, 2 ,3] ", loads "[1,]", loads "{}")
  = (Raised JSONDecodeError, Returned (JInt 42),
     Returned (JList [JInt 1; JInt 2; JInt 3]), Raised JSONDecodeError,
     Returned (JDict [])).
Proof. reflexivity. Qed.

Example loads_dumps_registered :
  loads (dumps (registered "d-new" "+79123456789"))
  = Returned (registered "d-new" "+79123456789").
Proof. reflexivity. Qed.

Example quiet_run :
  let run := test_driver_registered_event quiet_bus ivan start in
  fst run = Returned tt
  /\ trace (snd run)
     = [Subscribe "driver.registered"; Flush; Http "POST" "/api/v1/drivers"; Sleep 1000]
  /\ test_drivers (snd run) = [JStr "d-new"]
  /\ held_at_action (snd run) = Some 0%nat.
Proof. repeat split; reflexivity. Qed.

Example busy_run :
  let run := test_driver_registered_event busy_bus ivan start in
  fst run = Raised (AssertionError "")
  /\ received_events (snd run)
     = [registered "d-other" "+79000000000"; registered "d-new" "+79123456789"]
  /\ held_at_action (snd run) = Some 1%nat.
Proof. repeat split; reflexivity. Qed.

(** ** The library calls raise one exception each *)

Lemma decode_raises data e : decode data = Raised e -> e = UnicodeDecodeError.
Proof.
  unfold decode. destruct (utf8_valid _ data); intros H; [discriminate|].
  now injection H.
Qed.

Lemma loads_raises text e : loads text = Raised e -> e = JSONDecodeError.
Proof.
  unfold loads.
  destruct (parse_value _ (skip_ws text)) as [[v rest]|]; [|intros H; now injection H].
  destruct (skip_ws rest); intros H; [discriminate | now injection H].
Qed.

(** ** The three behaviours of the callback *)

Lemma event_handler_records msg text v events :
  decode (data msg) = Returned text -> loads text = Returned v ->
  event_handler msg events = (Returned tt, events ++ [v]).
Proof. intros Hd Hl. unfold event_handler. now rewrite Hd, Hl. Qed.

(** Text that is not JSON is dropped without an exception. *)
Lemma event_handler_drops_bad_json msg text e events :
  decode (data msg) = Returned text -> loads text = Raised e ->
  event_handler msg events = (Returned tt, events).
Proof.
  intros Hd Hl. unfold event_handler. rewrite Hd, Hl.
  now rewrite (loads_raises _ _ Hl).
Qed.

(** Octets that are not UTF-8 make the callback raise. *)
Lemma event_handler_raises_bad_utf8 msg e events :
  decode (data msg) = Raised e ->
  event_handler msg events = (Raised UnicodeDecodeError, events).
Proof.
  intros Hd. unfold event_handler. rewrite Hd.
  now rewrite (decode_raises _ _ Hd).
Qed.

(** The subscription outlives a message that was dropped or that made the
    callback raise: a later well-formed message on the subject is
    recorded. *)
Lemma dispatch_goes_on subs bad good text v events errors :
  existsb (String.eqb (subject good)) subs = true ->
  decode (data good) = Returned text -> loads text = Returned v ->
  (forall t w, decode (data bad) = Returned t -> loads t <> Returned w) ->
  fst (fold_left (dispatch subs) [bad; good] (events, errors)) = events ++ [v].
Proof.
  intros Hsub Hd Hl Hbad. simpl.
  assert (Hfirst : fst (dispatch subs (events, errors) bad) = events).
  { unfold dispatch.
    destruct (existsb (String.eqb (subject bad)) subs); [|reflexivity]. simpl.
    destruct (decode (data bad)) as [t|e] eqn:Hdb.
    - destruct (loads t) as [w|e] eqn:Hlb; [now elim (Hbad t w)|].
      now rewrite (event_handler_drops_bad_json _ _ _ _ Hdb Hlb).
    - now rewrite (event_handler_raises_bad_utf8 _ _ _ Hdb). }
  destruct (dispatch subs (events, errors) bad) as [ev1 er1]. simpl in Hfirst. subst ev1.
  unfold dispatch. rewrite Hsub. simpl.
  now rewrite (event_handler_records _ _ _ _ Hd Hl).
Qed.

(** ** C3 *)

(** C3 at its failing inputs: every payload that is not UTF-8, such as the
    single octet 255, makes [event_handler] raise [UnicodeDecodeError],
    which the [except json.JSONDecodeError] clause does not catch; and a
    payload that is JSON but not a JSON object, such as the text 42, is
    recorded, not dropped. *)
Theorem event_handler_undecodable_payloads subj events :
  (forall payload,
      utf8_valid (S (String.length payload)) payload = false ->
      event_handler {| subject := subj; data := payload |} events
      = (Raised UnicodeDecodeError, events))
  /\ event_handler {| subject := subj; data := String "255" "" |} events
     = (Raised UnicodeDecodeError, events)
  /\ event_handler {| subject := subj; data := "42" |} events
     = (Returned tt, events ++ [JInt 42]).
Proof.
  split; [|split; reflexivity].
  intros payload Hbad.
  apply (event_handler_raises_bad_utf8 _ UnicodeDecodeError).
  unfold decode. cbn [data]. now rewrite Hbad.
Qed.

(** ** The collected events

    Which event the tests take out of the collected ones. *)
Lemma events_of_type_head ty events l :
  events_of_type ty events = Returned l ->
  hd_error l = match first_of_type ty events with
               | Some i => nth_error events i
               | None => None
               end.
Proof.
  revert l. induction events as [|e rest IH]; intros l H; simpl in *.
  - injection H as <-. reflexivity.
  - destruct (get e "event_type") as [v|x]; [|discriminate].
    destruct (events_of_type ty rest) as [l'|x]; [|discriminate].
    specialize (IH l' eq_refl). injection H as <-.
    destruct v as [t|].
    + destruct (Json.eqb t (JStr ty)); [reflexivity|].
      rewrite IH. now destruct (first_of_type ty rest).
    + rewrite IH. now destruct (first_of_type ty rest).
Qed.

(** If no event of the type is among the first [n] collected, the first
    one of that type has index [n] or more. *)
Lemma first_of_type_after ty events : forall n i,
  first_of_type ty (firstn n events) = None ->
  first_of_type ty events = Some i ->
  (n <= i)%nat.
Proof.
  induction events as [|e rest IH]; intros n i Hn Hi; [discriminate|].
  destruct n as [|n]; [lia|]. simpl in Hn, Hi.
  assert (Hrest : forall j, option_map S (first_of_type ty rest) = Some j ->
                    option_map S (first_of_type ty (firstn n rest)) = None ->
                    (S n <= j)%nat).
  { intros j Hj Hnone. destruct (first_of_type ty rest) as [k|] eqn:Hk; [|discriminate].
    injection Hj as <-.
    destruct (first_of_type ty (firstn n rest)) eqn:Hf; [discriminate|].
    specialize (IH n k Hf eq_refl). lia. }
  destruct (get e "event_type") as [[t|]|x]; try (now apply Hrest).
  destruct (Json.eqb t (JStr ty)); [discriminate | now apply Hrest].
Qed.

(** ** The run of test_driver_registered_event after a created driver *)

Lemma registered_run env d id :
  status_code (http env 0 "POST" "/api/v1/drivers" (driver_payload d)) = 201 ->
  item (body (http env 0 "POST" "/api/v1/drivers" (driver_payload d))) "id" = Returned id ->
  test_driver_registered_event env d start
  = compare_registered d id (received_events (collecting env d id)) (collecting env d id).
Proof.
  intros Hstatus Hid.
  unfold test_driver_registered_event, collecting, compare_registered.
  unfold bind at 1 2 3. unfold subscribe at 1, flush at 1, request at 1.
  cbn [calls suspend start fst snd].
  rewrite Hstatus. cbn [Z.eqb Pos.eqb assert ret bind].
  unfold bind at 1. unfold lift at 1. rewrite Hid.
  reflexivity.
Qed.

Lemma compare_registered_keeps_world d id events w :
  snd (compare_registered d id events w) = w.
Proof.
  unfold compare_registered.
  cbv beta iota zeta delta [bind assert assert_item lift ret raise fst snd].
  repeat (match goal with
          | |- context [match ?x with _ => _ end] =>
              lazymatch x with
              | context [match _ with _ => _ end] => fail
              | _ => destruct x
              end
          end;
          cbv beta iota zeta delta [fst snd]);
  reflexivity.
Qed.

(** A first event of the type whose [driver_id] differs from the key
    fails the test, wherever in the collected list it stands. *)
Lemma compare_registered_mismatch d id events event rest v w :
  events_of_type "driver_registered" events = Returned (event :: rest) ->
  item event "driver_id" = Returned v ->
  Json.eqb v id = false ->
  fst (compare_registered d id events w) = Raised (AssertionError "").
Proof.
  intros He Hi Hne. unfold compare_registered.
  unfold bind at 1. unfold lift at 1. rewrite He.
  unfold bind at 1. unfold assert_item at 1. unfold bind at 1. unfold lift at 1.
  rewrite Hi, Hne. reflexivity.
Qed.

(** ** Program order of the four event-correlation tests *)

Ltac step_test :=
  cbv beta iota zeta delta
      [bind subscribe flush request sleep assert assert_item assert_number
       driver_path lift received append_test_driver ret raise suspend start
       fst snd trace subscriptions received_events callback_errors awaits calls
       held_at_action test_drivers].

Ltac run_test :=
  step_test;
  repeat (match goal with
          | |- context [match ?x with _ => _ end] =>
              lazymatch x with
              | context [match _ with _ => _ end] => fail
              | _ => destruct x
              end
          end;
          step_test);
  reflexivity.

Lemma registered_test_sequenced env d :
  sequenced (trace (snd (test_driver_registered_event env d start))) = true.
Proof. unfold test_driver_registered_event. run_test. Qed.

Lemma status_test_sequenced env created_driver :
  sequenced (trace (snd (test_driver_status_changed_event env created_driver start))) = true.
Proof. unfold test_driver_status_changed_event. run_test. Qed.

Lemma location_test_sequenced env created_driver location_data :
  sequenced (trace (snd (test_driver_location_updated_event
                           env created_driver location_data start))) = true.
Proof. unfold test_driver_location_updated_event. run_test. Qed.

Lemma ordering_test_sequenced env created_driver l0 l1 l2 :
  sequenced (trace (snd (test_nats_event_ordering env created_driver l0 l1 l2 start))) = true.
Proof. unfold test_nats_event_ordering, ordering_round. run_test. Qed.

(** ** C6 *)

(** C6, as stated, fails: when another test unit registers a driver while
    this test waits for its flush, that event is collected before the POST
    (one event is held when the action fires) and it is the one, at index
    0, that the test compares with its correlation key. *)
Lemma foreign_event_compared_with_key :
  ~ (forall i n,
       first_of_type "driver_registered"
         (received_events (snd (test_driver_registered_event busy_bus ivan start)))
       = Some i ->
       held_at_action (snd (test_driver_registered_event busy_bus ivan start)) = Some n ->
       (n <= i)%nat).
Proof.
  intros H.
  assert (H0 : (1 <= 0)%nat); [|lia].
  apply H; vm_compute; reflexivity.
Qed.

(** C6 (amended): in each of the four event-correlation tests every HTTP
    action is made after the subscriptions and after a flush that follows
    them.  The collected events are selected by event type alone, whether
    they arrived before or after the action: in
    test_driver_registered_event the first collected event of type
    driver_registered is the one compared with the correlation key, and a
    mismatch fails the test; that event was captured after the action
    whenever no event of the type arrived before the action. *)
Theorem correlation_tests_flush_before_action env d created_driver location_data l0 l1 l2 :
  sequenced (trace (snd (test_driver_registered_event env d start))) = true
  /\ sequenced (trace (snd (test_driver_status_changed_event env created_driver start))) = true
  /\ sequenced (trace (snd (test_driver_location_updated_event
                              env created_driver location_data start))) = true
  /\ sequenced (trace (snd (test_nats_event_ordering env created_driver l0 l1 l2 start))) = true
  /\ (let run := test_driver_registered_event env d start in
      let response := http env 0 "POST" "/api/v1/drivers" (driver_payload d) in
      (forall id event rest v,
          status_code response = 201 ->
          item (body response) "id" = Returned id ->
          events_of_type "driver_registered" (received_events (snd run))
          = Returned (event :: rest) ->
          item event "driver_id" = Returned v ->
          Json.eqb v id = false ->
          fst run = Raised (AssertionError "")
          /\ exists i, first_of_type "driver_registered" (received_events (snd run)) = Some i
                       /\ nth_error (received_events (snd run)) i = Some event)
      /\ (forall n i,
             held_at_action (snd run) = Some n ->
             first_of_type "driver_registered" (firstn n (received_events (snd run))) = None ->
             first_of_type "driver_registered" (received_events (snd run)) = Some i ->
             (n <= i)%nat)).
Proof.
  split; [apply registered_test_sequenced|].
  split; [apply status_test_sequenced|].
  split; [apply location_test_sequenced|].
  split; [apply ordering_test_sequenced|].
  cbv zeta. split.
  - intros id event rest v Hstatus Hid Hev Hitem Hne.
    rewrite (registered_run env d id Hstatus Hid) in *.
    rewrite compare_registered_keeps_world in *.
    split.
    + now apply (compare_registered_mismatch d id _ event rest v).
    + pose proof (events_of_type_head _ _ _ Hev) as Hhd. cbn [hd_error] in Hhd.
      destruct (first_of_type "driver_registered" (received_events (collecting env d id)))
        as [i|]; [|discriminate Hhd].
      exists i. split; [reflexivity | now symmetry].
  - intros n i _ Hbefore Hfirst. now apply (first_of_type_after _ _ n i Hbefore).
Qed.

(** ** The selection by event type *)

(** X13: The selection of the collected events by type is the filter on
    [e.get('event_type') == event_type] when every collected event is a JSON
    object; a single collected value of another kind (a number, a list, a
    string, null) makes the selection raise [AttributeError]. *)
Theorem events_of_type_spec ty events :
  (forallb is_dict events = true ->
   events_of_type ty events = Returned (filter (has_type ty) events))
  /\ (forallb is_dict events = false ->
      events_of_type ty events = Raised AttributeError).
Proof.
  induction events as [|e rest [IHt IHf]]; simpl.
  - split; [reflexivity | discriminate].
  - unfold has_type. destruct e; simpl; try (split; [discriminate | reflexivity]).
    split; intros H.
    + rewrite (IHt H). now destruct (dict_get "event_type" members) as [t|];
        [destruct (Json.eqb t (JStr ty))|].
    + now rewrite (IHf H).
Qed.

(** ** What a suspension collects *)

Lemma dispatch_collects subs msg events errors :
  fst (dispatch subs (events, errors) msg) = events ++ collected subs msg.
Proof.
  unfold dispatch, collected, event_handler.
  destruct (existsb (String.eqb (subject msg)) subs); [|simpl; now rewrite app_nil_r].
  simpl. destruct (decode (data msg)) as [text|e].
  - destruct (loads text) as [v|e] eqn:Hl; [reflexivity|].
    rewrite (loads_raises _ _ Hl). simpl. now rewrite app_nil_r.
  - destruct e; simpl; now rewrite app_nil_r.
Qed.

Lemma fold_dispatch_collects subs msgs : forall st,
  fst (fold_left (dispatch subs) msgs st) = fst st ++ flat_map (collected subs) msgs.
Proof.
  induction msgs as [|m rest IH]; intros [events errors]; simpl.
  - now rewrite app_nil_r.
  - rewrite IH. pose proof (dispatch_collects subs m events errors) as H.
    destruct (dispatch subs (events, errors) m) as [ev er]. simpl in *. subst ev.
    now rewrite <- app_assoc.
Qed.

(** X14: During one suspension the list grows by exactly the parsed payloads of
    the messages that arrived on subscribed subjects, in their order of
    arrival: a payload that is not UTF-8 or not JSON adds nothing and does
    not keep a later message from being recorded, and nothing already
    collected is lost. *)
Theorem suspend_collects env o w :
  received_events (suspend env o w)
  = received_events w ++ flat_map (collected (subscriptions w)) (arrivals env (awaits w))
  /\ subscriptions (suspend env o w) = subscriptions w
  /\ test_drivers (suspend env o w) = test_drivers w.
Proof.
  unfold suspend. simpl. split; [|split; reflexivity].
  now rewrite fold_dispatch_collects.
Qed.

(** ** The created driver is tracked before the events are examined *)

(** X15: In test_driver_registered_event the id of the created driver is
    tracked for cleanup as soon as the POST was answered 201 with a body that
    has an [id], whatever the events then show; with any other status the
    test fails at once, before the sleep, and tracks nothing, and so it does
    when the body has no [id]. *)
Theorem registered_test_tracks_created_id env d :
  let response := http env 0 "POST" "/api/v1/drivers" (driver_payload d) in
  let run := test_driver_registered_event env d start in
  (forall id, status_code response = 201 -> item (body response) "id" = Returned id ->
     test_drivers (snd run) = [id])
  /\ (status_code response <> 201 ->
      fst run = Raised (AssertionError "") /\ test_drivers (snd run) = []
      /\ trace (snd run) = [Subscribe "driver.registered"; Flush; Http "POST" "/api/v1/drivers"])
  /\ (forall e, status_code response = 201 -> item (body response) "id" = Raised e ->
      fst run = Raised e /\ test_drivers (snd run) = []).
Proof.
  cbv zeta. split; [|split].
  - intros id Hstatus Hid.
    rewrite (registered_run env d id Hstatus Hid), compare_registered_keeps_world.
    reflexivity.
  - intros Hstatus. apply Z.eqb_neq in Hstatus.
    unfold test_driver_registered_event. step_test. rewrite Hstatus. step_test.
    repeat split; reflexivity.
  - intros e Hstatus Hid.
    unfold test_driver_registered_event. step_test. rewrite Hstatus. step_test.
    rewrite Hid. step_test. split; reflexivity.
Qed.

(** ** A bus on which nothing arrives *)

Ltac step_silent :=
  cbv beta iota zeta delta
      [bind subscribe flush request sleep assert assert_item assert_number
       driver_path lift received append_test_driver ret raise suspend start
       fst snd trace subscriptions received_events callback_errors awaits calls
       held_at_action test_drivers fold_left app events_of_type
       List.length Nat.leb orb silent_bus arrivals http].

(** X16: When no event arrives at all, the three correlation tests pass as soon
    as the HTTP action is answered with the expected status: they do not
    notice a missing event.  test_nats_event_ordering, whose final assertion
    needs one event, fails. *)
Theorem silent_bus_passes service d created_driver location_data l0 l1 l2 id :
  item created_driver "id" = Returned id ->
  let env := silent_bus service in
  (status_code (service 0%nat "POST" "/api/v1/drivers" (driver_payload d)) = 201 ->
   (exists i, item (body (service 0%nat "POST" "/api/v1/drivers" (driver_payload d))) "id"
              = Returned i) ->
   fst (test_driver_registered_event env d start) = Returned tt)
  /\ ((forall method path sent, status_code (service 0%nat method path sent) = 200) ->
      fst (test_driver_status_changed_event env created_driver start) = Returned tt
      /\ fst (test_driver_location_updated_event env created_driver location_data start)
         = Returned tt)
  /\ fst (test_nats_event_ordering env created_driver l0 l1 l2 start)
     = Raised (AssertionError "").
Proof.
  intros Hid. cbv zeta. split; [|split].
  - intros Hstatus [i Hi].
    unfold test_driver_registered_event.
    step_silent. rewrite Hstatus. change (201 =? 201) with true.
    step_silent. rewrite Hi. reflexivity.
  - intros Hstatus. split.
    + unfold test_driver_status_changed_event, driver_path. rewrite Hid.
      step_silent. rewrite Hstatus.
      change (200 =? 200) with true. step_silent. reflexivity.
    + unfold test_driver_location_updated_event, driver_path. rewrite Hid.
      step_silent. rewrite Hstatus.
      change (200 =? 200) with true. step_silent. reflexivity.
  - unfold test_nats_event_ordering, ordering_round, driver_path. rewrite Hid.
    step_silent. reflexivity.
Qed.

Lemma silent_bus_passes_witness :
  fst (test_driver_registered_event (silent_bus service_ok) ivan start) = Returned tt
  /\ fst (test_nats_event_ordering (silent_bus service_ok) (JDict [("id", JStr "d-new")])
            ivan_location ivan_location ivan_location start)
     = Raised (AssertionError "").
Proof.
  pose proof (silent_bus_passes service_ok ivan (JDict [("id", JStr "d-new")])
                ivan_location ivan_location ivan_location ivan_location
                (JStr "d-new") eq_refl) as [H1 [_ H3]].
  split; [|exact H3].
  apply H1; [reflexivity | now exists (JStr "d-new")].
Defined.

(** ** The verdict of test_nats_event_ordering *)





End BusSpec.

(* ================================================================== *)
(** * Properties of the concurrent socket sessions *)
(* ================================================================== *)

Module SocketsSpec.
Import Py Sockets.

(** ** Sanity checks *)

Example second_refused_run :
  let run := test_websocket_concurrent_connections
               second_refused "ws://localhost:8001" ["a"; "b"; "c"; "d"; "e"] in
  fst (fst run) = Passed
  /\ snd (fst run) = [Returned 0%nat; Raised ConnectionRefusedError; Returned 2%nat]
  /\ map (fun h => (st (snd run h), close_calls (snd run h))) [0; 1; 2]%nat
     = [(CLOSED, 1%nat); (CLOSED, 0%nat); (CLOSED, 1%nat)].
Proof. repeat split; reflexivity. Qed.

(** In the sequential test the refusal of the second attempt ends the
    loop: the third session is never tried. *)
Example second_refused_limits_run :
  let run := test_websocket_connection_limits second_refused "ws://localhost:8001" "a" in
  fst (fst run) = Passed /\ snd (fst run) = [0%nat].
Proof. split; reflexivity. Qed.

(** ** Stores *)

Lemma upd_same h c s : upd h c s h = c.
Proof. unfold upd. now rewrite Nat.eqb_refl. Qed.

Lemma upd_other h c s j : j <> h -> upd h c s j = s j.
Proof. intros H. unfold upd. apply Nat.eqb_neq in H. now rewrite H. Qed.


(** ** gather *)


(** ** The part of a connection that only [close] changes *)



Lemma during_sleep_keeps srv s h :
  target (during_sleep srv s h) = target (s h)
  /\ close_calls (during_sleep srv s h) = close_calls (s h)
  /\ outbox (during_sleep srv s h) = outbox (s h).
Proof. unfold during_sleep. destruct (is_open (s h) && peer_closes srv h); simpl; auto. Qed.

(** ** The finally block *)



(** ** The exercised connections *)


(** ** C9 *)


(** ** The sequential test, for comparison *)

(** In test_websocket_connection_limits the first failed attempt ends the
    loop: the list of connections holds the handles of the attempts before
    it, and no later attempt is made. *)
Lemma connect_in_turn_stops srv url rounds : forall n conns s,
  connect_error srv n url <> None ->
  connect_in_turn srv n (S rounds) url conns s = (conns, s).
Proof. intros n conns s H. simpl. destruct (connect_error srv n url); [reflexivity|congruence]. Qed.

(** ** Refused connections *)

(** X18: When the first connection attempt of test_websocket_connection_limits
    fails, for whatever reason, the test is not skipped: the loop swallows
    the exception, and the assertion that one connection exists fails.
    Nothing was opened, so nothing is closed. *)
Theorem limits_test_refused_fails srv base driver_id :
  connect_error srv 0 (ws_url base driver_id) <> None ->
  test_websocket_connection_limits srv base driver_id
  = (Failed (AssertionError ""), [], blank).
Proof.
  intros H. unfold test_websocket_connection_limits.
  rewrite connect_in_turn_stops by exact H. reflexivity.
Qed.

Lemma limits_test_refused_fails_witness :
  test_websocket_connection_limits all_refused "ws://localhost:8001" "d1"
  = (Failed (AssertionError ""), [], blank).
Proof.
  exact (limits_test_refused_fails all_refused "ws://localhost:8001" "d1"
           ltac:(discriminate)).
Defined.





(** ** The sequential test: what is opened, and what is closed *)

(** The loop opens the attempts [n], [n+1], ... in turn, stops at the
    first refusal, and calls no [close]. *)
Lemma connect_in_turn_spec srv url rounds : forall n conns s,
  let run := connect_in_turn srv n rounds url conns s in
  (exists k, (k <= rounds)%nat /\ fst run = conns ++ seq n k
             /\ (forall j, (j < k)%nat -> connect_error srv (n + j) url = None))
  /\ ((forall h, close_calls (s h) = 0%nat) -> forall h, close_calls (snd run h) = 0%nat).
Proof.
  induction rounds as [|rounds IH]; intros n conns s; cbv zeta; simpl.
  - split; [|auto]. exists 0%nat. simpl. rewrite app_nil_r. repeat split; [lia|]. lia.
  - destruct (connect_error srv n url) as [e|] eqn:Hc.
    + simpl. split; [|auto]. exists 0%nat. simpl. rewrite app_nil_r. repeat split; lia.
    + specialize (IH (S n) (conns ++ [n]) (during_sleep srv (upd n (opened url) s))).
      cbv zeta in IH. destruct IH as [[k [Hk [Hrun Hok]]] Hcc].
      split.
      * exists (S k). split; [lia|]. split.
        -- rewrite Hrun. simpl. now rewrite <- app_assoc.
        -- intros [|j] Hj; [now rewrite Nat.add_0_r|].
           replace (n + S j)%nat with (S n + j)%nat by lia. apply Hok. lia.
      * intros Hzero. apply Hcc. intros h.
        destruct (during_sleep_keeps srv (upd n (opened url) s) h) as [_ [-> _]].
        destruct (Nat.eq_dec h n) as [-> | Hne];
          [now rewrite upd_same | rewrite upd_other by exact Hne; apply Hzero].
Qed.

(** With a [close] that never raises, the finally block leaves every
    listed connection closed, calls [close] at most once on each, and
    touches no connection that is already closed. *)
Lemma close_unclosed_spec srv conns : forall s,
  (forall h, close_error srv h = None) ->
  let run := close_unclosed srv conns s in
  fst run = Returned tt
  /\ (forall h, is_closed (s h) = true -> snd run h = s h)
  /\ (forall h, In h conns -> is_closed (snd run h) = true)
  /\ (forall h, (close_calls (snd run h) <= S (close_calls (s h)))%nat).
Proof.
  induction conns as [|c rest IH]; intros s Hok; cbv zeta; simpl.
  - split; [reflexivity|]. split; [reflexivity|]. split; [intros h []|]. intros h. lia.
  - destruct (is_closed (s c)) eqn:Hcl.
    + destruct (IH s Hok) as [A [B [C D]]]. repeat split; auto.
      intros h [<- | Hin]; [|now apply C]. now rewrite B.
    + unfold close. rewrite Hok.
      set (s1 := upd c _ s).
      destruct (IH s1 Hok) as [A [B [C D]]].
      assert (Hc1 : is_closed (s1 c) = true) by (unfold s1; now rewrite upd_same).
      repeat split.
      * exact A.
      * intros h Hh. assert (Hne : h <> c) by (intros ->; congruence).
        rewrite B; unfold s1; rewrite upd_other by exact Hne; [reflexivity | exact Hh].
      * intros h [<- | Hin]; [|now apply C]. now rewrite B.
      * intros h. destruct (Nat.eq_dec h c) as [-> | Hne].
        -- rewrite B by exact Hc1. unfold s1. rewrite upd_same. simpl. lia.
        -- specialize (D h). unfold s1 in D at 2. rewrite upd_other in D by exact Hne. exact D.
Qed.

Lemma send_close_calls srv h text s j :
  close_calls (snd (send srv h text s) j) = close_calls (s j).
Proof.
  unfold send. destruct (send_error srv h); [reflexivity|]. simpl.
  destruct (Nat.eq_dec j h) as [-> | Hne]; [now rewrite upd_same | now rewrite upd_other].
Qed.

(** X20: In test_websocket_connection_limits, when [close] does not raise: at
    most three connections are opened, the attempts 0, 1, ... up to the
    first refusal; at the end every one of them is closed, with [close]
    called at most once on it; and a failure of the test is the exception
    of the send on the first connection or a failed assertion. *)
Theorem limits_test_closes_all srv base driver_id :
  (forall h, close_error srv h = None) ->
  let run := test_websocket_connection_limits srv base driver_id in
  let connections := snd (fst run) in
  (exists k, (k <= 3)%nat /\ connections = seq 0 k
             /\ (forall j, (j < k)%nat -> connect_error srv j (ws_url base driver_id) = None))
  /\ (forall h, In h connections ->
        is_closed (snd run h) = true /\ (close_calls (snd run h) <= 1)%nat)
  /\ (forall e, fst (fst run) = Failed e ->
        send_error srv 0 = Some e \/ e = AssertionError "").
Proof.
  intros Hok. cbv zeta. unfold test_websocket_connection_limits.
  pose proof (connect_in_turn_spec srv (ws_url base driver_id) 3 0 [] blank) as H.
  cbv zeta in H. destruct H as [[k [Hk [Hconns Hopen]]] Hzero].
  specialize (Hzero (fun _ => eq_refl)).
  destruct (connect_in_turn srv 0 3 (ws_url base driver_id) [] blank) as [connections s1].
  cbn [fst snd] in *. subst connections. cbn [app].
  set (body := match seq 0 k with
               | [] => (Raised (AssertionError ""), s1)
               | first :: _ =>
                   match send srv first connection_test_message s1 with
                   | (Raised e, s') => (Raised e, s')
                   | (Returned tt, s') =>
                       (if is_open (s' first) then Returned tt
                        else Raised (AssertionError ""), s')
                   end
               end).
  assert (Hbody : (forall h, close_calls (snd body h) = 0%nat)
                  /\ (forall e, fst body = Raised e ->
                        send_error srv 0 = Some e \/ e = AssertionError "")).
  { unfold body. destruct k as [|k'].
    { simpl. split; [exact Hzero|]. intros e He. injection He as <-. now right. }
    cbn [seq]. pose proof (send_close_calls srv 0 connection_test_message s1) as Hs.
    unfold send in *. destruct (send_error srv 0) as [e0|]; cbn [fst snd] in *.
    - split; [exact Hzero|]. intros e He. injection He as <-. auto.
    - split; [intros h; now rewrite Hs|].
      intros e He. destruct (is_open _); [discriminate|]. injection He as <-. auto. }
  destruct body as [r s2]. cbn [fst snd] in Hbody. destruct Hbody as [Hz2 Hr].
  pose proof (close_unclosed_spec srv (seq 0 k) s2 Hok) as H. cbv zeta in H.
  destruct H as [A [_ [C D]]].
  destruct (close_unclosed srv (seq 0 k) s2) as [[[]|e] s3]; cbn [fst snd] in *;
    [|discriminate].
  split; [exists k; split; [exact Hk | split; [reflexivity | exact Hopen]]|].
  split.
  - intros h Hin. split; [now apply C|]. specialize (D h). rewrite Hz2 in D. exact D.
  - intros e He. apply Hr. destruct r as [[]|e']; simpl in He; [discriminate|].
    destruct e'; try discriminate; now injection He as <-.
Qed.

Lemma limits_test_closes_all_witness :
  is_closed (snd (test_websocket_connection_limits second_refused
                    "ws://localhost:8001" "a") 0%nat) = true
  /\ (close_calls (snd (test_websocket_connection_limits second_refused
                          "ws://localhost:8001" "a") 0%nat) <= 1)%nat.
Proof.
  apply (proj1 (proj2 (limits_test_closes_all second_refused "ws://localhost:8001" "a"
                         (fun _ => eq_refl)))).
  simpl. tauto.
Defined.

(** ** When the socket tests are skipped *)







End SocketsSpec.

(* ================================================================== *)
(** * Properties of the response assertions and of the driver fixtures *)
(* ================================================================== *)

Module ValidatorsSpec.
Import Py Json Validators.

(** ** Sanity checks *)

Example email_pattern_examples :
  map (matches email_pattern)
      ["ivan@example.org"; "a.b@c.d.ef"; "a@b.c"; "@b.co"; "a@.co"; "a@b.c0"; "a b@c.de"]
  = [true; true; false; false; false; false; false].
Proof. reflexivity. Qed.

Example created_driver_run :
  let run := created_driver by_length Fixtures.demo_source (storing 5)
                            "http://localhost:8001" session0 in
  fst run = Returned (stored_driver (driver_id_of 0) Bus.ivan)
  /\ test_drivers (snd run) = [JStr "00000000-0000-4000-8000-000000000000"].
Proof. split; reflexivity. Qed.

Example multiple_drivers_run :
  let run := multiple_drivers by_length Fixtures.demo_source (storing 3)
                              "http://localhost:8001" session0 in
  fst run = Raised (AssertionError
                      "Expected status code 201, got 503. Response: Service Unavailable")
  /\ test_drivers (snd run) = map (fun n => JStr (driver_id_of n)) [0; 1; 2]%nat
  /\ calls (snd run) = 4%nat.
Proof. repeat split; reflexivity. Qed.

(** ** Steps that returned *)

Lemma bind_returned {A B} (m : result A) (k : A -> result B) b :
  bind m k = Returned b -> exists a, m = Returned a /\ k a = Returned b.
Proof. destruct m as [a|e]; simpl; [eauto | discriminate]. Qed.

Lemma assert_returned c msg u : assert c msg = Returned u -> c = true.
Proof. destruct c; [reflexivity | discriminate]. Qed.

Lemma item_returned d key v :
  item d key = Returned v -> exists members, d = JDict members /\ dict_get key members = Some v.
Proof.
  destruct d; try discriminate. simpl.
  destruct (dict_get key members) as [x|] eqn:H; [|discriminate].
  intros E. injection E as <-. eauto.
Qed.

Lemma assert_valid_uuid_returned lib v u :
  assert_valid_uuid lib v = Returned u -> exists s, v = JStr s /\ uuid_UUID lib s = true.
Proof.
  destruct v; try discriminate. simpl.
  destruct (uuid_UUID lib s) eqn:H; [eauto | discriminate].
Qed.

Lemma assert_valid_timestamp_returned lib v u :
  assert_valid_timestamp lib v = Returned u ->
  exists s, v = JStr s /\ fromisoformat lib (replace_Z s) = true.
Proof.
  destruct v; try discriminate. simpl.
  destruct (fromisoformat lib (replace_Z s)) eqn:H; [eauto | discriminate].
Qed.


Lemma le_finite_left lo x :
  le (Finite lo) x = true -> x = PosInf \/ exists q, x = Finite q /\ (lo <= q)%Q.
Proof.
  destruct x as [q| | |]; simpl; try discriminate; [|auto].
  intros H. right. exists q. split; [reflexivity | now apply Qle_bool_iff].
Qed.

Lemma le_finite_right x hi :
  le x (Finite hi) = true -> x = NegInf \/ exists q, x = Finite q /\ (q <= hi)%Q.
Proof.
  destruct x as [q| | |]; simpl; try discriminate; [|auto].
  intros H. right. exists q. split; [reflexivity | now apply Qle_bool_iff].
Qed.

Lemma between_returned lo hi v :
  between lo hi v = Returned true ->
  exists q, as_float v = Returned (Finite q) /\ (lo <= q)%Q /\ (q <= hi)%Q.
Proof.
  unfold between. intros H. apply bind_returned in H. destruct H as [x [Hx H]].
  injection H as H. apply andb_true_iff in H. destruct H as [H1 H2].
  destruct (le_finite_left _ _ H1) as [-> | [q [-> Hq]]]; [discriminate|].
  destruct (le_finite_right _ _ H2) as [E | [q' [E Hq']]]; [discriminate|].
  injection E as <-. eauto.
Qed.

Lemma at_least_returned lo v :
  at_least lo v = Returned true ->
  as_float v = Returned PosInf \/ exists q, as_float v = Returned (Finite q) /\ (lo <= q)%Q.
Proof.
  unfold at_least. intros H. apply bind_returned in H. destruct H as [x [Hx H]].
  injection H as H.
  destruct (le_finite_left _ _ H) as [-> | [q [-> Hq]]]; [now left | right; eauto].
Qed.

Lemma between_open_returned lo hi v :
  between_open lo hi v = Returned true ->
  exists q, as_float v = Returned (Finite q) /\ (lo <= q)%Q /\ (q < hi)%Q.
Proof.
  unfold between_open. intros H. apply bind_returned in H. destruct H as [x [Hx H]].
  injection H as H. apply andb_true_iff in H. destruct H as [H1 H2].
  unfold lt in H2. apply andb_true_iff in H2. destruct H2 as [H2 H3].
  destruct (le_finite_left _ _ H1) as [-> | [q [-> Hq]]]; [discriminate|].
  simpl in H3. apply negb_true_iff in H3.
  exists q. split; [exact Hx|]. split; [exact Hq|].
  apply Qnot_le_lt. intros Hle. apply Qle_bool_iff in Hle. congruence.
Qed.

(** ** The required fields *)

(** On a dict the loop reports the first field, in the order of the list,
    that is missing. *)
Lemma assert_fields_dict fields members :
  assert_fields fields (JDict members)
  = match find (fun f => negb (has_key (JDict members) f)) fields with
    | Some f => Raised (AssertionError ("Missing required field: " ++ f))
    | None => Returned tt
    end.
Proof.
  induction fields as [|f rest IH]; [reflexivity|].
  cbn [assert_fields find contains_key bind].
  destruct (has_key (JDict members) f); simpl; [exact IH | reflexivity].
Qed.



(** ** What a driver that passes looks like *)

Tactic Notation "returned" hyp(H) ident(x) ident(Hx) :=
  apply bind_returned in H; destruct H as [x [Hx H]].

Lemma driver_valid_id lib d :
  assert_driver_data_valid lib d = Returned tt ->
  exists id, item d "id" = Returned (JStr id) /\ uuid_UUID lib id = true.
Proof.
  unfold assert_driver_data_valid. intros H.
  returned H u0 H0. returned H id Hid. returned H u1 H1.
  destruct (assert_valid_uuid_returned _ _ _ H1) as [s [-> Hs]]. eauto.
Qed.


(** X23: On a JSON object that lacks required fields, [assert_driver_data_valid]
    fails with "Missing required field: " followed by the first such field
    in the order of the list, before any value is looked at. *)
Theorem assert_driver_data_valid_first_missing lib members field :
  find (fun f => negb (has_key (JDict members) f)) driver_fields = Some field ->
  assert_driver_data_valid lib (JDict members)
  = Raised (AssertionError ("Missing required field: " ++ field))
  /\ In field driver_fields
  /\ dict_get field members = None.
Proof.
  intros H. split; [|split].
  - unfold assert_driver_data_valid. now rewrite assert_fields_dict, H.
  - now apply find_some in H.
  - apply find_some in H. destruct H as [_ H]. apply negb_true_iff in H.
    simpl in H. now destruct (dict_get field members).
Qed.

Lemma assert_driver_data_valid_first_missing_witness :
  assert_driver_data_valid by_length
    (JDict [("id", JStr "0"); ("phone", JStr "+79123456789"); ("first_name", JStr "Ivan")])
  = Raised (AssertionError "Missing required field: email").
Proof.
  exact (proj1 (assert_driver_data_valid_first_missing by_length
                  [("id", JStr "0"); ("phone", JStr "+79123456789");
                   ("first_name", JStr "Ivan")] "email" eq_refl)).
Defined.


(** ** What a location that passes looks like *)

Lemma item_dict key members v :
  item (JDict members) key = Returned v -> dict_get key members = Some v.
Proof.
  intros Hk. destruct (item_returned _ _ _ Hk) as [m [E G]]. injection E as <-. exact G.
Qed.

Lemma assert_optional_returned lib members key check what u :
  assert_optional lib (JDict members) key check what = Returned u ->
  forall v, dict_get key members = Some v -> v = JNull \/ check v = Returned true.
Proof.
  unfold assert_optional. cbn [contains_key bind has_key].
  intros H v Hv. rewrite Hv in H. cbn [item] in H. rewrite Hv in H. cbn [bind] in H.
  destruct v; auto; right;
    apply bind_returned in H; destruct H as [ok [Hok H]];
    apply assert_returned in H; now subst ok.
Qed.

(** X24: A response body that passes [assert_location_data_valid] is a JSON
    object whose [id] and [driver_id] are accepted by [uuid.UUID], whose
    [recorded_at] and [created_at] are accepted timestamps, whose latitude
    is a number in [-90, 90] and whose longitude is one in [-180, 180]; an
    [accuracy], [speed] or [bearing] may be absent or null, and otherwise
    accuracy and speed are not negative and the bearing lies in [0, 360). *)
Theorem assert_location_data_valid_sound lib location_data :
  assert_location_data_valid lib location_data = Returned tt ->
  exists members id driver_id recorded_at created_at latitude longitude,
    location_data = JDict members
    /\ dict_get "id" members = Some (JStr id) /\ uuid_UUID lib id = true
    /\ dict_get "driver_id" members = Some (JStr driver_id)
    /\ uuid_UUID lib driver_id = true
    /\ dict_get "recorded_at" members = Some (JStr recorded_at)
    /\ fromisoformat lib (replace_Z recorded_at) = true
    /\ dict_get "created_at" members = Some (JStr created_at)
    /\ fromisoformat lib (replace_Z created_at) = true
    /\ dict_get "latitude" members = Some latitude
    /\ (exists q, as_float latitude = Returned (Finite q) /\ (-90 <= q)%Q /\ (q <= 90)%Q)
    /\ dict_get "longitude" members = Some longitude
    /\ (exists q, as_float longitude = Returned (Finite q)
                  /\ (-180 <= q)%Q /\ (q <= 180)%Q)
    /\ (forall key v, key = "accuracy" \/ key = "speed" ->
          dict_get key members = Some v ->
          v = JNull \/ as_float v = Returned PosInf
          \/ exists q, as_float v = Returned (Finite q) /\ (0 <= q)%Q)
    /\ (forall v, dict_get "bearing" members = Some v ->
          v = JNull
          \/ exists q, as_float v = Returned (Finite q) /\ (0 <= q)%Q /\ (q < 360)%Q).
Proof.
  unfold assert_location_data_valid. intros H.
  returned H u0 Hfields.
  returned H id Hid. returned H u1 Huuid.
  returned H driver_id Hd. returned H u2 Hduuid.
  returned H recorded_at Hr. returned H u3 Hrt.
  returned H created_at Hc. returned H u4 Hct.
  returned H latitude Hla. returned H ok1 Hlab. returned H u5 Hlaa.
  returned H longitude Hlo. returned H ok2 Hlob. returned H u6 Hloa.
  returned H u7 Hacc. returned H u8 Hspd.
  apply assert_returned in Hlaa, Hloa. subst ok1 ok2.
  destruct (item_returned _ _ _ Hid) as [members [-> Gid]].
  destruct (assert_valid_uuid_returned _ _ _ Huuid) as [sid [-> Hsid]].
  destruct (assert_valid_uuid_returned _ _ _ Hduuid) as [sd [-> Hsd]].
  destruct (assert_valid_timestamp_returned _ _ _ Hrt) as [sr [-> Hsr]].
  destruct (assert_valid_timestamp_returned _ _ _ Hct) as [sc [-> Hsc]].
  exists members, sid, sd, sr, sc, latitude, longitude.
  split; [reflexivity|].
  split; [exact Gid|]. split; [exact Hsid|].
  split; [now apply item_dict|]. split; [exact Hsd|].
  split; [now apply item_dict|]. split; [exact Hsr|].
  split; [now apply item_dict|]. split; [exact Hsc|].
  split; [now apply item_dict|]. split; [now apply between_returned|].
  split; [now apply item_dict|]. split; [now apply between_returned|].
  split.
  - intros key v [-> | ->] Hv.
    + destruct (assert_optional_returned _ _ _ _ _ _ Hacc v Hv) as [-> | Hk]; [now left|].
      right. now apply at_least_returned.
    + destruct (assert_optional_returned _ _ _ _ _ _ Hspd v Hv) as [-> | Hk]; [now left|].
      right. now apply at_least_returned.
  - intros v Hv.
    destruct (assert_optional_returned _ _ _ _ _ _ H v Hv) as [-> | Hk]; [now left|].
    right. now apply between_open_returned.
Qed.

(** ** The fixtures *)

Ltac failed :=
  cbn [fst snd calls test_drivers];
  split; [try reflexivity; try assumption
         | split; [try reflexivity; try assumption
                  | let l := fresh in let H := fresh in intros l H; discriminate H]].

(** One call of [create_test_driver]: one HTTP call, nothing tracked, and
    what it returns has passed [assert_driver_data_valid]. *)
Lemma create_test_driver_spec lib src http base w :
  let run := create_test_driver lib src http base w in
  calls (snd run) = S (calls w)
  /\ test_drivers (snd run) = test_drivers w
  /\ (forall d, fst run = Returned d -> assert_driver_data_valid lib d = Returned tt).
Proof.
  cbv zeta. unfold create_test_driver, then_, generate_driver, http_post, lift, ret.
  destruct (Fixtures.generate_test_driver_data src None (faker w)) as [d st].
  cbn [calls faker test_drivers].
  destruct (post http (calls w) _ _) as [response|e]; [|repeat split; discriminate].
  destruct (assert_status_code lib response 201) as [[]|e]; [|repeat split; discriminate].
  destruct (response_json response) as [created|e]; [|repeat split; discriminate].
  destruct (assert_driver_data_valid lib created) as [[]|e] eqn:Hv;
    [|repeat split; discriminate].
  repeat split. intros d0 H. simpl in H. injection H as <-. exact Hv.
Qed.

(** X25: The fixture [created_driver] makes one HTTP call.  When it returns a
    driver, that driver has passed [assert_driver_data_valid] and its [id],
    a text that [uuid.UUID] accepts, is the one entry added to the list of
    [test_drivers]; when it raises, whatever the service answered, nothing
    is added. *)
Theorem created_driver_tracks lib src http base w :
  let run := created_driver lib src http base w in
  calls (snd run) = S (calls w)
  /\ (forall driver, fst run = Returned driver ->
        assert_driver_data_valid lib driver = Returned tt
        /\ exists id, item driver "id" = Returned (JStr id)
                      /\ uuid_UUID lib id = true
                      /\ test_drivers (snd run) = test_drivers w ++ [JStr id])
  /\ (forall e, fst run = Raised e -> test_drivers (snd run) = test_drivers w).
Proof.
  cbv zeta. unfold created_driver.
  pose proof (create_test_driver_spec lib src http base w) as H. cbv zeta in H.
  destruct H as [Hcalls [Htracked Hvalid]].
  unfold then_, lift, append_test_driver, ret.
  destruct (create_test_driver lib src http base w) as [[driver|e] w1];
    cbn [fst snd] in *;
    [|split; [exact Hcalls | split; [intros d Hd; discriminate Hd|]];
      intros e0 _; exact Htracked].
  specialize (Hvalid driver eq_refl).
  destruct (driver_valid_id lib driver Hvalid) as [id [Hid Huuid]].
  rewrite Hid. cbn [fst snd calls test_drivers].
  split; [exact Hcalls|]. split.
  - intros d H. injection H as <-. split; [exact Hvalid|].
    exists id. rewrite Htracked. auto.
  - discriminate.
Qed.

(** The loop of [multiple_drivers]: the drivers created so far are tracked,
    in the order of creation, whether the loop ends or fails. *)
Lemma create_drivers_spec lib src http base n : forall drivers w,
  let run := create_drivers lib src http base n drivers w in
  exists created ids,
    Forall2 (fun d id => item d "id" = Returned id) created ids
    /\ Forall (fun d => assert_driver_data_valid lib d = Returned tt) created
    /\ test_drivers (snd run) = test_drivers w ++ ids
    /\ (forall l, fst run = Returned l ->
          l = drivers ++ created /\ List.length created = n
          /\ calls (snd run) = (calls w + n)%nat)
    /\ (forall e, fst run = Raised e ->
          (List.length created < n)%nat
          /\ calls (snd run) = (calls w + List.length created + 1)%nat).
Proof.
  induction n as [|n IH]; intros drivers w; cbv zeta.
  - exists [], []. cbn [create_drivers ret fst snd]. rewrite !app_nil_r.
    split; [constructor|]. split; [constructor|]. split; [reflexivity|].
    split; [|intros e He; discriminate He].
    intros l Hl. injection Hl as <-. split; [reflexivity|]. split; [reflexivity | lia].
  - cbn [create_drivers].
    pose proof (create_test_driver_spec lib src http base w) as H. cbv zeta in H.
    destruct H as [Hcalls [Htracked Hvalid]].
    unfold then_, lift, append_test_driver.
    destruct (create_test_driver lib src http base w) as [[driver|e] w1];
      cbn [fst snd] in *.
    + specialize (Hvalid driver eq_refl).
      destruct (driver_valid_id lib driver Hvalid) as [id [Hid Huuid]].
      rewrite Hid.
      set (w2 := {| faker := faker w1; calls := calls w1;
                    test_drivers := test_drivers w1 ++ [JStr id] |}).
      specialize (IH (drivers ++ [driver]) w2). cbv zeta in IH.
      destruct IH as [created [ids [Hids [Hall [Htr [Hret Hraise]]]]]].
      exists (driver :: created), (JStr id :: ids).
      split; [now constructor|]. split; [now constructor|].
      split; [rewrite Htr; unfold w2; cbn [test_drivers]; rewrite Htracked;
              now rewrite <- app_assoc|].
      split.
      * intros l Hl. destruct (Hret l Hl) as [-> [Hlen Hc]].
        rewrite <- app_assoc. split; [reflexivity|]. split; [simpl; lia|].
        rewrite Hc. unfold w2. cbn [calls]. lia.
      * intros e He. destruct (Hraise e He) as [Hlen Hc].
        split; [simpl; lia|]. rewrite Hc. unfold w2. cbn [calls]. simpl. lia.
    + exists [], []. rewrite app_nil_r.
      split; [constructor|]. split; [constructor|]. split; [exact Htracked|].
      split; [discriminate|]. intros e0 _. simpl. split; lia.
Qed.

(** X26: The fixture [multiple_drivers] tracks the [id] of every driver it has
    created, in the order of creation, each of them valid.  When it returns,
    these are the five drivers of the result, after five HTTP calls; when a
    creation fails, the ids of the drivers created before it stay tracked,
    and no further call is made. *)
Theorem multiple_drivers_tracks lib src http base w :
  let run := multiple_drivers lib src http base w in
  exists created ids,
    Forall2 (fun d id => item d "id" = Returned id) created ids
    /\ Forall (fun d => assert_driver_data_valid lib d = Returned tt) created
    /\ test_drivers (snd run) = test_drivers w ++ ids
    /\ (forall drivers, fst run = Returned drivers ->
          drivers = created /\ List.length created = 5%nat
          /\ calls (snd run) = (calls w + 5)%nat)
    /\ (forall e, fst run = Raised e ->
          (List.length created < 5)%nat
          /\ calls (snd run) = (calls w + List.length created + 1)%nat).
Proof.
  cbv zeta. unfold multiple_drivers.
  destruct (create_drivers_spec lib src http base 5 [] w)
    as [created [ids [Hids [Hall [Htr [Hret Hraise]]]]]].
  exists created, ids.
  split; [exact Hids|]. split; [exact Hall|]. split; [exact Htr|].
  split; [|exact Hraise].
  intros drivers H. destruct (Hret drivers H) as [-> [Hlen Hc]]. auto.
Qed.

(** ** driver_with_location *)

Lemma dict_get_set_same key v members : dict_get key (dict_set key v members) = Some v.
Proof.
  induction members as [|[k x] rest IH]; simpl.
  - now rewrite String.eqb_refl.
  - destruct (String.eqb key k) eqn:E; simpl; [now rewrite String.eqb_refl | now rewrite E].
Qed.

Lemma dict_get_set_other key key' v members :
  key' <> key -> dict_get key' (dict_set key v members) = dict_get key' members.
Proof.
  intros Hne. induction members as [|[k x] rest IH]; simpl.
  - apply String.eqb_neq in Hne. now rewrite Hne.
  - destruct (String.eqb key k) eqn:E; simpl.
    + apply String.eqb_eq in E. subst k.
      apply String.eqb_neq in Hne. now rewrite Hne.
    + destruct (String.eqb key' k); [reflexivity | exact IH].
Qed.

Lemma update_driver_location_spec lib src http base id location_data w :
  let run := update_driver_location lib src http base id location_data w in
  calls (snd run) = S (calls w)
  /\ test_drivers (snd run) = test_drivers w
  /\ (forall l, fst run = Returned l -> assert_location_data_valid lib l = Returned tt).
Proof.
  cbv zeta.
  unfold update_driver_location, then_, http_post, lift, ret, generate_location.
  destruct location_data as [l|];
    [|destruct (Fixtures.generate_test_location_data src None None [] (faker w)) as [l st]];
    cbn [calls faker test_drivers];
    (destruct (post http (calls w) _ _) as [response|e]; [|now failed]);
    (destruct (assert_status_code lib response 200) as [[]|e]; [|now failed]);
    (destruct (response_json response) as [loc|e]; [|now failed]);
    (destruct (assert_location_data_valid lib loc) as [[]|e] eqn:Hv; [|now failed]);
    cbn [fst snd calls test_drivers];
    (split; [reflexivity|]; split; [reflexivity|]);
    intros l0 H; injection H as <-; exact Hv.
Qed.

(** X27: In the fixture [driver_with_location] the id of the created driver is
    tracked before the location is posted, so it is tracked whether or not
    the location update succeeds, after two HTTP calls.  The driver that is
    returned is the created one with the validated location stored under
    [last_location]: reading that key gives the location, and every other
    key reads as before. *)
Theorem driver_with_location_spec lib src http base w :
  let run := driver_with_location lib src http base w in
  (forall created w1, create_test_driver lib src http base w = (Returned created, w1) ->
     exists id, item created "id" = Returned (JStr id)
                /\ test_drivers (snd run) = test_drivers w ++ [JStr id]
                /\ calls (snd run) = S (S (calls w)))
  /\ (forall driver, fst run = Returned driver ->
        exists created location,
          fst (create_test_driver lib src http base w) = Returned created
          /\ assert_location_data_valid lib location = Returned tt
          /\ item driver "last_location" = Returned location
          /\ (forall key, key <> "last_location" -> item driver key = item created key)).
Proof.
  cbv zeta. unfold driver_with_location.
  pose proof (create_test_driver_spec lib src http base w) as H. cbv zeta in H.
  destruct H as [Hcalls [Htracked Hvalid]].
  unfold then_, lift, append_test_driver.
  destruct (create_test_driver lib src http base w) as [[created|e] w1];
    cbn [fst snd] in *;
    [|split; [intros c w' Hc; inversion Hc | intros d Hd; inversion Hd]].
  specialize (Hvalid created eq_refl).
  destruct (driver_valid_id lib created Hvalid) as [id [Hid Huuid]].
  rewrite Hid.
  set (w2 := {| faker := faker w1; calls := calls w1;
                test_drivers := test_drivers w1 ++ [JStr id] |}).
  pose proof (update_driver_location_spec lib src http base (JStr id) None w2) as H.
  cbv zeta in H. destruct H as [Hc2 [Ht2 Hv2]].
  destruct (update_driver_location lib src http base (JStr id) None w2)
    as [[location|e] w3]; cbn [fst snd] in *.
  - specialize (Hv2 location eq_refl).
    destruct (item_returned _ _ _ Hid) as [members [-> Gid]].
    cbn [set_item fst snd]. split.
    + intros c w' Hc. injection Hc as <- <-. exists id.
      split; [exact Hid|]. rewrite Ht2, Hc2. unfold w2. cbn [test_drivers calls].
      now rewrite Htracked, Hcalls.
    + intros driver Hd. injection Hd as <-. exists (JDict members), location.
      split; [reflexivity|]. split; [exact Hv2|]. split.
      * cbn [item]. now rewrite dict_get_set_same.
      * intros key Hne. cbn [item]. now rewrite dict_get_set_other.
  - split; [|intros d Hd; inversion Hd].
    intros c w' Hc. injection Hc as <- <-. exists id.
    split; [exact Hid|]. rewrite Ht2, Hc2. unfold w2. cbn [test_drivers calls].
    now rewrite Htracked, Hcalls.
Qed.

(** ** A run of driver_with_location *)

Example driver_with_location_run :
  let run := driver_with_location by_length Fixtures.demo_source (storing 5)
                                  "http://localhost:8001" session0 in
  (exists driver, fst run = Returned driver
                  /\ has_key driver "last_location" = true
                  /\ has_key driver "phone" = true)
  /\ test_drivers (snd run) = [JStr (driver_id_of 0)]
  /\ calls (snd run) = 2%nat.
Proof.
  vm_compute. split; [|split; reflexivity].
  eexists. split; [reflexivity|]. split; reflexivity.
Qed.

Lemma assert_location_data_valid_sound_witness :
  exists members id driver_id recorded_at created_at latitude longitude,
    stored_location (driver_id_of 1) Bus.ivan_location = JDict members
    /\ dict_get "id" members = Some (JStr id) /\ uuid_UUID by_length id = true
    /\ dict_get "driver_id" members = Some (JStr driver_id)
    /\ uuid_UUID by_length driver_id = true
    /\ dict_get "recorded_at" members = Some (JStr recorded_at)
    /\ fromisoformat by_length (replace_Z recorded_at) = true
    /\ dict_get "created_at" members = Some (JStr created_at)
    /\ fromisoformat by_length (replace_Z created_at) = true
    /\ dict_get "latitude" members = Some latitude
    /\ (exists q, as_float latitude = Returned (Finite q) /\ (-90 <= q)%Q /\ (q <= 90)%Q)
    /\ dict_get "longitude" members = Some longitude
    /\ (exists q, as_float longitude = Returned (Finite q)
                  /\ (-180 <= q)%Q /\ (q <= 180)%Q)
    /\ (forall key v, key = "accuracy" \/ key = "speed" ->
          dict_get key members = Some v ->
          v = JNull \/ as_float v = Returned PosInf
          \/ exists q, as_float v = Returned (Finite q) /\ (0 <= q)%Q)
    /\ (forall v, dict_get "bearing" members = Some v ->
          v = JNull
          \/ exists q, as_float v = Returned (Finite q) /\ (0 <= q)%Q /\ (q < 360)%Q).
Proof.
  exact (assert_location_data_valid_sound by_length
           (stored_location (driver_id_of 1) Bus.ivan_location) eq_refl).
Defined.

End ValidatorsSpec.

